(** * The PDF rendering service: a shallow embedding and its properties

    Two variants of the same Express server are verified side by side:
    [ServerJs] embeds [src/server.js] and [Part000] embeds
    [src/unnamed/part_000].  Both read their configuration from two sheet
    tabs, resolve a template, check the required placeholders, copy a Google
    Doc, substitute, export, upload and clean up.

    JavaScript values are the JSON values a request body or a sheet cell can
    hold, plus [undefined] and built-in functions reached through a
    prototype.  A string is the sequence of its UTF-16 code units, and the
    strings here are those whose code units lie below 256 (the Latin-1
    range): one character is one code unit, so lengths, indices, [trim] and
    [toLowerCase] are those of JavaScript on these strings.  Numbers are
    the integers JavaScript holds exactly, up to [2^53] in absolute value,
    which it spells in plain decimal: nothing below looks inside a number
    beyond its zero test and its spelling.
    Calls to Google and to the CRM are answered by an explicit [World]; every
    call and its outcome is appended to a trace. *)

From Stdlib Require Import String Ascii List ZArith Bool Lia DecimalString Sorted.
Import ListNotations.

Local Open Scope string_scope.
Local Open Scope list_scope.

Infix "+++" := String.append (right associativity, at level 60).

(** ** Strings as the code uses them *)

(** [s.split('.')]: never empty, one more piece than there are dots. *)
Fixpoint split_on (sep : ascii) (s : string) : list string :=
  match s with
  | EmptyString => [EmptyString]
  | String c rest =>
      if Ascii.eqb c sep then EmptyString :: split_on sep rest
      else match split_on sep rest with
           | piece :: pieces => String c piece :: pieces
           | [] => [String c EmptyString]
           end
  end.

Definition split_dot (s : string) : list string := split_on "."%char s.

(** White space and line terminators removed by [trim], among the code
    units below 256: tab, line feed, vertical tab, form feed, carriage
    return, space and the no-break space U+00A0. *)
Definition is_space (c : ascii) : bool :=
  let n := nat_of_ascii c in
  ((9 <=? n) && (n <=? 13))%nat || (n =? 32)%nat || (n =? 160)%nat.

Fixpoint trimStart (s : string) : string :=
  match s with
  | EmptyString => EmptyString
  | String c rest => if is_space c then trimStart rest else s
  end.

Fixpoint trimEnd (s : string) : string :=
  match s with
  | EmptyString => EmptyString
  | String c rest =>
      match trimEnd rest with
      | EmptyString => if is_space c then EmptyString else String c EmptyString
      | kept => String c kept
      end
  end.

Definition trim (s : string) : string := trimEnd (trimStart s).

(** The lower case of a code unit below 256: the letters [A] to [Z], and
    the capital letters of Latin-1, U+00C0 to U+00DE without the
    multiplication sign U+00D7, lie 32 below their lower case. *)
Definition lower_char (c : ascii) : ascii :=
  let n := nat_of_ascii c in
  if ((65 <=? n) && (n <=? 90) ||
      (192 <=? n) && (n <=? 214) ||
      (216 <=? n) && (n <=? 222))%nat
  then ascii_of_nat (n + 32) else c.

Fixpoint toLowerCase (s : string) : string :=
  match s with
  | EmptyString => EmptyString
  | String c rest => String (lower_char c) (toLowerCase rest)
  end.

(** [s.endsWith(suffix)]: some tail of [s] is [suffix]. *)
Fixpoint endsWith (s suffix : string) : bool :=
  String.eqb s suffix ||
  match s with
  | EmptyString => false
  | String _ rest => endsWith rest suffix
  end.

(** [s.includes(needle)]. *)
Fixpoint includes (s needle : string) : bool :=
  String.prefix needle s ||
  match s with
  | EmptyString => false
  | String _ rest => includes rest needle
  end.

(** [s.replace(/needle/g, repl)] for a literal, non-empty [needle] and a
    replacement text without [$]: [skip] counts the characters of a match
    still to be dropped. *)
Fixpoint replace_literal (needle repl s : string) (skip : nat) : string :=
  match s with
  | EmptyString => EmptyString
  | String c rest =>
      match skip with
      | S k => replace_literal needle repl rest k
      | O =>
          if String.prefix needle s
          then repl +++ replace_literal needle repl rest (String.length needle - 1)
          else String c (replace_literal needle repl rest 0)
      end
  end.

(** [s.replace(/[\\/]/g, '_')]. *)
Definition is_sep (c : ascii) : bool :=
  Ascii.eqb c "/"%char || Ascii.eqb c "\"%char.

Fixpoint sanitize (s : string) : string :=
  match s with
  | EmptyString => EmptyString
  | String c rest => String (if is_sep c then "_"%char else c) (sanitize rest)
  end.

(** [s.replace(/-/g, '')]. *)
Fixpoint drop_dashes (s : string) : string :=
  match s with
  | EmptyString => EmptyString
  | String c rest =>
      if Ascii.eqb c "-"%char then drop_dashes rest else String c (drop_dashes rest)
  end.

Fixpoint zeros (n : nat) : string :=
  match n with
  | O => EmptyString
  | S k => String "0"%char (zeros k)
  end.

(** [s.padStart(n, "0")]. *)
Definition padStart0 (s : string) (n : nat) : string :=
  zeros (n - String.length s) +++ s.

Definition show_nat (n : nat) : string := NilEmpty.string_of_uint (Nat.to_uint n).

Definition show_Z (n : Z) : string := NilZero.string_of_int (Z.to_int n).

Fixpoint join_with (sep : string) (pieces : list string) : string :=
  match pieces with
  | [] => EmptyString
  | [p] => p
  | p :: rest => p +++ sep +++ join_with sep rest
  end.


(** ** Errors and results *)

(** A thrown [Error]: its name, message and the two fields the handlers
    read, [code] and [statusCode] ([None] when the field is absent). *)
Record error : Type := mkError {
  err_name : string;
  err_message : string;
  err_code : option Z;
  err_statusCode : option Z
}.

Definition Error_ (msg : string) : error := mkError "Error" msg None None.
Definition TypeError (msg : string) : error := mkError "TypeError" msg None None.

Inductive result (A : Type) : Type :=
| Ok (a : A)
| Throw (e : error).
Arguments Ok {A} a.
Arguments Throw {A} e.

Definition rbind {A B : Type} (r : result A) (k : A -> result B) : result B :=
  match r with
  | Ok a => k a
  | Throw e => Throw e
  end.

Notation "'let?' x ':=' r 'in' k" := (rbind r (fun x => k))
  (at level 10, x name, r at level 100, k at level 200).

Fixpoint rmap {A B : Type} (f : A -> result B) (l : list A) : result (list B) :=
  match l with
  | [] => Ok []
  | a :: rest => let? b := f a in let? bs := rmap f rest in Ok (b :: bs)
  end.

(** [l.reduce(f, a)] with a callback that may throw. *)
Fixpoint rfold {A B : Type} (f : A -> B -> result A) (l : list B) (a : A) : result A :=
  match l with
  | [] => Ok a
  | b :: rest => let? a' := f a b in rfold f rest a'
  end.

Fixpoint rfilter {A : Type} (f : A -> result bool) (l : list A) : result (list A) :=
  match l with
  | [] => Ok []
  | a :: rest =>
      let? keep := f a in
      let? kept := rfilter f rest in
      Ok (if keep then a :: kept else kept)
  end.

(** ** JavaScript values *)

#[warnings="-register-all"]
Inductive value : Type :=
| VUndefined
| VNull
| VBool (b : bool)
| VNum (n : Z)
| VStr (s : string)
| VArr (items : list value)
| VObj (fields : list (string * value))
| VFun (name : string).

Definition is_nullish (v : value) : bool :=
  match v with
  | VUndefined | VNull => true
  | _ => false
  end.

(** [typeof v === 'object'], which holds for [null] too. *)
Definition typeof_object (v : value) : bool :=
  match v with
  | VNull | VArr _ | VObj _ => true
  | _ => false
  end.

Definition truthy (v : value) : bool :=
  match v with
  | VUndefined | VNull => false
  | VBool b => b
  | VNum n => negb (Z.eqb n 0)
  | VStr s => negb (String.eqb s EmptyString)
  | VArr _ | VObj _ | VFun _ => true
  end.

(** First binding of a key in an association list. *)
Fixpoint assoc {A : Type} (k : string) (l : list (string * A)) : option A :=
  match l with
  | [] => None
  | (k', a) :: rest => if String.eqb k' k then Some a else assoc k rest
  end.

(** [String(v)].  An array joins its items with commas, [null] and
    [undefined] items as the empty text.  A plain object answers
    [[object Object]] through the inherited [toString]; an own [toString]
    member of a parsed JSON object is never callable, and the conversion
    then throws (the inherited [valueOf] returns the object itself). *)
Fixpoint ToString (v : value) : result string :=
  match v with
  | VUndefined => Ok "undefined"
  | VNull => Ok "null"
  | VBool true => Ok "true"
  | VBool false => Ok "false"
  | VNum n => Ok (show_Z n)
  | VStr s => Ok s
  | VArr items =>
      let? pieces :=
        (fix each (l : list value) : result (list string) :=
           match l with
           | [] => Ok []
           | x :: rest =>
               let? s := (match x with
                          | VUndefined | VNull => Ok EmptyString
                          | _ => ToString x
                          end) in
               let? ss := each rest in
               Ok (s :: ss)
           end) items in
      Ok (join_with "," pieces)
  | VObj fields =>
      match assoc "toString" fields with
      | Some _ => Throw (TypeError "Cannot convert object to primitive value")
      | None => Ok "[object Object]"
      end
  | VFun name => Ok ("function " +++ name +++ "() { [native code] }")
  end.

(** [items.join(sep)]. *)
Definition array_join (sep : string) (items : list value) : result string :=
  let? pieces :=
    rmap (fun x => match x with
                   | VUndefined | VNull => Ok EmptyString
                   | _ => ToString x
                   end) items in
  Ok (join_with sep pieces).

(** The canonical spelling of an index below [n], if [k] is one. *)
Definition index_of_key (n : nat) (k : string) : option nat :=
  find (fun i => String.eqb (show_nat i) k) (seq 0 n).

(** Own members of a value: the fields of an object, the indices and
    [length] of an array or of a string. *)
Definition own_prop (v : value) (k : string) : option value :=
  match v with
  | VObj fields => assoc k fields
  | VArr items =>
      if String.eqb k "length" then Some (VNum (Z.of_nat (List.length items)))
      else match index_of_key (List.length items) k with
           | Some i => nth_error items i
           | None => None
           end
  | VStr s =>
      if String.eqb k "length" then Some (VNum (Z.of_nat (String.length s)))
      else match index_of_key (String.length s) k with
           | Some i => option_map (fun c => VStr (String c EmptyString)) (String.get i s)
           | None => None
           end
  | _ => None
  end.

(** The JavaScript runtime the program runs on: what a member lookup finds
    along the prototype chain of a value (the members of [Object.prototype],
    [Array.prototype] and the like, and the members of built-in functions),
    and [JSON.parse], which answers a value or a syntax error's message. *)
Class Runtime : Type := {
  inherited : value -> string -> option value;
  JSON_parse : string -> value + string
}.

Section MemberAccess.
Context {rt : Runtime}.

(** [k in v], for [v] an object or an array. *)
Definition has_prop (v : value) (k : string) : bool :=
  match own_prop v k with
  | Some _ => true
  | None => match inherited v k with Some _ => true | None => false end
  end.

(** [v[k]], for [v] neither [null] nor [undefined], where the read cannot
    throw: [v] is no function, or [k] is a name the program spells out
    (none of them is [caller] or [arguments]). *)
Definition get_prop (v : value) (k : string) : value :=
  match own_prop v k with
  | Some x => x
  | None => match inherited v k with Some x => x | None => VUndefined end
  end.

(** The two members [Function.prototype] answers with an accessor that
    throws when the function is a built-in one, as every function of the
    model is. *)
Definition is_restricted (k : string) : bool :=
  String.eqb k "caller" || String.eqb k "arguments".

(** The read [v[k]] throws. *)
Definition restricted_read (v : value) (k : string) : bool :=
  match v with
  | VFun _ => is_restricted k
  | _ => false
  end.

Definition restricted_error : error :=
  TypeError ("'caller', 'callee', and 'arguments' properties may not be " +++
             "accessed on strict mode functions or the arguments objects " +++
             "for calls to them").

(** [v[k]], for [v] neither [null] nor [undefined] and any key [k]. *)
Definition read_prop (v : value) (k : string) : result value :=
  if restricted_read v k then Throw restricted_error else Ok (get_prop v k).

(** [v?.[k]]. *)
Definition get_opt (v : value) (k : string) : value :=
  if is_nullish v then VUndefined else get_prop v k.

End MemberAccess.

(** ** Helpers shared by the two variants *)

Definition nl : string := String (ascii_of_nat 10) EmptyString.

(** [v === w]: primitives by content; two objects are never the same
    object here, every object of the model being built where it is used. *)
Definition strict_eq (v w : value) : bool :=
  match v, w with
  | VUndefined, VUndefined => true
  | VNull, VNull => true
  | VBool a, VBool b => Bool.eqb a b
  | VNum a, VNum b => Z.eqb a b
  | VStr a, VStr b => String.eqb a b
  | _, _ => false
  end.

(** [v === undefined || v === null || v === ''], the test both variants
    apply to a placeholder's value. *)
Definition is_missing (v : value) : bool :=
  match v with
  | VUndefined | VNull => true
  | VStr s => String.eqb s EmptyString
  | _ => false
  end.

(** [a || b]. *)
Definition or_else (a b : value) : value := if truthy a then a else b.

(** [path.split('.')] on any value: only a string has the method. *)
Definition split_path (path : value) : result (list string) :=
  match path with
  | VStr s => Ok (split_dot s)
  | VUndefined =>
      Throw (TypeError "Cannot read properties of undefined (reading 'split')")
  | VNull =>
      Throw (TypeError "Cannot read properties of null (reading 'split')")
  | _ => Throw (TypeError "path.split is not a function")
  end.

(** The method call [s.replace(...)] on any value: only a string has it. *)
Definition replace_receiver (v : value) : result string :=
  match v with
  | VStr s => Ok s
  | VUndefined =>
      Throw (TypeError "Cannot read properties of undefined (reading 'replace')")
  | VNull =>
      Throw (TypeError "Cannot read properties of null (reading 'replace')")
  | _ => Throw (TypeError "replace is not a function")
  end.

(** [s.replace(/{([^}]+)}/g, (_, token) => cb(token))].  A token opens at a
    brace and closes at the next closing brace, with at least one character
    in between; [pending] holds the characters read since the brace that may
    open one.  A brace with no closing brace after it stays as it is. *)
Fixpoint replace_tokens (cb : string -> result string) (s : string)
    (pending : option string) : result string :=
  match s with
  | EmptyString =>
      Ok (match pending with
          | None => EmptyString
          | Some token => String "{"%char token
          end)
  | String c rest =>
      match pending with
      | None =>
          if Ascii.eqb c "{"%char then replace_tokens cb rest (Some EmptyString)
          else let? out := replace_tokens cb rest None in Ok (String c out)
      | Some token =>
          if Ascii.eqb c "}"%char then
            match token with
            | EmptyString =>
                let? out := replace_tokens cb rest None in Ok ("{}" +++ out)
            | _ =>
                let? text := cb token in
                let? out := replace_tokens cb rest None in
                Ok (text +++ out)
            end
          else replace_tokens cb rest (Some (token +++ String c EmptyString))
      end
  end.

(** A broken-down calendar date as [new Date()] holds it; [d_month] is the
    calendar month, 1 to 12. *)
Record date : Type := mkDate {
  d_year : Z;
  d_month : nat;
  d_day : nat;
  d_hours : nat;
  d_minutes : nat;
  d_seconds : nat;
  d_millis : nat
}.

Definition iso_year (y : Z) : string :=
  if ((0 <=? y) && (y <=? 9999))%Z then padStart0 (show_Z y) 4
  else (if (y <? 0)%Z then "-" else "+") +++ padStart0 (show_Z (Z.abs y)) 6.

(** [date.toISOString()]. *)
Definition toISOString (d : date) : string :=
  iso_year (d_year d) +++ "-" +++ padStart0 (show_nat (d_month d)) 2 +++ "-" +++
  padStart0 (show_nat (d_day d)) 2 +++ "T" +++
  padStart0 (show_nat (d_hours d)) 2 +++ ":" +++
  padStart0 (show_nat (d_minutes d)) 2 +++ ":" +++
  padStart0 (show_nat (d_seconds d)) 2 +++ "." +++
  padStart0 (show_nat (d_millis d)) 3 +++ "Z".

(** Cells of a sheet as the Sheets API delivers them. *)
Inductive scalar : Type :=
| SStr (s : string)
| SNum (n : Z)
| SBool (b : bool).

Definition of_scalar (c : scalar) : value :=
  match c with
  | SStr s => VStr s
  | SNum n => VNum n
  | SBool b => VBool b
  end.

(** [String(cell)]. *)
Definition scalar_text (c : scalar) : string :=
  match c with
  | SStr s => s
  | SNum n => show_Z n
  | SBool true => "true"
  | SBool false => "false"
  end.

(** A data property defined on an object: the value replaces an older one
    in place, a new key goes last. *)
Fixpoint define_field (fields : list (string * value)) (k : string) (v : value)
    : list (string * value) :=
  match fields with
  | [] => [(k, v)]
  | (k', v') :: rest =>
      if String.eqb k' k then (k, v) :: rest else (k', v') :: define_field rest k v
  end.

(** [obj[k] = v] on a plain object for a primitive [v]: the inherited
    setter of [__proto__] ignores a primitive, any other key is defined. *)
Definition assign_field (fields : list (string * value)) (k : string) (v : value)
    : list (string * value) :=
  if String.eqb k "__proto__" then fields else define_field fields k v.

(** [Object.fromEntries(entries)]: every entry is defined, a later entry
    replaces an earlier one with the same key.  (The entries are kept in
    the order they were defined; the order in which JavaScript lists the
    keys of an object is never looked at, the objects built here being
    read by key only.) *)
Definition fromEntries (entries : list (string * value)) : value :=
  VObj (fold_left (fun fields e => define_field fields (fst e) (snd e)) entries []).

Fixpoint enumerate_from {A : Type} (i : nat) (l : list A) : list (nat * A) :=
  match l with
  | [] => []
  | a :: rest => (i, a) :: enumerate_from (S i) rest
  end.

(** ** Calls to the outside, their trace, and the world that answers them *)

Inductive call : Type :=
| CNow
| CToday
| CAuthorize
| CSheetsGet (range : string)
| CDriveCopy (fileId : value) (name : string) (parents : value)
| CDriveGet (fileId : string)
| CBatchUpdate (documentId : string) (requests : list (string * string))
| CDriveExport (fileId : string)
| CDriveCreate (name : string) (parents : value)
| CDriveDelete (fileId : string)
| CSellPost (resource_type resource_id : value) (content : string)
| CSleep (ms : Z).

(** How a call ended: it returned, it threw, or (an HTTP request made with
    [fetch]) it was answered with a status and a body. *)
Inductive outcome : Type :=
| Done
| Failed (e : error)
| Replied (status : Z) (text : string).

Record event : Type := mkEvent { ev_call : call; ev_outcome : outcome }.

Definition trace : Type := list event.

(** What [drive.files.create] answers under [fields: 'id,name,webViewLink']. *)
Record file_meta : Type := mkFile { f_id : value; f_name : value; f_link : value }.

(** The process environment and the services behind the SDK calls.  Every
    answer may depend on all that happened before.  [first_settles] says,
    of two requests in flight together, whether the one issued first is
    the first to settle. *)
Class World : Type := {
  process_env : string -> option string;
  Date_now : trace -> Z;
  new_Date : trace -> date;
  auth_authorize : trace -> result unit;
  sheets_values_get : trace -> string -> result (option (list (list scalar)));
  drive_files_copy : trace -> value -> string -> value -> result string;
  drive_files_get : trace -> string -> result unit;
  docs_batchUpdate : trace -> string -> list (string * string) -> result unit;
  drive_files_export : trace -> string -> result string;
  drive_files_create : trace -> string -> value -> string -> result file_meta;
  drive_files_delete : trace -> string -> result unit;
  fetch_notes : trace -> value -> value -> string -> result (Z * string);
  first_settles : trace -> bool
}.

(** ** The monad of a request: a trace, the process-wide config cache, the
    handler's own mutable variable, and exceptions *)

Record state (C L : Type) : Type := mkState {
  st_trace : trace;
  st_cache : C;
  st_local : L
}.
Arguments mkState {C L} _ _ _.
Arguments st_trace {C L} _.
Arguments st_cache {C L} _.
Arguments st_local {C L} _.

Definition M (C L A : Type) : Type := state C L -> state C L * result A.

Section Monad.
Context {C L : Type}.

Definition ret {A : Type} (a : A) : M C L A := fun s => (s, Ok a).

Definition throw {A : Type} (e : error) : M C L A := fun s => (s, Throw e).

Definition bind {A B : Type} (m : M C L A) (k : A -> M C L B) : M C L B :=
  fun s =>
    match m s with
    | (s', Ok a) => k a s'
    | (s', Throw e) => (s', Throw e)
    end.

(** A pure computation that may throw. *)
Definition lift {A : Type} (r : result A) : M C L A := fun s => (s, r).

(** [try { m } catch (e) { handler(e) }]. *)
Definition try_catch {A : Type} (m : M C L A) (handler : error -> M C L A) : M C L A :=
  fun s =>
    match m s with
    | (s', Ok a) => (s', Ok a)
    | (s', Throw e) => handler e s'
    end.

Definition get_cache : M C L C := fun s => (s, Ok (st_cache s)).

Definition set_cache (c : C) : M C L unit :=
  fun s => (mkState (st_trace s) c (st_local s), Ok tt).

Definition get_local : M C L L := fun s => (s, Ok (st_local s)).

Definition set_local (l : L) : M C L unit :=
  fun s => (mkState (st_trace s) (st_cache s) l, Ok tt).

Definition log (c : call) (o : outcome) (s : state C L) : state C L :=
  mkState (st_trace s ++ [mkEvent c o]) (st_cache s) (st_local s).

(** A call that returns or throws. *)
Definition perform {A : Type} (c : call) (answer : trace -> result A) : M C L A :=
  fun s =>
    match answer (st_trace s) with
    | Ok a => (log c Done s, Ok a)
    | Throw e => (log c (Failed e) s, Throw e)
    end.

(** A call that always returns. *)
Definition observe {A : Type} (c : call) (answer : trace -> A) : M C L A :=
  fun s => (log c Done s, Ok (answer (st_trace s))).

(** [fetch]: it throws, or it delivers the response's status and body. *)
Definition request (c : call) (answer : trace -> result (Z * string)) : M C L (Z * string) :=
  fun s =>
    match answer (st_trace s) with
    | Ok (status, text) => (log c (Replied status text) s, Ok (status, text))
    | Throw e => (log c (Failed e) s, Throw e)
    end.

End Monad.

Notation "'let*' x ':=' m 'in' k" := (bind m (fun x => k))
  (at level 10, x name, m at level 100, k at level 200).
Notation "m ';;' k" := (bind m (fun _ => k))
  (at level 100, k at level 200, right associativity).

(** An HTTP response: its status and the JSON body sent. *)
Record response : Type := mkResponse { status : Z; json : value }.

Definition error_body (msg : string) : value := VObj [("error", VStr msg)].

(** What a call of the trace asks Drive to do. *)
Definition is_export (e : event) : bool :=
  match ev_call e with CDriveExport _ => true | _ => false end.

Definition is_upload (e : event) : bool :=
  match ev_call e with CDriveCreate _ _ => true | _ => false end.

Definition is_delete_of (id : string) (e : event) : bool :=
  match ev_call e with CDriveDelete id' => String.eqb id' id | _ => false end.

Definition is_sheet_read (e : event) : bool :=
  match ev_call e with CSheetsGet _ => true | _ => false end.

Definition is_file_check (e : event) : bool :=
  match ev_call e with CDriveGet _ => true | _ => false end.

Definition sleep_of (e : event) : option Z :=
  match ev_call e with CSleep ms => Some ms | _ => None end.

Definition failure_of (e : event) : option error :=
  match ev_outcome e with Failed err => Some err | _ => None end.

(** [!process.env[name]] is false: the variable is set and not empty. *)
Definition env_set {w : World} (name : string) : bool :=
  match process_env name with
  | Some s => negb (String.eqb s EmptyString)
  | None => false
  end.

Definition env_text {w : World} (name : string) : string :=
  match process_env name with
  | Some s => s
  | None => "undefined"
  end.

(** [v.k] where [v] may be [null] or [undefined]: the access throws. *)
Definition member {rt : Runtime} (v : value) (k : string) : result value :=
  match v with
  | VUndefined =>
      Throw (TypeError ("Cannot read properties of undefined (reading '" +++ k +++ "')"))
  | VNull =>
      Throw (TypeError ("Cannot read properties of null (reading '" +++ k +++ "')"))
  | _ => Ok (get_prop v k)
  end.

(** A destructuring default, [{ k = d } = obj]. *)
Definition default_to (v d : value) : value :=
  match v with
  | VUndefined => d
  | _ => v
  end.

(** [l.find(f)]. *)
Definition find_value (f : value -> bool) (l : list value) : value :=
  match find f l with
  | Some v => v
  | None => VUndefined
  end.

(** [Promise.all([m1, m2])]: both calls are issued and the trace records
    them as they settle, in the order the world decides; when both reject,
    the rejection that came first is the one reported. *)
Definition both {w : World} {C L A B : Type} (m1 : M C L A) (m2 : M C L B)
    : M C L (A * B) :=
  fun s =>
    if first_settles (st_trace s) then
      let (s1, r1) := m1 s in
      let (s2, r2) := m2 s1 in
      (s2, match r1, r2 with
           | Ok a, Ok b => Ok (a, b)
           | Throw e, _ => Throw e
           | Ok _, Throw e => Throw e
           end)
    else
      let (s2, r2) := m2 s in
      let (s1, r1) := m1 s2 in
      (s1, match r2, r1 with
           | Ok b, Ok a => Ok (a, b)
           | Throw e, _ => Throw e
           | Ok _, Throw e => Throw e
           end).

(** * [src/server.js] *)

Module ServerJs.

Definition CONFIG_TTL_MS : Z := 60 * 1000.

(** The loaded configuration: the active templates and packages. *)
Record Config : Type := mkConfig {
  templates : list value;
  exam_packages : list value
}.

Record configCache : Type := mkCache {
  expiresAt : Z;
  data : option Config
}.

Definition empty_cache : configCache := mkCache 0 None.

Section Program.
Context {rt : Runtime} {w : World}.

Definition parseBoolean (v : value) : result bool :=
  match v with
  | VBool b => Ok b
  | VUndefined | VNull => Ok false
  | _ =>
      let? s := ToString v in
      Ok (existsb (String.eqb (toLowerCase (trim s))) ["true"; "1"; "yes"])
  end.

Definition parseJsonArray (raw : value) (fieldName : string) : result (list value) :=
  if negb (truthy raw) then Ok []
  else
    let attempt :=
      let? text := ToString raw in
      match JSON_parse text with
      | inl (VArr items) => Ok items
      | inl _ => Throw (Error_ (fieldName +++ " must be a JSON array"))
      | inr msg => Throw (mkError "SyntaxError" msg None None)
      end in
    match attempt with
    | Ok items => Ok items
    | Throw e => Throw (Error_ ("Invalid JSON in " +++ fieldName +++ ": " +++ err_message e))
    end.

Definition row_object (header row : list scalar) : value :=
  VObj (fold_left
          (fun obj ic =>
             assign_field obj (scalar_text (snd ic))
               (match nth_error row (fst ic) with
                | Some c => of_scalar c
                | None => VStr EmptyString
                end))
          (enumerate_from 0 header) []).

Definition mapRowsToObjects (rows : list (list scalar)) : list value :=
  map (row_object (hd [] rows)) (tl rows).

Definition readSheet {L : Type} (tabName : string) : M configCache L (list (list scalar)) :=
  let range := tabName +++ "!A:Z" in
  let* values := perform (CSheetsGet range) (fun t => sheets_values_get t range) in
  ret (match values with Some rows => rows | None => [] end).

Definition template_of_row (row : value) : result value :=
  let? key := ToString (get_prop row "template_key") in
  let? required :=
    parseJsonArray (get_prop row "required_placeholders")
      ("templates." +++ key +++ ".required_placeholders") in
  let? keep := parseBoolean (get_prop row "keep_intermediate_doc") in
  Ok (VObj [("template_key", get_prop row "template_key");
            ("display_name", get_prop row "display_name");
            ("engine", get_prop row "engine");
            ("doc_template_id", get_prop row "doc_template_id");
            ("output_filename_pattern", get_prop row "output_filename_pattern");
            ("required_placeholders", VArr required);
            ("default_package_key", get_prop row "default_package_key");
            ("keep_intermediate_doc", VBool keep);
            ("version", get_prop row "version");
            ("is_active", VBool true);
            ("notes", get_prop row "notes")]).

Definition normalizeTemplates (rows : list (list scalar)) : result (list value) :=
  let? active :=
    rfilter (fun row => parseBoolean (get_prop row "is_active")) (mapRowsToObjects rows) in
  rmap template_of_row active.

Definition package_of_row (row : value) : result value :=
  let? key := ToString (get_prop row "package_key") in
  let? exams :=
    parseJsonArray (get_prop row "exams") ("exam_packages." +++ key +++ ".exams") in
  Ok (VObj [("package_key", get_prop row "package_key");
            ("display_name", get_prop row "display_name");
            ("exams", VArr exams);
            ("default_template_key", get_prop row "default_template_key");
            ("version", get_prop row "version");
            ("is_active", VBool true);
            ("notes", get_prop row "notes")]).

Definition normalizeExamPackages (rows : list (list scalar)) : result (list value) :=
  let? active :=
    rfilter (fun row => parseBoolean (get_prop row "is_active")) (mapRowsToObjects rows) in
  rmap package_of_row active.

(** The cache is fresh: [configCache.data && Date.now() < configCache.expiresAt]
    (the clock is read only when there is cached data). *)
Definition cached {L : Type} : M configCache L (option Config) :=
  let* cache := get_cache in
  match data cache with
  | None => ret None
  | Some config =>
      let* now := observe CNow Date_now in
      ret (if (now <? expiresAt cache)%Z then Some config else None)
  end.

(** The rest of [loadConfig], after the test of the cache. *)
Definition refresh {L : Type} : M configCache L Config :=
  let* sheets := both (readSheet "templates") (readSheet "exam_packages") in
  let* ts := lift (normalizeTemplates (fst sheets)) in
  let* ps := lift (normalizeExamPackages (snd sheets)) in
  let config := mkConfig ts ps in
  let* now := observe CNow Date_now in
  set_cache (mkCache (now + CONFIG_TTL_MS) (Some config)) ;;
  ret config.

Definition loadConfig {L : Type} : M configCache L Config :=
  let* hit := cached in
  match hit with
  | Some config => ret config
  | None => refresh
  end.

Fixpoint walk (segments : list string) (current : value) : value :=
  match segments with
  | [] => current
  | segment :: rest =>
      if is_nullish current || negb (typeof_object current) || negb (has_prop current segment)
      then VUndefined
      else walk rest (get_prop current segment)
  end.

Definition getValueByPath (obj path : value) : result value :=
  let? segments := split_path path in
  Ok (walk segments obj).

(** The middleware chain: [next] is the handler behind the gate. *)
Definition requireApiKey {C L : Type} (x_api_key : option string)
    (next : M C L response) : M C L response :=
  if negb (env_set "RENDER_API_KEY") then next
  else if match x_api_key with
          | Some k => negb (String.eqb k (env_text "RENDER_API_KEY"))
          | None => true
          end
       then ret (mkResponse 401 (error_body "Unauthorized"))
       else next.

Definition resolveTemplate (config : Config) (payload : value) : value :=
  if truthy (get_prop payload "template_key") then
    find_value
      (fun t => strict_eq (get_prop t "template_key") (get_prop payload "template_key"))
      (templates config)
  else if negb (truthy (get_prop payload "package_key")) then VNull
  else
    let examPackage :=
      find_value
        (fun p => strict_eq (get_prop p "package_key") (get_prop payload "package_key"))
        (exam_packages config) in
    if negb (truthy examPackage) then VNull
    else
      find_value
        (fun t => strict_eq (get_prop t "template_key")
                    (get_prop examPackage "default_template_key"))
        (templates config).

Definition dateToken (today : date) : string :=
  drop_dashes (substring 0 10 (toISOString today)).

Definition buildPdfFileName (today : date) (pattern payload : value) : result string :=
  let? pat := replace_receiver (or_else pattern (VStr "documento_{YYYYMMDD}")) in
  let? expanded :=
    replace_tokens
      (fun tokenPath =>
         let? value := getValueByPath payload (VStr tokenPath) in
         if is_nullish value then Ok EmptyString else ToString value)
      (replace_literal "{YYYYMMDD}" (dateToken today) pat 0) None in
  let base := trim (sanitize expanded) in
  let finalName :=
    if String.eqb base EmptyString then "documento_" +++ dateToken today else base in
  Ok (if endsWith (toLowerCase finalName) ".pdf" then finalName else finalName +++ ".pdf").

(** [response.ok]. *)
Definition http_ok (status : Z) : bool := ((200 <=? status) && (status <=? 299))%Z.

Definition createSellNote {C L : Type} (payload template pdf : value) : M C L value :=
  let sell := default_to (get_prop payload "sell") (VObj []) in
  let actor := default_to (get_prop payload "actor") (VObj []) in
  let* resource_type := lift (member sell "resource_type") in
  if negb (truthy resource_type) then ret VNull else
  let* resource_id := lift (member sell "resource_id") in
  if negb (truthy resource_id) then ret VNull else
  if negb (env_set "SELL_PAT") || negb (env_set "SELL_BASE_URL")
  then throw (Error_ "SELL_PAT and SELL_BASE_URL are required to create Sell notes")
  else
    let* shown :=
      lift (ToString (or_else (get_prop template "display_name")
                              (get_prop template "template_key"))) in
    let* name := lift (ToString (get_prop pdf "name")) in
    let* link := lift (ToString (get_prop pdf "web_view_url")) in
    let* package_line :=
      (if truthy (get_prop payload "package_key")
       then let* k := lift (ToString (get_prop payload "package_key")) in
            ret ["Package: " +++ k]
       else ret []) in
    let* email := lift (member actor "email") in
    let* actor_line :=
      (if truthy email
       then let* e := lift (ToString email) in ret ["Actor: " +++ e]
       else ret []) in
    let content :=
      join_with nl (["Template: " +++ shown; "PDF: " +++ name; "Link: " +++ link]
                    ++ package_line ++ actor_line) in
    let* reply :=
      request (CSellPost resource_type resource_id content)
        (fun t => fetch_notes t resource_type resource_id content) in
    if negb (http_ok (fst reply))
    then throw (Error_ ("Sell note creation failed: " +++ show_Z (fst reply) +++ " " +++ snd reply))
    else
      match JSON_parse (snd reply) with
      | inl note => ret note
      | inr msg => throw (mkError "SyntaxError" msg None None)
      end.

(** [GET /v1/config], behind the gate. *)
Definition config_json (config : Config) : value :=
  VObj [("templates", VArr (templates config));
        ("exam_packages", VArr (exam_packages config))].

Definition get_config {L : Type} : M configCache L response :=
  try_catch
    (let* config := loadConfig in
     ret (mkResponse 200 (config_json config)))
    (fun error => ret (mkResponse 500 (error_body (err_message error)))).

(** [template.required_placeholders] as the list it was built as. *)
Definition placeholders_of (template : value) : result (list value) :=
  match get_prop template "required_placeholders" with
  | VArr items => Ok items
  | _ => Throw (TypeError "template.required_placeholders.filter is not a function")
  end.

Definition parents_of (folderId : value) : value :=
  if truthy folderId then VArr [folderId] else VUndefined.

(** One [replaceAllText] request: the token searched for and its text. *)
Definition replace_request (payload path : value) : result (string * string) :=
  let? shown := ToString path in
  let? value := getValueByPath payload path in
  let? text := ToString value in
  Ok ("{{" +++ shown +++ "}}", text).

(** The handler of [POST /v1/render] is split in three along its [try]
    block; the handler's variable [copiedDocId] is the monad's local.
    [produce] is what follows the check of the placeholders: copy,
    substitute, export, upload, clean up and note. *)
Definition produce (payload template : value) (required : list value)
    : M configCache value response :=
  let folderId :=
    or_else (get_opt (get_opt payload "deal") "folder_id") (get_prop payload "folder_id") in
  let* now := observe CNow Date_now in
  let* key := lift (ToString (get_prop template "template_key")) in
  let name := "tmp_" +++ show_Z now +++ "_" +++ key in
  let source := get_prop template "doc_template_id" in
  let* id :=
    perform (CDriveCopy source name (parents_of folderId))
      (fun t => drive_files_copy t source name (parents_of folderId)) in
  set_local (VStr id) ;;
  let* requests := lift (rmap (replace_request payload) required) in
  perform (CBatchUpdate id requests) (fun t => docs_batchUpdate t id requests) ;;
  let* exportedPdf := perform (CDriveExport id) (fun t => drive_files_export t id) in
  let* today := observe CToday new_Date in
  let* pdfName :=
    lift (buildPdfFileName today (get_prop template "output_filename_pattern") payload) in
  let* createdPdf :=
    perform (CDriveCreate pdfName (parents_of folderId))
      (fun t => drive_files_create t pdfName (parents_of folderId) exportedPdf) in
  (if negb (truthy (get_prop template "keep_intermediate_doc")) && truthy (VStr id)
   then perform (CDriveDelete id) (fun t => drive_files_delete t id) ;;
        set_local VNull
   else ret tt) ;;
  let pdf := VObj [("file_id", f_id createdPdf);
                   ("name", f_name createdPdf);
                   ("web_view_url", f_link createdPdf)] in
  let* note := createSellNote payload template pdf in
  if truthy note
  then ret (mkResponse 200 (VObj [("pdf", pdf); ("note", note)]))
  else ret (mkResponse 200 (VObj [("pdf", pdf)])).

(** The paths of [required] whose value is missing in the payload. *)
Definition missing_of (payload : value) (required : list value) : result (list value) :=
  rfilter (fun path =>
             let? value := getValueByPath payload path in
             Ok (is_missing value))
          required.

(** From the loaded configuration to the check of the placeholders. *)
Definition with_config (payload : value) (config : Config) : M configCache value response :=
  let template := resolveTemplate config payload in
  if negb (truthy template)
  then ret (mkResponse 400 (error_body "Unable to resolve template from template_key/package_key"))
  else
    let* required := lift (placeholders_of template) in
    let* missing := lift (missing_of payload required) in
    if (0 <? List.length missing)%nat
    then ret (mkResponse 400 (VObj [("error", VStr "Missing required placeholders");
                                    ("missing", VArr missing)]))
    else produce payload template required.

Definition render_try (body : value) : M configCache value response :=
  let payload := or_else body (VObj []) in
  let* config := loadConfig in
  with_config payload config.

(** The [catch] of the handler: a best-effort delete of the copy still
    recorded in [copiedDocId], then the 500. *)
Definition render_catch (error : error) : M configCache value response :=
  let* copiedDocId := get_local in
  (match copiedDocId with
   | VStr id =>
       if truthy copiedDocId
       then try_catch (perform (CDriveDelete id) (fun t => drive_files_delete t id))
                      (fun _ => ret tt)
       else ret tt
   | _ => ret tt
   end) ;;
  ret (mkResponse 500 (error_body (err_message error))).

Definition render (body : value) : M configCache value response :=
  set_local VUndefined ;;
  try_catch (render_try body) render_catch.

(** The two guarded routes as Express runs them. *)
Definition route_config (x_api_key : option string) : M configCache value response :=
  requireApiKey x_api_key get_config.

Definition route_render (x_api_key : option string) (body : value)
    : M configCache value response :=
  requireApiKey x_api_key (render body).

End Program.
End ServerJs.

(** * [src/unnamed/part_000] *)

Module Part000.

(** The loaded configuration, with its two lookup objects. *)
Record Config : Type := mkConfig {
  templates : list value;
  exam_packages : list value;
  byTemplateKey : value;
  byPackageKey : value
}.

Record CONFIG_CACHE : Type := mkCache {
  ts : Z;
  ttlMs : Z;
  data : option Config
}.

Definition empty_cache : CONFIG_CACHE := mkCache 0 60000 None.

(** The delays of [waitForFile], in milliseconds. *)
Definition delays : list Z := [200; 350; 550; 800; 1200; 1600]%Z.

Definition is_id_char (c : ascii) : bool :=
  let n := nat_of_ascii c in
  ((97 <=? n) && (n <=? 122) || (65 <=? n) && (n <=? 90) || (48 <=? n) && (n <=? 57)
   || (n =? 95) || (n =? 45))%nat.

(** The longest run of id characters [s] starts with. *)
Fixpoint id_run (s : string) : string :=
  match s with
  | EmptyString => EmptyString
  | String c rest => if is_id_char c then String c (id_run rest) else EmptyString
  end.

(** [s] without its first [n] characters. *)
Fixpoint drop (n : nat) (s : string) : string :=
  match n, s with
  | O, _ => s
  | S k, String _ rest => drop k rest
  | S _, EmptyString => EmptyString
  end.

(** The group of the leftmost match of [marker([a-zA-Z0-9_-]+)], for one of
    the markers. *)
Fixpoint id_after (markers : list string) (s : string) : option string :=
  let here :=
    find (fun m => String.prefix m s &&
                   negb (String.eqb (id_run (drop (String.length m) s)) EmptyString))
         markers in
  match here with
  | Some m => Some (id_run (drop (String.length m) s))
  | None =>
      match s with
      | EmptyString => None
      | String _ rest => id_after markers rest
      end
  end.

(** The word [si] with an acute accent on its [i], U+00ED. *)
Definition si_acute : string := String "s"%char (String (ascii_of_nat 237) EmptyString).

(** The sign U+1F4C4 that opens the text of a note.  It lies outside the
    code units of the strings here and is spelled by the four bytes of its
    UTF-8 form; no step of the program looks inside the text of a note. *)
Definition page_sign : string :=
  String (ascii_of_nat 240) (String (ascii_of_nat 159)
    (String (ascii_of_nat 147) (String (ascii_of_nat 132) EmptyString))).

Section Program.
Context {rt : Runtime} {w : World}.

Definition toBool (v : value) : result bool :=
  match v with
  | VBool b => Ok b
  | VUndefined | VNull => Ok false
  | _ =>
      let? s := ToString v in
      Ok (existsb (String.eqb (toLowerCase (trim s))) ["true"; "1"; "yes"; "y"; "si"; si_acute])
  end.

Definition safeJsonParse (str fallback : value) : value :=
  match str with
  | VStr s =>
      match JSON_parse s with
      | inl v => v
      | inr _ => fallback
      end
  | _ => fallback
  end.

(** One step of the [reduce] of [getByPath]:
    [acc && acc[key] !== undefined ? acc[key] : undefined]. *)
Definition step (acc : value) (key : string) : result value :=
  if truthy acc then
    let? found := read_prop acc key in
    if negb (strict_eq found VUndefined) then read_prop acc key else Ok VUndefined
  else Ok VUndefined.

Definition getByPath (obj path : value) : result value :=
  if negb (truthy path) then Ok VUndefined
  else
    let? keys := split_path path in
    rfold step keys obj.

Definition fmtYYYYMMDD (today : date) : string :=
  show_Z (d_year today) +++ padStart0 (show_nat (d_month today)) 2 +++
  padStart0 (show_nat (d_day today)) 2.

Definition buildFilename (today : date) (pattern payload : value) : result string :=
  let ymd := fmtYYYYMMDD today in
  let? pat := ToString (or_else pattern (VStr "output_{YYYYMMDD}_{object.run}")) in
  let? expanded :=
    replace_tokens
      (fun token =>
         let t := trim token in
         if String.eqb t "YYYYMMDD" then Ok ymd
         else
           let? val := getByPath payload (VStr t) in
           if is_missing val then Ok "NA" else ToString val)
      pat None in
  let base := sanitize expanded in
  Ok (if endsWith (toLowerCase base) ".pdf" then base else base +++ ".pdf").

Definition normalizeDriveId (input : value) : result string :=
  if negb (truthy input) then Ok EmptyString
  else
    let? text := ToString input in
    let s := trim text in
    match id_after ["/folders/"] s with
    | Some id => Ok id
    | None =>
        match id_after ["/d/"] s with
        | Some id => Ok id
        | None =>
            match id_after ["?id="; "&id="] s with
            | Some id => Ok id
            | None => Ok s
            end
        end
    end.

Definition authGuard {C L : Type} (x_api_key : option string)
    (next : M C L response) : M C L response :=
  if negb (env_set "RENDER_API_KEY") then next
  else if match x_api_key with
          | Some k => negb (String.eqb k (env_text "RENDER_API_KEY"))
          | None => true
          end
       then ret (mkResponse 401 (error_body "unauthorized"))
       else next.

(** [makeGoogleClients]: the credentials must be set, then the JWT client
    authorizes. *)
Definition makeGoogleClients {C L : Type} : M C L unit :=
  if negb (env_set "GOOGLE_CLIENT_EMAIL") || negb (env_set "GOOGLE_PRIVATE_KEY")
  then throw (Error_ "Missing GOOGLE_CLIENT_EMAIL or GOOGLE_PRIVATE_KEY")
  else perform CAuthorize auth_authorize.

Definition scalar_truthy (c : scalar) : bool := truthy (of_scalar c).

(** [String(cell || "").trim()]. *)
Definition cell_text (c : scalar) : string :=
  trim (if scalar_truthy c then scalar_text c else EmptyString).

Definition row_object (headers : list string) (r : list scalar) : value :=
  VObj (fold_left
          (fun obj ih =>
             assign_field obj (snd ih)
               (match nth_error r (fst ih) with
                | Some c => of_scalar c
                | None => VUndefined
                end))
          (enumerate_from 0 headers) []).

Definition rowsToObjects (values : option (list (list scalar))) : list value :=
  let rows := match values with Some rows => rows | None => [] end in
  if (List.length rows <? 2)%nat then []
  else
    let headers := map cell_text (hd [] rows) in
    map (row_object headers)
        (filter (fun r => existsb (fun cell => negb (String.eqb (cell_text cell) EmptyString)) r)
                (tl rows)).

Definition template_of_row (t : value) : result value :=
  let? keep := toBool (get_prop t "keep_intermediate_doc") in
  let? active := toBool (get_prop t "is_active") in
  Ok (VObj [("template_key", get_prop t "template_key");
            ("display_name", get_prop t "display_name");
            ("engine", get_prop t "engine");
            ("doc_template_id", get_prop t "doc_template_id");
            ("output_filename_pattern", get_prop t "output_filename_pattern");
            ("required_placeholders",
             safeJsonParse (get_prop t "required_placeholders") (VArr []));
            ("default_package_key", get_prop t "default_package_key");
            ("keep_intermediate_doc", VBool keep);
            ("version", get_prop t "version");
            ("is_active", VBool active);
            ("notes", get_prop t "notes")]).

Definition package_of_row (p : value) : result value :=
  let? active := toBool (get_prop p "is_active") in
  Ok (VObj [("package_key", get_prop p "package_key");
            ("display_name", get_prop p "display_name");
            ("exams", safeJsonParse (get_prop p "exams") (VArr []));
            ("default_template_key", get_prop p "default_template_key");
            ("version", get_prop p "version");
            ("is_active", VBool active);
            ("notes", get_prop p "notes")]).

(** [records.filter((t) => t.is_active)]. *)
Definition active_only (records : list value) : list value :=
  filter (fun t => truthy (get_prop t "is_active")) records.

(** [Object.fromEntries(records.map((t) => [t[key], t]))]. *)
Definition index_by (key : string) (records : list value) : result value :=
  let? entries :=
    rmap (fun t => let? k := ToString (get_prop t key) in Ok (k, t)) records in
  Ok (fromEntries entries).

Definition build_config (templatesValues packagesValues : option (list (list scalar)))
    : result Config :=
  let templatesRaw := rowsToObjects templatesValues in
  let packagesRaw := rowsToObjects packagesValues in
  let? mappedTemplates := rmap template_of_row templatesRaw in
  let templates := active_only mappedTemplates in
  let? mappedPackages := rmap package_of_row packagesRaw in
  let exam_packages := active_only mappedPackages in
  let? byT := index_by "template_key" templates in
  let? byP := index_by "package_key" exam_packages in
  Ok (mkConfig templates exam_packages byT byP).

(** [CONFIG_CACHE.data && now - CONFIG_CACHE.ts < CONFIG_CACHE.ttlMs]. *)
Definition cached (now : Z) (cache : CONFIG_CACHE) : option Config :=
  match data cache with
  | Some config => if (now - ts cache <? ttlMs cache)%Z then Some config else None
  | None => None
  end.

(** The rest of [loadConfig], after the test of the cache. *)
Definition refresh {L : Type} (now : Z) : M CONFIG_CACHE L Config :=
  if negb (env_set "SHEETS_SPREADSHEET_ID")
  then throw (Error_ "Missing env: SHEETS_SPREADSHEET_ID")
  else
    let* resps :=
      both (perform (CSheetsGet "templates!A:K")
                    (fun t => sheets_values_get t "templates!A:K"))
           (perform (CSheetsGet "exam_packages!A:G")
                    (fun t => sheets_values_get t "exam_packages!A:G")) in
    let* config := lift (build_config (fst resps) (snd resps)) in
    let* cache := get_cache in
    set_cache (mkCache now (ttlMs cache) (Some config)) ;;
    ret config.

Definition loadConfig {L : Type} : M CONFIG_CACHE L Config :=
  let* now := observe CNow Date_now in
  let* cache := get_cache in
  match cached now cache with
  | Some config => ret config
  | None => refresh now
  end.

(** [String(e?.message || e)] for a thrown [Error]. *)
Definition error_text (e : error) : string :=
  if String.eqb (err_message e) EmptyString then err_name e else err_message e.

Definition notFound (e : error) : bool :=
  includes (toLowerCase (error_text e)) "file not found" ||
  match err_code e with
  | Some code => (code =? 404)%Z
  | None => false
  end.

(** One round of the loop of [waitForFile]: [Some true] when the check
    succeeded, [None] after a not-found error and its sleep; any other
    error is thrown again. *)
Definition check_once {C L : Type} (fileId : string) (delay : Z) : M C L (option bool) :=
  try_catch
    (perform (CDriveGet fileId) (fun t => drive_files_get t fileId) ;;
     ret (Some true))
    (fun e =>
       if negb (notFound e) then throw e
       else observe (CSleep delay) (fun _ => tt) ;; ret None).

Fixpoint waitForFile_loop {C L : Type} (fileId : string) (ds : list Z) : M C L bool :=
  match ds with
  | [] => throw (Error_ ("File not found (after retries): " +++ fileId))
  | delay :: rest =>
      let* checked := check_once fileId delay in
      match checked with
      | Some found => ret found
      | None => waitForFile_loop fileId rest
      end
  end.

Definition waitForFile {C L : Type} (fileId : string) : M C L bool :=
  waitForFile_loop fileId delays.

Definition http_ok (status : Z) : bool := ((200 <=? status) && (status <=? 299))%Z.

Definition sellCreateNote {C L : Type} (resource_type resource_id : value) (content : string)
    : M C L value :=
  if negb (env_set "SELL_PAT") then throw (Error_ "Missing env: SELL_PAT")
  else
    let* reply :=
      request (CSellPost resource_type resource_id content)
        (fun t => fetch_notes t resource_type resource_id content) in
    if negb (http_ok (fst reply))
    then throw (Error_ ("Sell note error " +++ show_Z (fst reply) +++ ": " +++ snd reply))
    else if String.eqb (snd reply) EmptyString then ret (VObj [])
    else
      match JSON_parse (snd reply) with
      | inl note => ret note
      | inr msg => throw (mkError "SyntaxError" msg None None)
      end.

(** [Array.isArray(r) ? r : []]. *)
Definition required_of (template : value) : list value :=
  match get_prop template "required_placeholders" with
  | VArr items => items
  | _ => []
  end.

(** The callback of [required.map]: the request built for a path, and
    whether the path was pushed on [missing]. *)
Definition request_of (payload path : value) : result (bool * (string * string)) :=
  let? value := getByPath payload path in
  let? shown := ToString path in
  let? text := (if is_nullish value then Ok EmptyString else ToString value) in
  Ok (is_missing value, ("{{" +++ shown +++ "}}", text)).

(** The paths pushed on [missing], in order. *)
Fixpoint missing_paths (required : list value) (flags : list bool) : list value :=
  match required, flags with
  | path :: paths, flag :: rest =>
      if flag then path :: missing_paths paths rest else missing_paths paths rest
  | _, _ => []
  end.

(** [try { await drive.files.delete(...) } catch {}]. *)
Definition delete_quietly {C L : Type} (docId : string) : M C L unit :=
  try_catch (perform (CDriveDelete docId) (fun t => drive_files_delete t docId))
            (fun _ => ret tt).

Definition parents_of (folderId : value) : value :=
  if truthy folderId then VArr [folderId] else VUndefined.

(** [renderGoogleDocToPdf] is split in three: [finish] is what follows
    the check of the placeholders, [fill] is the check, and before them
    [copy_and_wait] copies the template and waits for the copy. *)
Definition finish {C L : Type} (template payload folderId : value) (docId : string)
    (requests : list (string * string)) : M C L value :=
  let keep := truthy (get_prop template "keep_intermediate_doc") in
  (if (0 <? List.length requests)%nat
   then perform (CBatchUpdate docId requests) (fun t => docs_batchUpdate t docId requests)
   else ret tt) ;;
  waitForFile docId ;;
  let* exportedPdf := perform (CDriveExport docId) (fun t => drive_files_export t docId) in
  let* today := observe CToday new_Date in
  let* filename :=
    lift (buildFilename today (get_prop template "output_filename_pattern") payload) in
  let* uploaded :=
    perform (CDriveCreate filename (parents_of folderId))
      (fun t => drive_files_create t filename (parents_of folderId) exportedPdf) in
  (if negb keep then delete_quietly docId else ret tt) ;;
  ret (VObj [("pdf_file_id", f_id uploaded);
             ("pdf_name", f_name uploaded);
             ("pdf_web_view_url", f_link uploaded);
             ("tmp_doc_id", if keep then VStr docId else VUndefined)]).

Definition fill {C L : Type} (template payload folderId : value) (docId : string)
    : M C L value :=
  let required := required_of template in
  let* built := lift (rmap (request_of payload) required) in
  let missing := missing_paths required (map fst built) in
  let requests := map snd built in
  let keep := truthy (get_prop template "keep_intermediate_doc") in
  if (0 <? List.length missing)%nat
  then
    (if negb keep then delete_quietly docId else ret tt) ;;
    let* listed := lift (array_join ", " missing) in
    throw (mkError "Error" ("Missing required placeholders: " +++ listed) None (Some 400%Z))
  else finish template payload folderId docId requests.

(** The copy of the template, and the wait for it to exist. *)
Definition copy_and_wait {C L : Type} (template : value) : M C L string :=
  let source := get_prop template "doc_template_id" in
  let* now := observe CNow Date_now in
  let* key := lift (ToString (get_prop template "template_key")) in
  let name := "tmp_" +++ show_Z now +++ "_" +++ key in
  let* docId :=
    perform (CDriveCopy source name VUndefined)
      (fun t => drive_files_copy t source name VUndefined) in
  waitForFile docId ;;
  ret docId.

Definition renderGoogleDocToPdf {C L : Type} (template payload folderId : value)
    : M C L value :=
  let* docId := copy_and_wait template in
  fill template payload folderId docId.

(** [config.byTemplateKey[k]], the key converted to a property key. *)
Definition lookup (table key : value) : result value :=
  let? k := ToString key in
  Ok (get_prop table k).

(** The template of a request, as the handler of [POST /v1/render]
    resolves it. *)
Definition resolve (config : Config) (payload : value) : result value :=
  let templateKey := get_prop payload "template_key" in
  let packageKey := get_prop payload "package_key" in
  let? direct :=
    (if truthy templateKey then lookup (byTemplateKey config) templateKey else Ok VNull) in
  if negb (truthy direct) && truthy packageKey then
    let? pkg := lookup (byPackageKey config) packageKey in
    if truthy (get_opt pkg "default_template_key")
    then lookup (byTemplateKey config) (get_prop pkg "default_template_key")
    else Ok direct
  else Ok direct.

Definition note_text (template payload out : value) : result string :=
  let packageKey := get_prop payload "package_key" in
  let? shown := ToString (get_prop template "display_name") in
  let? name := ToString (get_prop out "pdf_name") in
  let? link := ToString (get_prop out "pdf_web_view_url") in
  let? pack :=
    (if truthy packageKey
     then let? k := ToString packageKey in Ok ("Pack: " +++ k +++ nl)
     else Ok EmptyString) in
  let? actor :=
    (if truthy (get_opt (get_opt payload "actor") "email")
     then let? who := member (get_prop payload "actor") "email" in
          let? e := ToString who in
          Ok ("Solicitado por: " +++ e +++ nl)
     else Ok EmptyString) in
  Ok (page_sign +++ " Documento generado: " +++ shown +++ nl +++
      "Archivo: " +++ name +++ nl +++
      "Link: " +++ link +++ nl +++ pack +++ actor).

(** The handler of [POST /v1/render] inside [try], from the loaded
    configuration on. *)
Definition with_config (payload : value) (config : Config)
    : M CONFIG_CACHE unit response :=
  let* template := lift (resolve config payload) in
  if negb (truthy template)
  then ret (mkResponse 400 (error_body "template not found (template_key / package_key)"))
  else
    let* folderId :=
      lift (normalizeDriveId
              (or_else (or_else (get_opt (get_opt payload "deal") "folder_id")
                                (get_opt payload "folder_id"))
                       (VStr EmptyString))) in
    let* out :=
      renderGoogleDocToPdf template payload (or_else (VStr folderId) VNull) in
    let sell := get_prop payload "sell" in
    if truthy (get_opt sell "resource_type") && truthy (get_opt sell "resource_id")
    then
      let* noteText := lift (note_text template payload out) in
      let* note :=
        sellCreateNote (get_prop sell "resource_type") (get_prop sell "resource_id") noteText in
      ret (mkResponse 200 (VObj [("pdf", out); ("note", note)]))
    else ret (mkResponse 200 (VObj [("pdf", out)])).

Definition render_try (body : value) : M CONFIG_CACHE unit response :=
  let payload := or_else body (VObj []) in
  makeGoogleClients ;;
  let* config := loadConfig in
  with_config payload config.

(** [e.statusCode || 500]. *)
Definition status_of (e : error) : Z :=
  match err_statusCode e with
  | Some code => if (code =? 0)%Z then 500%Z else code
  | None => 500%Z
  end.

Definition render (body : value) : M CONFIG_CACHE unit response :=
  try_catch (render_try body)
            (fun e => ret (mkResponse (status_of e) (error_body (err_message e)))).

Definition get_config : M CONFIG_CACHE unit response :=
  try_catch
    (makeGoogleClients ;;
     let* config := loadConfig in
     ret (mkResponse 200 (VObj [("templates", VArr (templates config));
                                ("exam_packages", VArr (exam_packages config))])))
    (fun e => ret (mkResponse 500 (error_body (err_message e)))).

Definition route_config (x_api_key : option string) : M CONFIG_CACHE unit response :=
  authGuard x_api_key get_config.

Definition route_render (x_api_key : option string) (body : value)
    : M CONFIG_CACHE unit response :=
  authGuard x_api_key (render body).

End Program.
End Part000.

(** * [src/unnamed/part_000]: the folder of a deal *)

Module Folders.

(** The calls to Drive that only [ensureDealFolder] makes: the metadata
    of the root folder, the search for the deal's folder, and its
    creation. *)
Inductive drive_call : Type :=
| FGet (fileId : string)
| FList (q corpora : string) (driveId : value)
| FCreate (name parent : string).

Record drive_event : Type := mkCall { c_call : drive_call; c_outcome : outcome }.

(** The calls of a request so far; the route keeps them in the third
    component of the state. *)
Definition drive_log : Type := list drive_event.

(** Drive behind these calls: [files_get] answers the [driveId] of the
    file's metadata, [files_list] the [files] of the search. *)
Class Drive : Type := {
  files_get : trace -> drive_log -> string -> result value;
  files_list : trace -> drive_log -> string -> string -> value -> result (option (list file_meta));
  files_create : trace -> drive_log -> string -> string -> result file_meta
}.

Section Program.
Context {rt : Runtime} {w : World} {d : Drive}.

Definition ask {C A : Type} (c : drive_call) (answer : trace -> drive_log -> result A) : M C drive_log A :=
  fun s =>
    match answer (st_trace s) (st_local s) with
    | Ok a =>
        (mkState (st_trace s) (st_cache s) (st_local s ++ [mkCall c Done]), Ok a)
    | Throw e =>
        (mkState (st_trace s) (st_cache s) (st_local s ++ [mkCall c (Failed e)]), Throw e)
    end.

Definition required (what : string) : error :=
  mkError "Error" (what +++ " is required") None (Some 400%Z).

(** The object [ensureDealFolder] returns for a folder. *)
Definition folder_of (f : file_meta) (driveId : value) : result value :=
  let? link :=
    (if truthy (f_link f) then Ok (f_link f)
     else let? id := ToString (f_id f) in
          Ok (VStr ("https://drive.google.com/drive/folders/" +++ id))) in
  Ok (VObj [("folder_id", f_id f);
            ("name", f_name f);
            ("web_view_url", link);
            ("drive_id", or_else driveId VUndefined)]).

Definition query (rootId folderName : string) : string :=
  "'" +++ rootId +++ "' in parents and trashed=false and " +++
  "mimeType='application/vnd.google-apps.folder' and name='" +++ folderName +++ "'".

Definition ensureDealFolder {C : Type} (driveRootFolderId dealId : value)
    : M C drive_log value :=
  let* rootId := lift (Part000.normalizeDriveId driveRootFolderId) in
  if String.eqb rootId EmptyString then throw (required "drive_root_folder_id")
  else if negb (truthy dealId) then throw (required "deal_id")
  else
    let* meta := ask (FGet rootId) (fun t l => files_get t l rootId) in
    let driveId := or_else meta VNull in
    let* deal := lift (ToString dealId) in
    let folderName := "Deal_" +++ deal in
    let q := query rootId folderName in
    let corpora := if truthy driveId then "drive" else "user" in
    let drive := if truthy driveId then driveId else VUndefined in
    let* found :=
      ask (FList q corpora drive) (fun t l => files_list t l q corpora drive) in
    match found with
    | Some (f :: _) => lift (folder_of f driveId)
    | _ =>
        let* created :=
          ask (FCreate folderName rootId) (fun t l => files_create t l folderName rootId) in
        lift (folder_of created driveId)
    end.

(** The handler of [POST /v1/drive/folder/ensure]. *)
Definition ensure {C : Type} (body : value) : M C drive_log response :=
  try_catch
    (let payload := or_else body (VObj []) in
     Part000.makeGoogleClients ;;
     let* out :=
       ensureDealFolder (get_prop payload "drive_root_folder_id")
                        (get_prop payload "deal_id") in
     ret (mkResponse 200 out))
    (fun e => ret (mkResponse (Part000.status_of e) (error_body (err_message e)))).

Definition route_ensure {C : Type} (x_api_key : option string) (body : value)
    : M C drive_log response :=
  Part000.authGuard x_api_key (ensure body).

End Program.
End Folders.

(** * The notions the properties are stated with *)

(** Following the words of the specification: a path is traversed segment
    by segment, each segment entering the value reached so far; [enter]
    says when a segment can be traversed. *)
Inductive traverses {rt : Runtime} (enter : value -> string -> bool)
    : value -> list string -> value -> Prop :=
| traverses_end : forall v, traverses enter v [] v
| traverses_step : forall v k ks r,
    enter v k = true ->
    traverses enter (get_prop v k) ks r ->
    traverses enter v (k :: ks) r.

(** In [src/server.js] a segment enters an object or an array that holds
    the member (own or inherited). *)
Definition enters_object {rt : Runtime} (v : value) (k : string) : bool :=
  match v with
  | VObj _ | VArr _ => has_prop v k
  | _ => false
  end.

(** In [src/unnamed/part_000] a segment enters any truthy value whose
    member can be read and is defined. *)
Definition enters_defined {rt : Runtime} (v : value) (k : string) : bool :=
  truthy v && negb (restricted_read v k) &&
  match get_prop v k with
  | VUndefined => false
  | _ => true
  end.

(** The walk of [getByPath] comes to a function and a segment that names
    its [caller] or its [arguments], a read that throws. *)
Inductive trips {rt : Runtime} : value -> list string -> Prop :=
| trips_here : forall v k ks,
    restricted_read v k = true ->
    trips v (k :: ks)
| trips_later : forall v k ks,
    enters_defined v k = true ->
    trips (get_prop v k) ks ->
    trips v (k :: ks).







(** The text [JSON.parse] is given is a JSON array. *)
Definition parses_as_array {rt : Runtime} (raw : value) (items : list value) : Prop :=
  exists text, ToString raw = Ok text /\ JSON_parse text = inl (VArr items).

(** What one run of [waitForFile] adds to the trace, and how it ends:
    not-found failures, each followed by its sleep, then a check that
    succeeds, a check that fails otherwise, or no delay left. *)
Inductive polled (fileId : string) : list Z -> list event -> result bool -> Prop :=
| polled_exhausted :
    polled fileId [] [] (Throw (Error_ ("File not found (after retries): " +++ fileId)))
| polled_found : forall delay rest,
    polled fileId (delay :: rest) [mkEvent (CDriveGet fileId) Done] (Ok true)
| polled_rethrown : forall delay rest e,
    Part000.notFound e = false ->
    polled fileId (delay :: rest) [mkEvent (CDriveGet fileId) (Failed e)] (Throw e)
| polled_retry : forall delay rest e events r,
    Part000.notFound e = true ->
    polled fileId rest events r ->
    polled fileId (delay :: rest)
           (mkEvent (CDriveGet fileId) (Failed e) :: mkEvent (CSleep delay) Done :: events) r.

(** The sleeps of a trace, in order. *)
Fixpoint sleeps (events : list event) : list Z :=
  match events with
  | [] => []
  | e :: rest =>
      match sleep_of e with
      | Some ms => ms :: sleeps rest
      | None => sleeps rest
      end
  end.

(** The record carries [is_active: true]. *)
Definition active (t : value) : Prop := own_prop t "is_active" = Some (VBool true).

(** The [is_active] cell of a row object coerces to [true]. *)
Definition coerces_true {rt : Runtime} (coerce : value -> result bool) (row : value) : bool :=
  match coerce (get_prop row "is_active") with
  | Ok true => true
  | _ => false
  end.



Definition outcome_of {A : Type} (r : result A) : outcome :=
  match r with
  | Ok _ => Done
  | Throw e => Failed e
  end.

(** [values || []]. *)
Definition rows_of (values : option (list (list scalar))) : list (list scalar) :=
  match values with
  | Some rows => rows
  | None => []
  end.

(** The two reads of a refresh, as events after the trace [t], in the
    order they settle. *)
Definition sheet_reads {w : World} (range1 range2 : string) (t : trace) : list event :=
  if first_settles t then
    let e1 := mkEvent (CSheetsGet range1) (outcome_of (sheets_values_get t range1)) in
    [e1; mkEvent (CSheetsGet range2) (outcome_of (sheets_values_get (t ++ [e1]) range2))]
  else
    let e2 := mkEvent (CSheetsGet range2) (outcome_of (sheets_values_get t range2)) in
    [e2; mkEvent (CSheetsGet range1) (outcome_of (sheets_values_get (t ++ [e2]) range1))].

(** What the two reads deliver when both succeed, and the error of the
    first that fails otherwise. *)
Definition sheets_read {w : World} (range1 range2 : string) (t : trace)
    : result (option (list (list scalar)) * option (list (list scalar))) :=
  if first_settles t then
    let r1 := sheets_values_get t range1 in
    let e1 := mkEvent (CSheetsGet range1) (outcome_of r1) in
    match r1, sheets_values_get (t ++ [e1]) range2 with
    | Ok v1, Ok v2 => Ok (v1, v2)
    | Throw e, _ => Throw e
    | Ok _, Throw e => Throw e
    end
  else
    let r2 := sheets_values_get t range2 in
    let e2 := mkEvent (CSheetsGet range2) (outcome_of r2) in
    match r2, sheets_values_get (t ++ [e2]) range1 with
    | Ok v2, Ok v1 => Ok (v1, v2)
    | Throw e, _ => Throw e
    | Ok _, Throw e => Throw e
    end.

(** The events are the reads of the two ranges, in one order or the
    other. *)
Definition reads_of (range1 range2 : string) (events : list event) : Prop :=
  exists o1 o2,
    events = [mkEvent (CSheetsGet range1) o1; mkEvent (CSheetsGet range2) o2] \/
    events = [mkEvent (CSheetsGet range2) o2; mkEvent (CSheetsGet range1) o1].




(** Every run of [m] appends events to the trace, and the events and the
    result are related by [Q]. *)
Definition appends {C L A : Type} (Q : list event -> result A -> Prop) (m : M C L A) : Prop :=
  forall s, exists events,
    st_trace (fst (m s)) = st_trace s ++ events /\ Q events (snd (m s)).

(** Every event the run of [m] from [s] adds satisfies [P]. *)
Definition emits_at {C L A : Type} (P : event -> Prop) (m : M C L A) (s : state C L)
    : Prop :=
  exists events, st_trace (fst (m s)) = st_trace s ++ events /\ Forall P events.

(** Every event [m] adds satisfies [P]. *)
Definition emits {C L A : Type} (P : event -> Prop) (m : M C L A) : Prop :=
  forall s, emits_at P m s.

(** The first event of [events] that counts as a failure is one of [e]. *)
Definition first_failure (fails : event -> option error) (events : list event) (e : error)
    : Prop :=
  exists pre ev post,
    events = pre ++ ev :: post /\
    Forall (fun x => fails x = None) pre /\
    fails ev = Some e.

(** A computation reports failures faithfully: it returns only if no call
    failed, and if a call failed it throws the error of the first failure. *)
Definition reports {A : Type} (fails : event -> option error) (events : list event)
    (r : result A) : Prop :=
  match r with
  | Ok _ => Forall (fun x => fails x = None) events
  | Throw e => Forall (fun x => fails x = None) events \/ first_failure fails events e
  end.

Definition faithful {C L A : Type} (fails : event -> option error) (m : M C L A) : Prop :=
  appends (reports fails) m.

(** What counts as a failed call in [src/server.js]: a call that threw,
    and a note request answered with a status that is not a success; the
    error is the one the code throws for it. *)
Definition server_fails (ev : event) : option error :=
  match ev_outcome ev with
  | Done => None
  | Failed e => Some e
  | Replied st txt =>
      if ServerJs.http_ok st then None
      else Some (Error_ ("Sell note creation failed: " +++ show_Z st +++ " " +++ txt))
  end.

(** In [src/unnamed/part_000] a not-found answer of the existence poll is
    retried and a failed delete of the copy is swallowed: neither counts. *)
Definition part_fails (ev : event) : option error :=
  match ev_outcome ev with
  | Done => None
  | Failed e =>
      match ev_call ev with
      | CDriveGet _ => if Part000.notFound e then None else Some e
      | CDriveDelete _ => None
      | _ => Some e
      end
  | Replied st txt =>
      if Part000.http_ok st then None
      else Some (Error_ ("Sell note error " +++ show_Z st +++ ": " +++ txt))
  end.

(** The call exports or uploads a PDF. *)
Definition pdf_call (e : event) : bool := is_export e || is_upload e.

Definition no_pdf (e : event) : Prop := pdf_call e = false.

(** The call reads the clock or a sheet. *)
Definition config_call (e : event) : Prop :=
  match ev_call e with
  | CNow | CSheetsGet _ => True
  | _ => False
  end.

(** The path resolves in the payload to a value that is defined and not
    empty. *)
Definition resolves_in (lookup : value -> value -> result value) (payload path : value)
    : Prop :=
  exists v, lookup payload path = Ok v /\ is_missing v = false.

(** The check of [with_config]: a template is resolved and none of its
    required placeholders is missing. *)
Definition server_checked {rt : Runtime} (payload : value) (config : ServerJs.Config)
    : bool :=
  let template := ServerJs.resolveTemplate config payload in
  truthy template &&
  match ServerJs.placeholders_of template with
  | Ok required =>
      match ServerJs.missing_of payload required with
      | Ok [] => true
      | _ => false
      end
  | Throw _ => false
  end.

(** The check of [fill]: every request is built and no path is missing. *)
Definition part_checked {rt : Runtime} (template payload : value) : bool :=
  match rmap (Part000.request_of payload) (Part000.required_of template) with
  | Ok built =>
      match Part000.missing_paths (Part000.required_of template) (map fst built) with
      | [] => true
      | _ => false
      end
  | Throw _ => false
  end.




(** The deletes of a trace: the file each asks to delete, and how it
    ended. *)
Fixpoint deletions (events : list event) : list (string * outcome) :=
  match events with
  | [] => []
  | e :: rest =>
      match ev_call e with
      | CDriveDelete id => (id, ev_outcome e) :: deletions rest
      | _ => deletions rest
      end
  end.

Definition is_copy (e : event) : bool :=
  match ev_call e with CDriveCopy _ _ _ => true | _ => false end.

(** Neither a copy nor a delete. *)
Definition bystander (e : event) : Prop :=
  match ev_call e with
  | CDriveCopy _ _ _ | CDriveDelete _ => False
  | _ => True
  end.

(** Neither a delete nor a copy that was made. *)
Definition idle (e : event) : Prop :=
  match ev_call e, ev_outcome e with
  | CDriveDelete _, _ => False
  | CDriveCopy _ _ _, Done => False
  | _, _ => True
  end.

(** After the trace [t], the events hold one copy that was made: it is a
    copy of the file [source], it answered [id], nothing before it is a
    copy or a delete, and [post], what follows it, holds no copy. *)
Definition copy_made {w : World} (t : trace) (events : list event) (source : value)
    (id : string) (post : list event) : Prop :=
  exists pre name parents,
    events = pre ++ mkEvent (CDriveCopy source name parents) Done :: post /\
    drive_files_copy (t ++ pre) source name parents = Ok id /\
    Forall bystander pre /\
    Forall (fun e => is_copy e = false) post.

(** The deletes of a render of [src/server.js] that answered: after a 200,
    one delete of the copy, which succeeded, unless the copy is kept (or
    its id is empty); after a 500, a delete of the copy was attempted
    (unless its id is empty), twice when the first attempt failed inside
    the [try] block. *)
Definition cleanup_of (keep : bool) (id : string) (dels : list (string * outcome))
    (resp : response) : Prop :=
  (status resp = 200%Z /\
   dels = (if negb keep && negb (String.eqb id EmptyString) then [(id, Done)] else [])) \/
  (status resp = 500%Z /\
   ((id = EmptyString /\ dels = []) \/
    (exists o, dels = [(id, o)]) \/
    (exists err o, dels = [(id, Failed err); (id, o)]))).

(** What a render of [src/server.js] leaves behind: a response; and
    either no copy was made and nothing was deleted, or one copy was made,
    of the document of the resolved template, and the deletes that follow
    it are those of [cleanup_of]. *)
Definition server_cleaned {rt : Runtime} {w : World}
    (s : state ServerJs.configCache value) (body : value)
    (run : state ServerJs.configCache value * result response) : Prop :=
  exists events resp,
    st_trace (fst run) = st_trace s ++ events /\
    snd run = Ok resp /\
    (Forall idle events \/
     exists id post config,
       copy_made (st_trace s) events
         (get_prop (ServerJs.resolveTemplate config (or_else body (VObj [])))
                   "doc_template_id") id post /\
       snd (ServerJs.loadConfig (mkState (st_trace s) (st_cache s) VUndefined))
         = Ok config /\
       cleanup_of
         (truthy (get_prop (ServerJs.resolveTemplate config (or_else body (VObj [])))
                           "keep_intermediate_doc"))
         id (deletions post) resp).

(** What [produce] of [src/server.js] leaves behind: no copy and an
    error; or a copy of [source] and a 200, the copy deleted unless it is
    kept; or a copy of [source] and an error, the copy still recorded in
    the handler's variable unless it was deleted. *)
Definition produced {w : World} (s : state ServerJs.configCache value) (source : value)
    (keep : bool) (run : state ServerJs.configCache value * result response) : Prop :=
  exists events,
    st_trace (fst run) = st_trace s ++ events /\
    ((Forall idle events /\ st_local (fst run) = st_local s /\
      exists e, snd run = Throw e) \/
     exists id post,
       copy_made (st_trace s) events source id post /\
       match snd run with
       | Ok resp =>
           status resp = 200%Z /\
           deletions post =
             (if negb keep && negb (String.eqb id EmptyString) then [(id, Done)] else [])
       | Throw _ =>
           (st_local (fst run) = VStr id /\
            (deletions post = [] \/
             exists err, deletions post = [(id, Failed err)])) \/
           (st_local (fst run) = VNull /\ deletions post = [(id, Done)])
       end).

(** In [src/unnamed/part_000]: no delete when the copy is kept, and one
    delete of the copy, however it ended, when it is not. *)
Definition attempted (keep : bool) (id : string) (dels : list (string * outcome)) : Prop :=
  if keep then dels = [] else exists o, dels = [(id, o)].

(** [m] makes no copy and, when it returns, its deletes satisfy [D]. *)
Definition tidy {C L A : Type} (D : list (string * outcome) -> Prop) (m : M C L A) : Prop :=
  appends (fun events r =>
             Forall (fun e => is_copy e = false) events /\
             forall out, r = Ok out -> D (deletions events)) m.

(** [m] leaves the handler's variable as it was. *)
Definition frames {C L A : Type} (m : M C L A) : Prop :=
  forall s, st_local (fst (m s)) = st_local s.

(** Every character of [s] may stand in a Drive id. *)
Definition id_only (s : string) : Prop :=
  Forall (fun c => Part000.is_id_char c = true) (list_ascii_of_string s).

(** A marker opens with a character no id holds. *)
Definition opens_outside (m : string) : Prop :=
  match m with
  | EmptyString => False
  | String c _ => Part000.is_id_char c = false
  end.

(** The row is not blank: some cell of it holds text. *)
Definition row_filled (r : list scalar) : bool :=
  existsb (fun cell => negb (String.eqb (Part000.cell_text cell) EmptyString)) r.

(** Every member found along a prototype chain converts to a text, as the
    functions and objects of the built-in prototypes do. *)
Definition inherited_convertible (rt : Runtime) : Prop :=
  forall v k x, @inherited rt v k = Some x -> exists s, ToString x = Ok s.

(** Whenever [m] returns, what it returns satisfies [P]. *)
Definition returns_only {C L A : Type} (P : A -> Prop) (m : M C L A) : Prop :=
  forall s a, snd (m s) = Ok a -> P a.

(** The call reads the clock or a sheet, or authorizes the client. *)
Definition config_only (e : event) : Prop :=
  match ev_call e with
  | CNow | CSheetsGet _ | CAuthorize => True
  | _ => False
  end.

(** The document a call edits, exports, deletes or checks. *)
Definition doc_of (e : event) : option string :=
  match ev_call e with
  | CBatchUpdate d _ | CDriveExport d | CDriveDelete d | CDriveGet d => Some d
  | _ => None
  end.

(** The call names no document: it neither copies one nor works on one. *)
Definition untargeted (e : event) : Prop :=
  match ev_call e with
  | CDriveCopy _ _ _ | CBatchUpdate _ _ | CDriveExport _ | CDriveDelete _ | CDriveGet _ =>
      False
  | _ => True
  end.

(** The call works on no document and made no copy. *)
Definition calm (e : event) : Prop :=
  match ev_call e, ev_outcome e with
  | CBatchUpdate _ _, _ | CDriveExport _, _ | CDriveDelete _, _ | CDriveGet _, _ => False
  | CDriveCopy _ _ _, Done => False
  | _, _ => True
  end.

(** The call copies nothing, and if it works on a document, the document
    is [id]. *)
Definition aims_at (id : string) (e : event) : Prop :=
  match ev_call e with
  | CDriveCopy _ _ _ => False
  | CBatchUpdate d _ | CDriveExport d | CDriveDelete d | CDriveGet d => d = id
  | _ => True
  end.

(** After the trace [t], the events work on one document only, the copy
    they made: either no copy was made and no document was worked on, or
    one copy was made, nothing before it names a document, and every call
    after it that works on a document works on the id the copy answered. *)
Definition only_copy_touched {w : World} (t : trace) (events : list event) : Prop :=
  Forall calm events \/
  exists pre source name parents id post,
    events = pre ++ mkEvent (CDriveCopy source name parents) Done :: post /\
    drive_files_copy (t ++ pre) source name parents = Ok id /\
    Forall untargeted pre /\
    Forall (aims_at id) post.

(** The handler's variable holds the id of the copy, or [null]. *)
Definition holds_copy (id : string) (l : value) : Prop := l = VStr id \/ l = VNull.

(** Started with the copy recorded, [m] works on the copy only and leaves
    it recorded, or [null]. *)
Definition tends {C A : Type} (id : string) (m : M C value A) : Prop :=
  forall s, holds_copy id (st_local s) ->
    exists events,
      st_trace (fst (m s)) = st_trace s ++ events /\
      Forall (aims_at id) events /\
      holds_copy id (st_local (fst (m s))).

(** [m] works on one document only, the copy it made, whose id the
    handler's variable then holds. *)
Definition touches_copy {w : World} {C A : Type} (m : M C value A) : Prop :=
  forall s, exists events,
    st_trace (fst (m s)) = st_trace s ++ events /\
    ((Forall calm events /\ st_local (fst (m s)) = st_local s) \/
     exists pre source name parents id post,
       events = pre ++ mkEvent (CDriveCopy source name parents) Done :: post /\
       drive_files_copy (st_trace s ++ pre) source name parents = Ok id /\
       Forall untargeted pre /\
       Forall (aims_at id) post /\
       holds_copy id (st_local (fst (m s)))).

(** [m] works on one document only, the copy it made. *)
Definition touching {w : World} {C L A : Type} (m : M C L A) : Prop :=
  forall s, exists events,
    st_trace (fst (m s)) = st_trace s ++ events /\
    only_copy_touched (st_trace s) events.

(** The time a trace spends asleep, in milliseconds. *)
Definition slept (events : list event) : Z := fold_right Z.add 0%Z (sleeps events).

(** The call is no sleep and no existence check. *)
Definition no_poll (e : event) : Prop :=
  match ev_call e with
  | CSleep _ | CDriveGet _ => False
  | _ => True
  end.

(** Every run of [m] sleeps [ms] milliseconds at most, and checks the
    existence of a file [n] times at most. *)
Definition polls {C L A : Type} (ms : Z) (n : nat) (m : M C L A) : Prop :=
  forall s, exists events,
    st_trace (fst (m s)) = st_trace s ++ events /\
    (slept events <= ms)%Z /\
    (List.length (filter is_file_check events) <= n)%nat.

(** A copy or an upload is placed under [parents]. *)
Definition placed_under (parents : value) (e : event) : Prop :=
  match ev_call e with
  | CDriveCopy _ _ p | CDriveCreate _ p => p = parents
  | _ => True
  end.

(** A copy has no parent folder; an upload is placed under [parents]. *)
Definition uploaded_under (parents : value) (e : event) : Prop :=
  match ev_call e with
  | CDriveCopy _ _ p => p = VUndefined
  | CDriveCreate _ p => p = parents
  | _ => True
  end.

(** The call creates a folder. *)
Definition is_creation (c : Folders.drive_event) : bool :=
  match Folders.c_call c with Folders.FCreate _ _ => true | _ => false end.

(** The call posts no note to the CRM. *)
Definition note_free (e : event) : Prop :=
  match ev_call e with
  | CSellPost _ _ _ => False
  | _ => True
  end.

(** The call is an upload that succeeded. *)
Definition uploaded (e : event) : Prop :=
  match ev_call e, ev_outcome e with
  | CDriveCreate _ _, Done => True
  | _, _ => False
  end.

(** The events hold one request to the CRM at most. *)
Definition noted_once (events : list event) : Prop :=
  Forall note_free events \/
  exists pre e post,
    events = pre ++ e :: post /\ Forall note_free pre /\ Forall note_free post.

(** The events hold one request to the CRM at most, and an upload that
    succeeded comes before it. *)
Definition noted_after_upload (events : list event) : Prop :=
  Forall note_free events \/
  exists pre e post,
    events = pre ++ e :: post /\
    Forall note_free pre /\ Exists uploaded pre /\ Forall note_free post.

(** [m] posts no note, and when it returns, it has uploaded a file. *)
Definition uploads {C L A : Type} (m : M C L A) : Prop :=
  forall s, exists events,
    st_trace (fst (m s)) = st_trace s ++ events /\
    Forall note_free events /\
    forall a, snd (m s) = Ok a -> Exists uploaded events.

(** [m] asks the CRM once at most. *)
Definition notes_once {C L A : Type} (m : M C L A) : Prop :=
  forall s, exists events,
    st_trace (fst (m s)) = st_trace s ++ events /\ noted_once events.

(** [m] asks the CRM once at most, and after an upload that succeeded. *)
Definition notes_late {C L A : Type} (m : M C L A) : Prop :=
  forall s, exists events,
    st_trace (fst (m s)) = st_trace s ++ events /\ noted_after_upload events.

(** * A sample runtime, spreadsheet and world *)

(** The members a plain object inherits from [Object.prototype]; the
    members of the other built-in prototypes are left out, no example
    below reaches for one. *)
Definition object_prototype : list (string * value) :=
  [("constructor", VFun "Object");
   ("__defineGetter__", VFun "__defineGetter__");
   ("__defineSetter__", VFun "__defineSetter__");
   ("hasOwnProperty", VFun "hasOwnProperty");
   ("__lookupGetter__", VFun "__lookupGetter__");
   ("__lookupSetter__", VFun "__lookupSetter__");
   ("isPrototypeOf", VFun "isPrototypeOf");
   ("propertyIsEnumerable", VFun "propertyIsEnumerable");
   ("toString", VFun "toString");
   ("valueOf", VFun "valueOf");
   ("__proto__", VObj []);
   ("toLocaleString", VFun "toLocaleString")].

Definition quote : string := String (ascii_of_nat 34) EmptyString.

(** The JSON texts of the sample spreadsheet and of the CRM's reply. *)
Definition sample_paths_text : string := "[" +++ quote +++ "object.run" +++ quote +++ "]".

Definition sample_mixed_text : string :=
  "[1," +++ quote +++ "object.run" +++ quote +++ "]".

Definition sample_parse (text : string) : value + string :=
  if String.eqb text sample_paths_text then inl (VArr [VStr "object.run"])
  else if String.eqb text sample_mixed_text then inl (VArr [VNum 1; VStr "object.run"])
  else if String.eqb text "{}" then inl (VObj [])
  else inr "Unexpected token in JSON".

Definition sample_runtime : Runtime :=
  {| inherited := fun v k =>
       match v with
       | VObj _ => assoc k object_prototype
       | _ => None
       end;
     JSON_parse := sample_parse |}.

Definition sample_templates : list (list scalar) :=
  [ map SStr ["template_key"; "display_name"; "engine"; "doc_template_id";
              "output_filename_pattern"; "required_placeholders";
              "default_package_key"; "keep_intermediate_doc"; "version";
              "is_active"; "notes"];
    map SStr ["ORDEN_PRE_PAD_MUJER"; "Orden PAD"; "gdocs"; "DOC_TEMPLATE_1";
              "orden_{object.run}_{YYYYMMDD}"; sample_paths_text;
              "PRE_PAD_BASE"; "FALSE"; "1"; "TRUE"; ""];
    map SStr ["SIN_CAMPOS"; "Sin campos"; "gdocs"; "DOC_TEMPLATE_2";
              ""; ""; ""; "FALSE"; "1"; "TRUE"; ""];
    map SStr ["NUMERICO"; "Ruta numerica"; "gdocs"; "DOC_TEMPLATE_3";
              ""; sample_mixed_text; ""; "FALSE"; "1"; "TRUE"; ""];
    map SStr ["ANTIGUO"; "Antiguo"; "gdocs"; "DOC_TEMPLATE_4";
              ""; ""; ""; "FALSE"; "1"; "FALSE"; ""] ].

Definition sample_packages : list (list scalar) :=
  [ map SStr ["package_key"; "display_name"; "exams"; "default_template_key";
              "version"; "is_active"; "notes"];
    map SStr ["PRE_PAD_BASE"; "Pack base"; ""; "ORDEN_PRE_PAD_MUJER"; "1"; "TRUE"; ""] ].

(** Which calls of the sample world fail. *)
Record faults : Type := mkFaults {
  copy_fails : bool;
  export_fails : bool;
  delete_fails : bool
}.

Definition no_faults : faults := mkFaults false false false.

Definition sample_world (f : faults) (api_key : option string) : World :=
  {| process_env := fun name =>
       if String.eqb name "RENDER_API_KEY" then api_key else Some "configured";
     Date_now := fun t => (1762153200000 + Z.of_nat (List.length t))%Z;
     new_Date := fun _ => mkDate 2026 11 3 7 0 0 0;
     auth_authorize := fun _ => Ok tt;
     sheets_values_get := fun _ range =>
       if String.prefix "templates" range then Ok (Some sample_templates)
       else Ok (Some sample_packages);
     drive_files_copy := fun _ fileId _ _ =>
       match fileId with
       | VStr _ =>
           if copy_fails f
           then Throw (mkError "GaxiosError"
                         "The user does not have sufficient permissions for this file."
                         (Some 403%Z) None)
           else Ok "COPIA_1"
       | _ => Throw (Error_ "Missing required parameters: fileId")
       end;
     drive_files_get := fun _ _ => Ok tt;
     docs_batchUpdate := fun _ _ _ => Ok tt;
     drive_files_export := fun _ _ =>
       if export_fails f
       then Throw (mkError "GaxiosError" "Export only supports Docs Editors files."
                     (Some 403%Z) None)
       else Ok "%PDF-1.4";
     drive_files_create := fun _ name _ _ =>
       Ok (mkFile (VStr "PDF_1") (VStr name)
                  (VStr "https://drive.google.com/file/d/PDF_1/view"));
     drive_files_delete := fun _ _ =>
       if delete_fails f
       then Throw (mkError "GaxiosError" "Rate Limit Exceeded" (Some 429%Z) None)
       else Ok tt;
     fetch_notes := fun _ _ _ _ => Ok (200%Z, "{}");
     first_settles := fun _ => true |}.

(** The sample world with a slow clock: twenty seconds pass with every
    call, so that reading the two ranges takes forty. *)
Definition slow_world : World :=
  let w := sample_world no_faults None in
  {| process_env := @process_env w;
     Date_now := fun t => (1762153200000 + 20000 * Z.of_nat (List.length t))%Z;
     new_Date := @new_Date w;
     auth_authorize := @auth_authorize w;
     sheets_values_get := @sheets_values_get w;
     drive_files_copy := @drive_files_copy w;
     drive_files_get := @drive_files_get w;
     docs_batchUpdate := @docs_batchUpdate w;
     drive_files_export := @drive_files_export w;
     drive_files_create := @drive_files_create w;
     drive_files_delete := @drive_files_delete w;
     fetch_notes := @fetch_notes w;
     first_settles := @first_settles w |}.

(** A fresh process: nothing happened yet, nothing is cached. *)
Definition server_start : state ServerJs.configCache value :=
  mkState [] ServerJs.empty_cache VUndefined.

Definition part_start : state Part000.CONFIG_CACHE unit :=
  mkState [] Part000.empty_cache tt.

(** The calls of a trace, without their outcomes. *)
Definition calls (t : trace) : list call := map ev_call t.

Definition sample_date : date := mkDate 2026 11 3 7 0 0 0.

(** The configuration [src/server.js] loads from the sample spreadsheet. *)
Definition sample_server_config : ServerJs.Config :=
  ServerJs.mkConfig
    (match @ServerJs.normalizeTemplates sample_runtime sample_templates with
     | Ok ts => ts
     | Throw _ => []
     end)
    (match @ServerJs.normalizeExamPackages sample_runtime sample_packages with
     | Ok ps => ps
     | Throw _ => []
     end).

(** The configuration [src/unnamed/part_000] loads from it. *)
Definition sample_part_config : Part000.Config :=
  match @Part000.build_config sample_runtime (Some sample_templates) (Some sample_packages) with
  | Ok config => config
  | Throw _ => Part000.mkConfig [] [] (VObj []) (VObj [])
  end.

(** A Drive that holds the root folder in no shared drive; [held] says
    whether the folder of the deal is there already. *)
Definition sample_drive (held : bool) : Folders.Drive :=
  {| Folders.files_get := fun _ _ _ => Ok VUndefined;
     Folders.files_list := fun _ _ _ _ _ =>
       Ok (Some (if held
                 then [mkFile (VStr "CARPETA_1") (VStr "Deal_77") VUndefined]
                 else []));
     Folders.files_create := fun _ _ name _ =>
       Ok (mkFile (VStr "CARPETA_2") (VStr name)
                  (VStr "https://drive.google.com/drive/folders/CARPETA_2")) |}.

(** A request to the folder route that made no call yet. *)
Definition folder_start : state unit Folders.drive_log := mkState [] tt [].

(** A sheet that lists one key twice. *)
Definition sample_twice : list (list scalar) :=
  [ map SStr ["template_key"; "doc_template_id"; "is_active"];
    map SStr ["DOBLE"; "DOC_A"; "TRUE"];
    map SStr ["DOBLE"; "DOC_B"; "TRUE"] ].

(** A sheet whose cell of required placeholders holds an object. *)
Definition sample_bad_cell : list (list scalar) :=
  [ map SStr ["template_key"; "required_placeholders"; "is_active"];
    map SStr ["ROTO"; "{}"; "TRUE"] ].

(** The configurations the two programs load from the sheet that lists
    one key twice. *)
Definition sample_twice_server : ServerJs.Config :=
  ServerJs.mkConfig
    (match @ServerJs.normalizeTemplates sample_runtime sample_twice with
     | Ok ts => ts
     | Throw _ => []
     end)
    [].

Definition sample_twice_part : Part000.Config :=
  match @Part000.build_config sample_runtime (Some sample_twice) None with
  | Ok config => config
  | Throw _ => Part000.mkConfig [] [] (VObj []) (VObj [])
  end.

(** * Properties *)

(** ** Dotted-path lookup *)

Section PathLookup.
Context {rt : Runtime}.

Lemma traverses_functional enter v ks r1 r2 :
  traverses enter v ks r1 -> traverses enter v ks r2 -> r1 = r2.
Proof.
  intros H1; revert r2.
  induction H1; intros r2 H2; inversion H2; subst; auto.
Qed.

Lemma walk_guard v k :
  is_nullish v || negb (typeof_object v) || negb (has_prop v k) = negb (enters_object v k).
Proof.
  destruct v; simpl; try reflexivity.
Qed.

Lemma walk_traverses segments :
  forall v,
    traverses enters_object v segments (ServerJs.walk segments v) \/
    (ServerJs.walk segments v = VUndefined /\
     forall r, ~ traverses enters_object v segments r).
Proof.
  induction segments as [|k ks IH]; intros v; simpl.
  - left; constructor.
  - rewrite walk_guard.
    destruct (enters_object v k) eqn:E; simpl.
    + destruct (IH (get_prop v k)) as [H | [H1 H2]].
      * left; constructor; assumption.
      * right; split; [assumption|].
        intros r Hr; inversion Hr; subst; eapply H2; eassumption.
    + right; split; [reflexivity|].
      intros r Hr; inversion Hr; subst; congruence.
Qed.

Lemma step_guard v k :
  Part000.step v k =
  if restricted_read v k then Throw restricted_error
  else Ok (if enters_defined v k then get_prop v k else VUndefined).
Proof.
  unfold Part000.step, enters_defined, read_prop.
  destruct (truthy v) eqn:Et; simpl.
  - destruct (restricted_read v k); simpl; [reflexivity|].
    destruct (get_prop v k); reflexivity.
  - destruct v; simpl in *; try discriminate; reflexivity.
Qed.

Lemma fold_step_undefined keys : rfold Part000.step keys VUndefined = Ok VUndefined.
Proof.
  induction keys as [|k ks IH]; simpl; [reflexivity|exact IH].
Qed.

Lemma enters_unrestricted v k : enters_defined v k = true -> restricted_read v k = false.
Proof.
  unfold enters_defined. destruct (restricted_read v k); [|reflexivity].
  rewrite andb_false_r. discriminate.
Qed.

Lemma fold_step_traverses keys :
  forall v r, traverses enters_defined v keys r -> rfold Part000.step keys v = Ok r.
Proof.
  induction keys as [|k ks IH]; intros v r H; inversion H; subst; simpl; [reflexivity|].
  rewrite step_guard.
  match goal with E : enters_defined v k = true |- _ =>
    rewrite (enters_unrestricted v k E), E end.
  simpl. apply IH. assumption.
Qed.

Lemma fold_step_trips keys :
  forall v, trips v keys -> rfold Part000.step keys v = Throw restricted_error.
Proof.
  induction keys as [|k ks IH]; intros v H; inversion H; subst; simpl.
  - rewrite step_guard.
    match goal with E : restricted_read v k = true |- _ => rewrite E end.
    reflexivity.
  - rewrite step_guard.
    match goal with E : enters_defined v k = true |- _ =>
      rewrite (enters_unrestricted v k E), E end.
    simpl. apply IH. assumption.
Qed.

(** The three ways a walk of [getByPath] can go. *)
Lemma fold_step_cases keys :
  forall v,
    (exists r, traverses enters_defined v keys r) \/
    trips v keys \/
    ((forall r, ~ traverses enters_defined v keys r) /\ ~ trips v keys /\
     rfold Part000.step keys v = Ok VUndefined).
Proof.
  induction keys as [|k ks IH]; intros v.
  - left. exists v. constructor.
  - destruct (restricted_read v k) eqn:Er.
    { right. left. constructor. exact Er. }
    destruct (enters_defined v k) eqn:E.
    + destruct (IH (get_prop v k)) as [[r H] | [H | [H1 [H2 H3]]]].
      * left. exists r. constructor; assumption.
      * right. left. apply trips_later; assumption.
      * right. right. split; [|split].
        -- intros r Hr. inversion Hr; subst. eapply H1; eassumption.
        -- intros Ht. inversion Ht; subst; [congruence|]. apply H2. assumption.
        -- simpl. rewrite step_guard, Er, E. simpl. exact H3.
    + right. right. split; [|split].
      * intros r Hr. inversion Hr; subst. congruence.
      * intros Ht. inversion Ht; subst; congruence.
      * simpl. rewrite step_guard, Er, E. simpl. apply fold_step_undefined.
Qed.

Lemma traverses_trips_clash enter_keys :
  forall v r, traverses enters_defined v enter_keys r -> trips v enter_keys -> False.
Proof.
  induction enter_keys as [|k ks IH]; intros v r Ht Hp; inversion Ht; subst;
    inversion Hp; subst.
  - match goal with E : enters_defined v k = true |- _ =>
      pose proof (enters_unrestricted v k E) end. congruence.
  - eapply IH; eassumption.
Qed.

Lemma getValueByPath_string obj p :
  ServerJs.getValueByPath obj (VStr p) = Ok (ServerJs.walk (split_dot p) obj).
Proof. reflexivity. Qed.

Lemma getByPath_string obj p :
  Part000.getByPath obj (VStr p) =
  if String.eqb p EmptyString then Ok VUndefined
  else rfold Part000.step (split_dot p) obj.
Proof.
  unfold Part000.getByPath; simpl.
  destruct (String.eqb p EmptyString); reflexivity.
Qed.

(** The check of the required placeholders in [src/server.js] returns on
    every payload when the paths are strings. *)
Lemma missing_check_returns payload (paths : list string) :
  rfilter (fun path =>
             let? value := ServerJs.getValueByPath payload path in
             Ok (is_missing value))
          (map VStr paths) =
  Ok (filter (fun path =>
                is_missing (ServerJs.walk (match path with
                                           | VStr p => split_dot p
                                           | _ => []
                                           end) payload))
             (map VStr paths)).
Proof.
  induction paths as [|p ps IH]; simpl; [reflexivity|].
  rewrite IH; simpl. reflexivity.
Qed.

(** C10, as amended.  [getValueByPath] of [src/server.js] returns on
    every value and every path string, never throwing: it answers the value
    reached when every segment of the path can be traversed, and
    [undefined] otherwise; so the check of the required placeholders of
    [src/server.js] returns for every payload.  [getByPath] of
    [src/unnamed/part_000] answers [undefined] for the empty path, the
    value reached when every segment can be traversed, and [undefined]
    when a segment cannot; but when the walk comes to a function and the
    segment names its [caller] or its [arguments], it throws a
    [TypeError].  One of the three always is the case, and no walk both
    traverses its path and comes to a read that throws. *)
Theorem path_helpers_total (obj : value) (p : string) :
  (exists v,
      ServerJs.getValueByPath obj (VStr p) = Ok v /\
      (traverses enters_object obj (split_dot p) v \/
       (v = VUndefined /\ forall r, ~ traverses enters_object obj (split_dot p) r))) /\
  (p = EmptyString -> Part000.getByPath obj (VStr p) = Ok VUndefined) /\
  (p <> EmptyString ->
   (forall v, traverses enters_defined obj (split_dot p) v ->
              Part000.getByPath obj (VStr p) = Ok v) /\
   (trips obj (split_dot p) ->
    exists e, Part000.getByPath obj (VStr p) = Throw e /\ err_name e = "TypeError") /\
   ((forall r, ~ traverses enters_defined obj (split_dot p) r) ->
    ~ trips obj (split_dot p) ->
    Part000.getByPath obj (VStr p) = Ok VUndefined) /\
   ((exists v, traverses enters_defined obj (split_dot p) v) \/
    trips obj (split_dot p) \/
    ((forall r, ~ traverses enters_defined obj (split_dot p) r) /\
     ~ trips obj (split_dot p))) /\
   (forall v, traverses enters_defined obj (split_dot p) v -> ~ trips obj (split_dot p))) /\
  (forall paths : list string,
      exists missing,
        rfilter (fun path =>
                   let? value := ServerJs.getValueByPath obj path in
                   Ok (is_missing value))
                (map VStr paths) = Ok missing).
Proof.
  split; [|split; [|split]].
  - exists (ServerJs.walk (split_dot p) obj); split.
    + apply getValueByPath_string.
    + destruct (walk_traverses (split_dot p) obj) as [H | [H1 H2]]; [left | right]; auto.
  - intros ->. reflexivity.
  - intros Hp. rewrite getByPath_string.
    apply String.eqb_neq in Hp. rewrite Hp.
    split; [|split; [|split; [|split]]].
    + intros v Hv. apply fold_step_traverses, Hv.
    + intros Ht. exists restricted_error. split; [apply fold_step_trips, Ht|reflexivity].
    + intros Hno Hnt.
      destruct (fold_step_cases (split_dot p) obj) as [[r H] | [H | [_ [_ H]]]].
      * destruct (Hno r H).
      * destruct (Hnt H).
      * exact H.
    + destruct (fold_step_cases (split_dot p) obj) as [H | [H | [H1 [H2 _]]]]; auto.
    + intros v Hv Ht. eapply traverses_trips_clash; eassumption.
  - intros paths. rewrite missing_check_returns. eexists; reflexivity.
Qed.

End PathLookup.

(** ** File names *)

Section FileNames.
Context {rt : Runtime}.































End FileNames.

(** ** JSON array fields of the configuration *)

Section JsonFields.
Context {rt : Runtime}.

Lemma parseJsonArray_cases raw fieldName :
  truthy raw = true ->
  (exists items, parses_as_array raw items /\
                 ServerJs.parseJsonArray raw fieldName = Ok items) \/
  ((forall items, ~ parses_as_array raw items) /\
   exists reason,
     ServerJs.parseJsonArray raw fieldName =
     Throw (Error_ ("Invalid JSON in " +++ fieldName +++ ": " +++ reason))).
Proof.
  intros Ht. unfold ServerJs.parseJsonArray. rewrite Ht; simpl.
  destruct (ToString raw) as [text|e] eqn:Etext; simpl.
  - destruct (JSON_parse text) as [v|msg] eqn:Eparse.
    + destruct v;
        try (right; split;
             [intros items [text' [H1 H2]]; congruence|eexists; reflexivity]).
      left. exists items. split; [exists text; auto|reflexivity].
    + right. split; [intros items [text' [H1 H2]]; congruence|eexists; reflexivity].
  - right. split; [intros items [text' [H1 H2]]; congruence|eexists; reflexivity].
Qed.


End JsonFields.

(** ** The existence poll of [src/unnamed/part_000] *)

(** Unfolds the operations of the request monad. *)
Ltac run :=
  cbv beta iota zeta
      delta [bind ret throw lift try_catch perform observe request both
             get_cache set_cache get_local set_local].

Section Poll.
Context {rt : Runtime} {w : World} {C L : Type}.

Lemma waitForFile_loop_polled fileId ds :
  forall s : state C L,
  exists events,
    fst (Part000.waitForFile_loop fileId ds s) =
      mkState (st_trace s ++ events) (st_cache s) (st_local s) /\
    polled fileId ds events (snd (Part000.waitForFile_loop fileId ds s)).
Proof.
  induction ds as [|delay rest IH]; intros s; simpl.
  - exists []. rewrite app_nil_r. destruct s; split; [reflexivity|constructor].
  - unfold Part000.check_once. run.
    destruct (drive_files_get (st_trace s) fileId) as [[]|e] eqn:E; run.
    + exists [mkEvent (CDriveGet fileId) Done]. split; [reflexivity|apply polled_found].
    + destruct (Part000.notFound e) eqn:Enf; simpl; run.
      * destruct (IH (log (CSleep delay) Done (log (CDriveGet fileId) (Failed e) s)))
          as [events [H1 H2]].
        exists (mkEvent (CDriveGet fileId) (Failed e) :: mkEvent (CSleep delay) Done :: events).
        split.
        -- rewrite H1. simpl. rewrite <- !app_assoc. reflexivity.
        -- constructor; assumption.
      * unfold throw; simpl.
        exists [mkEvent (CDriveGet fileId) (Failed e)].
        split; [reflexivity|apply polled_rethrown; assumption].
Qed.

Lemma polled_checks fileId ds events r :
  polled fileId ds events r ->
  (List.length (filter is_file_check events) <= List.length ds)%nat.
Proof.
  induction 1; simpl; lia.
Qed.

Lemma polled_sleeps fileId ds events r :
  polled fileId ds events r ->
  exists k, sleeps events = firstn k ds.
Proof.
  induction 1.
  - exists 0%nat; reflexivity.
  - exists 0%nat; reflexivity.
  - exists 0%nat; reflexivity.
  - destruct IHpolled as [k Hk]. exists (S k). simpl. now rewrite Hk.
Qed.

(** C8, as amended.  [waitForFile] always returns or throws, after at
    most six existence checks: each not-found failure is followed by its
    sleep and the next check, the sleeps being the first delays of the
    strictly increasing list 200, 350, 550, 800, 1200, 1600; the first
    check that succeeds ends the loop with [true]; an error that is not a
    not-found error is thrown again at once; and once the six delays are
    used up the error [File not found (after retries)] is thrown.  Nothing
    but the trace changes. *)
Theorem waitForFile_bounded (fileId : string) (s : state C L) :
  exists events,
    fst (Part000.waitForFile fileId s) =
      mkState (st_trace s ++ events) (st_cache s) (st_local s) /\
    polled fileId Part000.delays events (snd (Part000.waitForFile fileId s)) /\
    (List.length (filter is_file_check events) <= 6)%nat /\
    (exists k, sleeps events = firstn k Part000.delays) /\
    Part000.delays = [200; 350; 550; 800; 1200; 1600]%Z /\
    StronglySorted Z.lt Part000.delays.
Proof.
  destruct (waitForFile_loop_polled fileId Part000.delays s) as [events [H1 H2]].
  exists events. split; [exact H1|]. split; [exact H2|].
  split; [apply (polled_checks _ _ _ _ H2)|].
  split; [apply (polled_sleeps _ _ _ _ H2)|].
  split; [reflexivity|].
  unfold Part000.delays.
  repeat (constructor; [|repeat (constructor; try reflexivity)]). constructor.
Qed.

End Poll.

(** ** Only active records are loaded *)

Section ActiveRecords.
Context {rt : Runtime} {w : World}.

Lemma rfilter_filter {A : Type} (f : A -> result bool) l kept :
  rfilter f l = Ok kept ->
  kept = filter (fun a => match f a with Ok true => true | _ => false end) l.
Proof.
  revert kept. induction l as [|a l IH]; simpl; intros kept H.
  - now injection H as <-.
  - destruct (f a) as [b|e]; simpl in H; [|discriminate].
    destruct (rfilter f l) as [kept'|e]; simpl in H; [|discriminate].
    injection H as <-. rewrite (IH kept' eq_refl). destruct b; reflexivity.
Qed.

Lemma rmap_Forall2 {A B : Type} (f : A -> result B) l out :
  rmap f l = Ok out -> Forall2 (fun a b => f a = Ok b) l out.
Proof.
  revert out. induction l as [|a l IH]; simpl; intros out H.
  - injection H as <-. constructor.
  - destruct (f a) as [b|e] eqn:E; simpl in H; [|discriminate].
    destruct (rmap f l) as [bs|e]; simpl in H; [|discriminate].
    injection H as <-. constructor; auto.
Qed.








(** The same for [src/unnamed/part_000]. *)

Lemma part_template_flag row t :
  Part000.template_of_row row = Ok t ->
  exists b, Part000.toBool (get_prop row "is_active") = Ok b /\
            own_prop t "is_active" = Some (VBool b).
Proof.
  unfold Part000.template_of_row.
  destruct (Part000.toBool (get_prop row "keep_intermediate_doc")); simpl; [|discriminate].
  destruct (Part000.toBool (get_prop row "is_active")) as [b|]; simpl; [|discriminate].
  intros H; injection H as <-. exists b; split; reflexivity.
Qed.

Lemma part_package_flag row t :
  Part000.package_of_row row = Ok t ->
  exists b, Part000.toBool (get_prop row "is_active") = Ok b /\
            own_prop t "is_active" = Some (VBool b).
Proof.
  unfold Part000.package_of_row.
  destruct (Part000.toBool (get_prop row "is_active")) as [b|]; simpl; [|discriminate].
  intros H; injection H as <-. exists b; split; reflexivity.
Qed.

(** A record kept by the filter on [is_active] was built from a row whose
    cell coerces to [true]. *)
Lemma active_only_kept (build : value -> result value) rows mapped :
  (forall row t, build row = Ok t ->
                 exists b, Part000.toBool (get_prop row "is_active") = Ok b /\
                           own_prop t "is_active" = Some (VBool b)) ->
  Forall2 (fun row t => build row = Ok t) rows mapped ->
  Forall (fun t => active t /\
                   exists row, In row rows /\
                               coerces_true Part000.toBool row = true /\
                               build row = Ok t)
         (Part000.active_only mapped).
Proof.
  intros Hflag. induction 1 as [|row t rows mapped Hb H2 IH]; simpl; [constructor|].
  assert (IH' : Forall (fun t0 => active t0 /\
                          exists row0, In row0 (row :: rows) /\
                                       coerces_true Part000.toBool row0 = true /\
                                       build row0 = Ok t0)
                       (Part000.active_only mapped)).
  { eapply Forall_impl; [|exact IH].
    intros t0 [Ha [row0 [Hin Hrest]]]. split; [assumption|].
    exists row0; split; [right; assumption|assumption]. }
  destruct (Hflag row t Hb) as [b [Hcoerce Hown]].
  unfold get_prop at 1. rewrite Hown. destruct b; simpl; [|exact IH'].
  constructor; [|exact IH'].
  split; [exact Hown|].
  exists row; split; [left; reflexivity|].
  split; [|assumption].
  unfold coerces_true. now rewrite Hcoerce.
Qed.

Lemma assoc_define_field fields k v q :
  assoc q (define_field fields k v) =
  if String.eqb k q then Some v else assoc q fields.
Proof.
  induction fields as [|[k' v'] rest IH]; simpl; [reflexivity|].
  destruct (String.eqb k' k) eqn:E; simpl.
  - apply String.eqb_eq in E; subst k'.
    destruct (String.eqb k q); reflexivity.
  - rewrite IH. destruct (String.eqb k' q) eqn:E'; [|reflexivity].
    apply String.eqb_eq in E'; subst k'.
    rewrite String.eqb_sym, E. reflexivity.
Qed.

Lemma fold_define_In entries :
  forall acc q v,
    assoc q (fold_left (fun fields e => define_field fields (fst e) (snd e)) entries acc)
      = Some v ->
    In (q, v) entries \/ assoc q acc = Some v.
Proof.
  induction entries as [|[k x] rest IH]; simpl; intros acc q v H; [right; assumption|].
  destruct (IH _ _ _ H) as [Hin | Hacc]; [left; right; assumption|].
  rewrite assoc_define_field in Hacc.
  destruct (String.eqb k q) eqn:E; [|right; assumption].
  apply String.eqb_eq in E; subst k. injection Hacc as ->. left; left; reflexivity.
Qed.

Lemma index_by_named key records table :
  Part000.index_by key records = Ok table ->
  forall q t, own_prop table q = Some t ->
              In t records /\ ToString (get_prop t key) = Ok q.
Proof.
  unfold Part000.index_by.
  destruct (rmap _ records) as [entries|e] eqn:E; simpl; [|discriminate].
  intros H; injection H as <-. intros q t Hown. simpl in Hown.
  apply fold_define_In in Hown as [Hin | Hnil]; [|discriminate].
  apply rmap_Forall2 in E.
  clear - E Hin. induction E as [|r e rs es Hr HF IH]; simpl in *; [contradiction|].
  destruct Hin as [-> | Hin].
  - destruct (ToString (get_prop r key)) as [k|] eqn:Ek; simpl in Hr; [|discriminate].
    injection Hr as -> ->. split; [left; reflexivity|exact Ek].
  - destruct (IH Hin) as [H1 H2]. split; [right; exact H1|exact H2].
Qed.

Lemma index_by_own key records table :
  Part000.index_by key records = Ok table ->
  forall q t, own_prop table q = Some t -> In t records.
Proof.
  intros H q t Hown. apply (index_by_named key records table H q t Hown).
Qed.

Lemma build_config_active tv pv cfg :
  Part000.build_config tv pv = Ok cfg ->
  Forall (fun t => active t /\
                   exists row, In row (Part000.rowsToObjects tv) /\
                               coerces_true Part000.toBool row = true /\
                               Part000.template_of_row row = Ok t)
         (Part000.templates cfg) /\
  Forall (fun p => active p /\
                   exists row, In row (Part000.rowsToObjects pv) /\
                               coerces_true Part000.toBool row = true /\
                               Part000.package_of_row row = Ok p)
         (Part000.exam_packages cfg) /\
  (forall q t, own_prop (Part000.byTemplateKey cfg) q = Some t ->
               In t (Part000.templates cfg)) /\
  (forall q p, own_prop (Part000.byPackageKey cfg) q = Some p ->
               In p (Part000.exam_packages cfg)).
Proof.
  unfold Part000.build_config.
  destruct (rmap Part000.template_of_row _) as [mt|e] eqn:Et; simpl; [|discriminate].
  destruct (rmap Part000.package_of_row _) as [mp|e] eqn:Ep; simpl; [|discriminate].
  destruct (Part000.index_by "template_key" _) as [byT|e] eqn:EbT; simpl; [|discriminate].
  destruct (Part000.index_by "package_key" _) as [byP|e] eqn:EbP; simpl; [|discriminate].
  intros H; injection H as <-. simpl.
  apply rmap_Forall2 in Et, Ep.
  split; [eapply active_only_kept; [apply part_template_flag|exact Et]|].
  split; [eapply active_only_kept; [apply part_package_flag|exact Ep]|].
  split; [eapply index_by_own; exact EbT|eapply index_by_own; exact EbP].
Qed.

End ActiveRecords.

(** ** The configuration cache *)

Section ConfigCache.
Context {rt : Runtime} {w : World} {L : Type}.

(** [refresh] of [src/server.js], unfolded: both ranges are read; if both
    reads and both normalisations succeed, the clock is read and the cache
    is replaced; otherwise the cache is left as it was. *)
Lemma server_refresh_unfold (s : state ServerJs.configCache L) :
  let t2 := st_trace s ++ sheet_reads "templates!A:Z" "exam_packages!A:Z" (st_trace s) in
  ServerJs.refresh s =
  match
    (let? sheets := sheets_read "templates!A:Z" "exam_packages!A:Z" (st_trace s) in
     let? ts := ServerJs.normalizeTemplates (rows_of (fst sheets)) in
     let? ps := ServerJs.normalizeExamPackages (rows_of (snd sheets)) in
     Ok (ServerJs.mkConfig ts ps))
  with
  | Ok config =>
      (mkState (t2 ++ [mkEvent CNow Done])
               (ServerJs.mkCache (Date_now t2 + ServerJs.CONFIG_TTL_MS) (Some config))
               (st_local s),
       Ok config)
  | Throw e => (mkState t2 (st_cache s) (st_local s), Throw e)
  end.
Proof.
  unfold ServerJs.refresh, ServerJs.readSheet, sheet_reads, sheets_read. run.
  destruct s as [t c l]; simpl.
  destruct (first_settles t); simpl.
  - destruct (sheets_values_get t "templates!A:Z") as [v1|e1]; simpl;
      destruct (sheets_values_get _ "exam_packages!A:Z") as [v2|e2]; simpl;
      unfold log; simpl; rewrite <- ?app_assoc; simpl; try reflexivity.
    destruct (ServerJs.normalizeTemplates _); simpl; [|reflexivity].
    destruct (ServerJs.normalizeExamPackages _); simpl; rewrite <- ?app_assoc; reflexivity.
  - destruct (sheets_values_get t "exam_packages!A:Z") as [v2|e2]; simpl;
      destruct (sheets_values_get _ "templates!A:Z") as [v1|e1]; simpl;
      unfold log; simpl; rewrite <- ?app_assoc; simpl; try reflexivity.
    destruct (ServerJs.normalizeTemplates _); simpl; [|reflexivity].
    destruct (ServerJs.normalizeExamPackages _); simpl; rewrite <- ?app_assoc; reflexivity.
Qed.

Lemma server_loadConfig_hit (s : state ServerJs.configCache L) config :
  ServerJs.data (st_cache s) = Some config ->
  (Date_now (st_trace s) <? ServerJs.expiresAt (st_cache s))%Z = true ->
  ServerJs.loadConfig s = (log CNow Done s, Ok config).
Proof.
  intros Hd Hn. unfold ServerJs.loadConfig, ServerJs.cached. run.
  rewrite Hd. run. rewrite Hn. reflexivity.
Qed.

Lemma server_loadConfig_stale (s : state ServerJs.configCache L) config :
  ServerJs.data (st_cache s) = Some config ->
  (Date_now (st_trace s) <? ServerJs.expiresAt (st_cache s))%Z = false ->
  ServerJs.loadConfig s = ServerJs.refresh (log CNow Done s).
Proof.
  intros Hd Hn. unfold ServerJs.loadConfig, ServerJs.cached. run.
  rewrite Hd. run. rewrite Hn. reflexivity.
Qed.

Lemma server_loadConfig_empty (s : state ServerJs.configCache L) :
  ServerJs.data (st_cache s) = None ->
  ServerJs.loadConfig s = ServerJs.refresh s.
Proof.
  intros Hd. unfold ServerJs.loadConfig, ServerJs.cached. run.
  rewrite Hd. reflexivity.
Qed.

(** [refresh] of [src/unnamed/part_000], unfolded. *)
Lemma part_refresh_unfold (now : Z) (s : state Part000.CONFIG_CACHE L) :
  env_set "SHEETS_SPREADSHEET_ID" = true ->
  let t2 := st_trace s ++ sheet_reads "templates!A:K" "exam_packages!A:G" (st_trace s) in
  Part000.refresh now s =
  match
    (let? sheets := sheets_read "templates!A:K" "exam_packages!A:G" (st_trace s) in
     Part000.build_config (fst sheets) (snd sheets))
  with
  | Ok config =>
      (mkState t2 (Part000.mkCache now (Part000.ttlMs (st_cache s)) (Some config))
               (st_local s),
       Ok config)
  | Throw e => (mkState t2 (st_cache s) (st_local s), Throw e)
  end.
Proof.
  intros Henv. unfold Part000.refresh, sheet_reads, sheets_read. rewrite Henv. simpl. run.
  destruct s as [t c l]; simpl.
  destruct (first_settles t); simpl.
  - destruct (sheets_values_get t "templates!A:K") as [v1|e1]; simpl;
      destruct (sheets_values_get _ "exam_packages!A:G") as [v2|e2]; simpl;
      unfold log; simpl; rewrite <- ?app_assoc; simpl; reflexivity.
  - destruct (sheets_values_get t "exam_packages!A:G") as [v2|e2]; simpl;
      destruct (sheets_values_get _ "templates!A:K") as [v1|e1]; simpl;
      unfold log; simpl; rewrite <- ?app_assoc; simpl; reflexivity.
Qed.

Lemma part_refresh_no_sheet (now : Z) (s : state Part000.CONFIG_CACHE L) :
  env_set "SHEETS_SPREADSHEET_ID" = false ->
  Part000.refresh now s = (s, Throw (Error_ "Missing env: SHEETS_SPREADSHEET_ID")).
Proof.
  intros Henv. unfold Part000.refresh. rewrite Henv. reflexivity.
Qed.

Lemma part_loadConfig_unfold (s : state Part000.CONFIG_CACHE L) :
  Part000.loadConfig s =
  match Part000.cached (Date_now (st_trace s)) (st_cache s) with
  | Some config => (log CNow Done s, Ok config)
  | None => Part000.refresh (Date_now (st_trace s)) (log CNow Done s)
  end.
Proof.
  unfold Part000.loadConfig. run. simpl.
  destruct (Part000.cached _ _); reflexivity.
Qed.

End ConfigCache.

Section CacheInvariant.
Context {rt : Runtime} {w : World} {L : Type}.

Lemma server_refresh_result (s : state ServerJs.configCache L) :
  (exists e, snd (ServerJs.refresh s) = Throw e /\
             st_cache (fst (ServerJs.refresh s)) = st_cache s) \/
  (exists T v1 v2 config,
      snd (ServerJs.refresh s) = Ok config /\
      st_cache (fst (ServerJs.refresh s)) =
        ServerJs.mkCache (T + ServerJs.CONFIG_TTL_MS) (Some config) /\
      sheets_read "templates!A:Z" "exam_packages!A:Z" (st_trace s) = Ok (v1, v2) /\
      ServerJs.normalizeTemplates (rows_of v1) = Ok (ServerJs.templates config) /\
      ServerJs.normalizeExamPackages (rows_of v2) = Ok (ServerJs.exam_packages config)).
Proof.
  rewrite server_refresh_unfold.
  destruct (sheets_read _ _ _) as [[v1 v2]|e]; simpl; [|left; eexists; split; reflexivity].
  destruct (ServerJs.normalizeTemplates _) as [ts|e] eqn:Et; simpl;
    [|left; eexists; split; reflexivity].
  destruct (ServerJs.normalizeExamPackages _) as [ps|e] eqn:Ep; simpl;
    [|left; eexists; split; reflexivity].
  right. eexists _, v1, v2, _. repeat split; simpl; try reflexivity; assumption.
Qed.

Lemma server_refresh_stamp (s : state ServerJs.configCache L) config :
  snd (ServerJs.refresh s) = Ok config ->
  let t2 := st_trace s ++ sheet_reads "templates!A:Z" "exam_packages!A:Z" (st_trace s) in
  fst (ServerJs.refresh s) =
    mkState (t2 ++ [mkEvent CNow Done])
            (ServerJs.mkCache (Date_now t2 + ServerJs.CONFIG_TTL_MS) (Some config))
            (st_local s).
Proof.
  rewrite server_refresh_unfold. cbv zeta.
  destruct (let? sheets := _ in _) as [cfg|e]; simpl; [|discriminate].
  intros H; injection H as <-. reflexivity.
Qed.

Lemma sheet_reads_both range1 range2 (t : trace) :
  reads_of range1 range2 (sheet_reads range1 range2 t).
Proof.
  unfold sheet_reads, reads_of.
  destruct (first_settles t); eexists _, _; [left|right]; reflexivity.
Qed.

Lemma server_refresh_reads (s : state ServerJs.configCache L) :
  exists reads rest,
    st_trace (fst (ServerJs.refresh s)) = st_trace s ++ reads ++ rest /\
    reads_of "templates!A:Z" "exam_packages!A:Z" reads.
Proof.
  rewrite server_refresh_unfold.
  exists (sheet_reads "templates!A:Z" "exam_packages!A:Z" (st_trace s)).
  destruct (let? sheets := _ in _); simpl.
  - exists [mkEvent CNow Done]. split; [symmetry; apply app_assoc|apply sheet_reads_both].
  - exists []. rewrite app_nil_r. split; [reflexivity|apply sheet_reads_both].
Qed.



Lemma part_refresh_result (now : Z) (s : state Part000.CONFIG_CACHE L) :
  (exists e, snd (Part000.refresh now s) = Throw e /\
             st_cache (fst (Part000.refresh now s)) = st_cache s) \/
  (exists v1 v2 config,
      env_set "SHEETS_SPREADSHEET_ID" = true /\
      snd (Part000.refresh now s) = Ok config /\
      st_cache (fst (Part000.refresh now s)) =
        Part000.mkCache now (Part000.ttlMs (st_cache s)) (Some config) /\
      sheets_read "templates!A:K" "exam_packages!A:G" (st_trace s) = Ok (v1, v2) /\
      Part000.build_config v1 v2 = Ok config).
Proof.
  destruct (env_set "SHEETS_SPREADSHEET_ID") eqn:Henv.
  - rewrite (part_refresh_unfold now s Henv).
    destruct (sheets_read _ _ _) as [[v1 v2]|e]; simpl; [|left; eexists; split; reflexivity].
    destruct (Part000.build_config v1 v2) as [cfg|e] eqn:Eb; simpl;
      [|left; eexists; split; reflexivity].
    right. exists v1, v2, cfg. repeat split; assumption.
  - rewrite (part_refresh_no_sheet now s Henv). left; eexists; split; reflexivity.
Qed.

Lemma part_refresh_reads (now : Z) (s : state Part000.CONFIG_CACHE L) :
  env_set "SHEETS_SPREADSHEET_ID" = true ->
  exists reads,
    st_trace (fst (Part000.refresh now s)) = st_trace s ++ reads /\
    reads_of "templates!A:K" "exam_packages!A:G" reads.
Proof.
  intros Henv. rewrite (part_refresh_unfold now s Henv).
  exists (sheet_reads "templates!A:K" "exam_packages!A:G" (st_trace s)).
  destruct (let? sheets := _ in _); simpl; (split; [reflexivity|apply sheet_reads_both]).
Qed.




(** C9, as amended.  The configuration is cached for 60 seconds of clock
    time, counted from the clock reading [T] kept with it.  A call of
    [loadConfig] that reads the clock less than 60000 ms after [T] answers
    the stored configuration, reads no sheet and leaves the cache as it
    is; a later call, and a call on an empty cache, refreshes.  A refresh
    reads both ranges and, when both reads and the parsing succeed, puts
    the configuration built from the rows just read in place of the old
    one; otherwise it throws and leaves the cache as it was.  The reading
    kept is, in [src/server.js], the one taken when the configuration is
    stored, after the sheets were read; in [src/unnamed/part_000], the one
    taken at the start of the call, before they are read.  In
    [src/unnamed/part_000] a refresh presupposes the spreadsheet id, which
    is set whenever the cache holds a configuration: without it the
    refresh throws before any read. *)
Theorem config_cached_60s (t : trace) (l : L) (T : Z) :
  ServerJs.CONFIG_TTL_MS = 60000%Z /\
  (forall config,
      let s := mkState t (ServerJs.mkCache (T + ServerJs.CONFIG_TTL_MS) (Some config)) l in
      ((Date_now t - T < 60000)%Z ->
       ServerJs.loadConfig s = (log CNow Done s, Ok config)) /\
      ((60000 <= Date_now t - T)%Z ->
       ServerJs.loadConfig s = ServerJs.refresh (log CNow Done s))) /\
  (forall s : state ServerJs.configCache L,
      (exists reads rest,
          st_trace (fst (ServerJs.refresh s)) = st_trace s ++ reads ++ rest /\
          reads_of "templates!A:Z" "exam_packages!A:Z" reads) /\
      ((exists e, snd (ServerJs.refresh s) = Throw e /\
                  st_cache (fst (ServerJs.refresh s)) = st_cache s) \/
       (exists T' v1 v2 config,
           snd (ServerJs.refresh s) = Ok config /\
           st_cache (fst (ServerJs.refresh s)) =
             ServerJs.mkCache (T' + ServerJs.CONFIG_TTL_MS) (Some config) /\
           sheets_read "templates!A:Z" "exam_packages!A:Z" (st_trace s) = Ok (v1, v2) /\
           ServerJs.normalizeTemplates (rows_of v1) = Ok (ServerJs.templates config) /\
           ServerJs.normalizeExamPackages (rows_of v2) = Ok (ServerJs.exam_packages config)))) /\
  (forall config,
      let s := mkState t (Part000.mkCache T 60000 (Some config)) l in
      ((Date_now t - T < 60000)%Z ->
       Part000.loadConfig s = (log CNow Done s, Ok config)) /\
      ((60000 <= Date_now t - T)%Z ->
       Part000.loadConfig s = Part000.refresh (Date_now t) (log CNow Done s))) /\
  (forall (now : Z) (s : state Part000.CONFIG_CACHE L),
      (env_set "SHEETS_SPREADSHEET_ID" = true ->
       exists reads,
         st_trace (fst (Part000.refresh now s)) = st_trace s ++ reads /\
         reads_of "templates!A:K" "exam_packages!A:G" reads) /\
      ((exists e, snd (Part000.refresh now s) = Throw e /\
                  st_cache (fst (Part000.refresh now s)) = st_cache s) \/
       (exists v1 v2 config,
           env_set "SHEETS_SPREADSHEET_ID" = true /\
           snd (Part000.refresh now s) = Ok config /\
           st_cache (fst (Part000.refresh now s)) =
             Part000.mkCache now (Part000.ttlMs (st_cache s)) (Some config) /\
           sheets_read "templates!A:K" "exam_packages!A:G" (st_trace s) = Ok (v1, v2) /\
           Part000.build_config v1 v2 = Ok config))) /\
  (forall s : state Part000.CONFIG_CACHE L,
      (Part000.data (st_cache s) <> None -> env_set "SHEETS_SPREADSHEET_ID" = true) ->
      Part000.data (st_cache (fst (Part000.loadConfig s))) <> None ->
      env_set "SHEETS_SPREADSHEET_ID" = true) /\
  (forall s : state ServerJs.configCache L,
      ServerJs.data (st_cache s) = None -> ServerJs.loadConfig s = ServerJs.refresh s) /\
  (forall (s : state ServerJs.configCache L) config,
      snd (ServerJs.refresh s) = Ok config ->
      let read :=
        st_trace s ++ sheet_reads "templates!A:Z" "exam_packages!A:Z" (st_trace s) in
      fst (ServerJs.refresh s) =
        mkState (read ++ [mkEvent CNow Done])
                (ServerJs.mkCache (Date_now read + ServerJs.CONFIG_TTL_MS) (Some config))
                (st_local s)) /\
  (forall s : state Part000.CONFIG_CACHE L,
      Part000.data (st_cache s) = None ->
      Part000.loadConfig s = Part000.refresh (Date_now (st_trace s)) (log CNow Done s)) /\
  (forall (s : state ServerJs.configCache L) v1 v2 ts ps,
      sheets_read "templates!A:Z" "exam_packages!A:Z" (st_trace s) = Ok (v1, v2) ->
      ServerJs.normalizeTemplates (rows_of v1) = Ok ts ->
      ServerJs.normalizeExamPackages (rows_of v2) = Ok ps ->
      snd (ServerJs.refresh s) = Ok (ServerJs.mkConfig ts ps) /\
      ServerJs.data (st_cache (fst (ServerJs.refresh s))) = Some (ServerJs.mkConfig ts ps)) /\
  (forall (now : Z) (s : state Part000.CONFIG_CACHE L) v1 v2 config,
      env_set "SHEETS_SPREADSHEET_ID" = true ->
      sheets_read "templates!A:K" "exam_packages!A:G" (st_trace s) = Ok (v1, v2) ->
      Part000.build_config v1 v2 = Ok config ->
      snd (Part000.refresh now s) = Ok config /\
      st_cache (fst (Part000.refresh now s)) =
        Part000.mkCache now (Part000.ttlMs (st_cache s)) (Some config)) /\
  (forall (now : Z) (s : state Part000.CONFIG_CACHE L),
      env_set "SHEETS_SPREADSHEET_ID" = false ->
      exists e, Part000.refresh now s = (s, Throw e)).
Proof.
  split; [reflexivity|].
  split.
  { intros config s; split; intros H.
    - apply server_loadConfig_hit; [reflexivity|].
      simpl. apply Z.ltb_lt. unfold ServerJs.CONFIG_TTL_MS. lia.
    - apply (server_loadConfig_stale s config); [reflexivity|].
      simpl. apply Z.ltb_ge. unfold ServerJs.CONFIG_TTL_MS. lia. }
  split.
  { intros s. split; [apply server_refresh_reads|apply server_refresh_result]. }
  split.
  { intros config s; split; intros H; rewrite part_loadConfig_unfold;
      unfold Part000.cached; simpl.
    - replace (Date_now t - T <? 60000)%Z with true; [reflexivity|].
      symmetry; apply Z.ltb_lt; lia.
    - replace (Date_now t - T <? 60000)%Z with false; [reflexivity|].
      symmetry; apply Z.ltb_ge; lia. }
  split.
  { intros now s. split; [apply part_refresh_reads|apply part_refresh_result]. }
  split.
  { intros s Hinv. rewrite part_loadConfig_unfold.
    destruct (Part000.cached _ _) as [cfg|] eqn:Hc; simpl.
    - exact Hinv.
    - destruct (part_refresh_result (Date_now (st_trace s)) (log CNow Done s))
        as [[e [Hr Hk]] | [v1 [v2 [cfg [Henv _]]]]].
      + rewrite Hk. exact Hinv.
      + intros _. exact Henv. }
  split; [apply server_loadConfig_empty|].
  split; [apply server_refresh_stamp|].
  split.
  { intros s Hd. rewrite part_loadConfig_unfold. unfold Part000.cached.
    rewrite Hd. reflexivity. }
  split.
  { intros s v1 v2 ts ps Hr Ht Hp. rewrite server_refresh_unfold.
    rewrite Hr. cbn [rbind fst snd]. rewrite Ht, Hp. split; reflexivity. }
  split.
  { intros now s v1 v2 config Henv Hr Hb. rewrite (part_refresh_unfold now s Henv).
    rewrite Hr. cbn [rbind fst snd]. rewrite Hb. split; reflexivity. }
  intros now s Henv. eexists. apply part_refresh_no_sheet, Henv.
Qed.

End CacheInvariant.

(** ** What a computation adds to the trace *)

Section Traces.
Context {w : World} {C L : Type}.

Lemma emits_ret {A : Type} P (a : A) : emits P (ret a : M C L A).
Proof. intros s. exists []. simpl. rewrite app_nil_r. auto. Qed.

Lemma emits_throw {A : Type} P e : emits P (throw e : M C L A).
Proof. intros s. exists []. simpl. rewrite app_nil_r. auto. Qed.

Lemma emits_lift {A : Type} P (r : result A) : emits P (lift r : M C L A).
Proof. intros s. exists []. simpl. rewrite app_nil_r. auto. Qed.

Lemma emits_get_cache P : emits P (get_cache : M C L C).
Proof. intros s. exists []. simpl. rewrite app_nil_r. auto. Qed.

Lemma emits_set_cache P c : emits P (set_cache c : M C L unit).
Proof. intros s. exists []. simpl. rewrite app_nil_r. auto. Qed.

Lemma emits_get_local P : emits P (get_local : M C L L).
Proof. intros s. exists []. simpl. rewrite app_nil_r. auto. Qed.

Lemma emits_set_local P l : emits P (set_local l : M C L unit).
Proof. intros s. exists []. simpl. rewrite app_nil_r. auto. Qed.

Lemma emits_perform {A : Type} (P : event -> Prop) c (answer : trace -> result A) :
  (forall o, P (mkEvent c o)) -> emits P (perform c answer : M C L A).
Proof.
  intros HP s. unfold emits_at, perform.
  destruct (answer (st_trace s)); eexists; simpl; split; try reflexivity; auto.
Qed.

Lemma emits_observe {A : Type} (P : event -> Prop) c (answer : trace -> A) :
  (forall o, P (mkEvent c o)) -> emits P (observe c answer : M C L A).
Proof.
  intros HP s. unfold emits_at. eexists; simpl; split; try reflexivity; auto.
Qed.

Lemma emits_request (P : event -> Prop) c answer :
  (forall o, P (mkEvent c o)) -> emits P (request c answer : M C L (Z * string)).
Proof.
  intros HP s. unfold emits_at, request.
  destruct (answer (st_trace s)) as [[st txt]|e]; eexists; simpl; split;
    try reflexivity; auto.
Qed.

Lemma emits_at_bind {A B : Type} P (m : M C L A) (k : A -> M C L B) s :
  emits_at P m s ->
  (forall a, snd (m s) = Ok a -> emits_at P (k a) (fst (m s))) ->
  emits_at P (bind m k) s.
Proof.
  intros [ev1 [H1 F1]] Hk. unfold emits_at, bind.
  destruct (m s) as [s1 [a|e]]; simpl in *.
  - destruct (Hk a eq_refl) as [ev2 [H2 F2]]. exists (ev1 ++ ev2). split.
    + rewrite H2, H1. symmetry; apply app_assoc.
    + apply Forall_app; auto.
  - exists ev1; auto.
Qed.

Lemma emits_at_try_catch {A : Type} P (m : M C L A) (h : error -> M C L A) s :
  emits_at P m s -> (forall e, emits P (h e)) -> emits_at P (try_catch m h) s.
Proof.
  intros [ev1 [H1 F1]] Hh. unfold emits_at, try_catch.
  destruct (m s) as [s1 [a|e]]; simpl in *.
  - exists ev1; auto.
  - destruct (Hh e s1) as [ev2 [H2 F2]]. exists (ev1 ++ ev2). split.
    + rewrite H2, H1. symmetry; apply app_assoc.
    + apply Forall_app; auto.
Qed.

Lemma emits_bind {A B : Type} P (m : M C L A) (k : A -> M C L B) :
  emits P m -> (forall a, emits P (k a)) -> emits P (bind m k).
Proof.
  intros Hm Hk s. apply emits_at_bind; [apply Hm|intros a _; apply Hk].
Qed.

Lemma emits_try_catch {A : Type} P (m : M C L A) (h : error -> M C L A) :
  emits P m -> (forall e, emits P (h e)) -> emits P (try_catch m h).
Proof.
  intros Hm Hh s. apply emits_at_try_catch; [apply Hm|exact Hh].
Qed.

Lemma emits_both {A B : Type} P (m1 : M C L A) (m2 : M C L B) :
  emits P m1 -> emits P m2 -> emits P (both m1 m2).
Proof.
  intros H1 H2 s. unfold emits_at, both.
  destruct (first_settles (st_trace s)).
  - destruct (H1 s) as [ev1 [E1 F1]]. destruct (m1 s) as [s1 r1]; simpl in *.
    destruct (H2 s1) as [ev2 [E2 F2]]. destruct (m2 s1) as [s2 r2]; simpl in *.
    exists (ev1 ++ ev2). split.
    + rewrite E2, E1. symmetry; apply app_assoc.
    + apply Forall_app; auto.
  - destruct (H2 s) as [ev2 [E2 F2]]. destruct (m2 s) as [s2 r2]; simpl in *.
    destruct (H1 s2) as [ev1 [E1 F1]]. destruct (m1 s2) as [s1 r1]; simpl in *.
    exists (ev2 ++ ev1). split.
    + rewrite E1, E2. symmetry; apply app_assoc.
    + apply Forall_app; auto.
Qed.

Lemma emits_weaken {A : Type} (P Q : event -> Prop) (m : M C L A) :
  (forall e, P e -> Q e) -> emits P m -> emits Q m.
Proof.
  intros HPQ Hm s. destruct (Hm s) as [ev [H F]]. exists ev. split; [assumption|].
  eapply Forall_impl; eauto.
Qed.

(** The same for faithful reporting. *)

Lemma faithful_quiet {A : Type} fails (m : M C L A) :
  (forall s, fst (m s) = s) -> faithful fails m.
Proof.
  intros H s. exists []. rewrite H, app_nil_r. split; [reflexivity|].
  unfold reports. destruct (snd (m s)); [constructor|left; constructor].
Qed.

Lemma faithful_ret {A : Type} fails (a : A) : faithful fails (ret a : M C L A).
Proof. apply faithful_quiet; reflexivity. Qed.

Lemma faithful_throw {A : Type} fails e : faithful fails (throw e : M C L A).
Proof. apply faithful_quiet; reflexivity. Qed.

Lemma faithful_lift {A : Type} fails (r : result A) : faithful fails (lift r : M C L A).
Proof. apply faithful_quiet; reflexivity. Qed.

Lemma faithful_set_local fails l : faithful fails (set_local l : M C L unit).
Proof.
  intros s. exists []. simpl. rewrite app_nil_r. split; [reflexivity|constructor].
Qed.

Lemma faithful_set_cache fails c : faithful fails (set_cache c : M C L unit).
Proof.
  intros s. exists []. simpl. rewrite app_nil_r. split; [reflexivity|constructor].
Qed.

Lemma faithful_get_cache fails : faithful fails (get_cache : M C L C).
Proof. apply faithful_quiet; reflexivity. Qed.

Lemma faithful_perform {A : Type} fails c (answer : trace -> result A) :
  fails (mkEvent c Done) = None ->
  (forall e, fails (mkEvent c (Failed e)) = Some e) ->
  faithful fails (perform c answer : M C L A).
Proof.
  intros Hd Hf s. unfold perform.
  destruct (answer (st_trace s)) as [a|e]; eexists; simpl; split; try reflexivity.
  - constructor; auto.
  - right. exists [], (mkEvent c (Failed e)), []. repeat split; auto.
Qed.

Lemma faithful_observe {A : Type} fails c (answer : trace -> A) :
  fails (mkEvent c Done) = None ->
  faithful fails (observe c answer : M C L A).
Proof.
  intros Hd s. eexists; simpl; split; [reflexivity|]. constructor; auto.
Qed.

Lemma first_failure_after fails pre events e :
  Forall (fun x => fails x = None) pre ->
  first_failure fails events e ->
  first_failure fails (pre ++ events) e.
Proof.
  intros Hpre [p [ev [post [-> [Hp Hev]]]]].
  exists (pre ++ p), ev, post. rewrite app_assoc. repeat split; auto.
  apply Forall_app; auto.
Qed.

Lemma first_failure_before fails events post e :
  first_failure fails events e ->
  first_failure fails (events ++ post) e.
Proof.
  intros [p [ev [q [-> [Hp Hev]]]]].
  exists p, ev, (q ++ post). rewrite <- app_assoc. repeat split; auto.
Qed.

Lemma faithful_bind {A B : Type} fails (m : M C L A) (k : A -> M C L B) :
  faithful fails m -> (forall a, faithful fails (k a)) -> faithful fails (bind m k).
Proof.
  intros Hm Hk s. unfold bind.
  destruct (Hm s) as [ev1 [H1 F1]]. destruct (m s) as [s1 [a|e]]; simpl in *.
  - destruct (Hk a s1) as [ev2 [H2 F2]]. exists (ev1 ++ ev2). split.
    + rewrite H2, H1. symmetry; apply app_assoc.
    + unfold reports in *. destruct (snd (k a s1)).
      * apply Forall_app; auto.
      * destruct F2 as [F2 | F2]; [left; apply Forall_app; auto|].
        right. apply first_failure_after; assumption.
  - exists ev1; auto.
Qed.

(** [Promise.all] of two calls: the error thrown is the one of the call
    that failed first. *)
Lemma faithful_both_perform {A B : Type} fails c1 c2
    (a1 : trace -> result A) (a2 : trace -> result B) :
  fails (mkEvent c1 Done) = None -> fails (mkEvent c2 Done) = None ->
  (forall e, fails (mkEvent c1 (Failed e)) = Some e) ->
  (forall e, fails (mkEvent c2 (Failed e)) = Some e) ->
  faithful fails (both (perform c1 a1) (perform c2 a2) : M C L (A * B)).
Proof.
  intros D1 D2 F1 F2 s. unfold both, perform.
  destruct (first_settles (st_trace s)).
  - destruct (a1 (st_trace s)) as [x|e1]; simpl;
      destruct (a2 _) as [y|e2]; simpl;
      eexists; (split; [rewrite <- app_assoc; reflexivity|]); simpl.
    + repeat constructor; auto.
    + right. exists [mkEvent c1 Done], (mkEvent c2 (Failed e2)), [].
      repeat split; auto.
    + right. exists [], (mkEvent c1 (Failed e1)), [mkEvent c2 Done]. repeat split; auto.
    + right. exists [], (mkEvent c1 (Failed e1)), [mkEvent c2 (Failed e2)].
      repeat split; auto.
  - destruct (a2 (st_trace s)) as [y|e2]; simpl;
      destruct (a1 _) as [x|e1]; simpl;
      eexists; (split; [rewrite <- app_assoc; reflexivity|]); simpl.
    + repeat constructor; auto.
    + right. exists [mkEvent c2 Done], (mkEvent c1 (Failed e1)), [].
      repeat split; auto.
    + right. exists [], (mkEvent c2 (Failed e2)), [mkEvent c1 Done]. repeat split; auto.
    + right. exists [], (mkEvent c2 (Failed e2)), [mkEvent c1 (Failed e1)].
      repeat split; auto.
Qed.

Lemma faithful_try_quiet fails (m : M C L unit) :
  (forall s, exists events,
      st_trace (fst (m s)) = st_trace s ++ events /\
      Forall (fun x => fails x = None) events) ->
  faithful fails (try_catch m (fun _ => ret tt)).
Proof.
  intros Hm s. unfold try_catch. destruct (Hm s) as [ev [H F]].
  destruct (m s) as [s1 [[]|e]]; simpl in *; exists ev; split; auto.
Qed.

Lemma faithful_get_local fails : faithful fails (get_local : M C L L).
Proof. apply faithful_quiet; reflexivity. Qed.

(** The same when each call is followed by a conversion of its answer. *)
Lemma faithful_both_map {A A' B B' : Type} fails c1 c2
    (a1 : trace -> result A) (a2 : trace -> result B) (f : A -> A') (g : B -> B') :
  fails (mkEvent c1 Done) = None -> fails (mkEvent c2 Done) = None ->
  (forall e, fails (mkEvent c1 (Failed e)) = Some e) ->
  (forall e, fails (mkEvent c2 (Failed e)) = Some e) ->
  faithful fails (both (let* v := perform c1 a1 in ret (f v))
                       (let* v := perform c2 a2 in ret (g v)) : M C L (A' * B')).
Proof.
  intros D1 D2 F1 F2 s. unfold both, bind, perform, ret.
  destruct (first_settles (st_trace s)).
  - destruct (a1 (st_trace s)) as [x|e1]; simpl;
      destruct (a2 _) as [y|e2]; simpl;
      eexists; (split; [rewrite <- app_assoc; reflexivity|]); simpl.
    + repeat constructor; auto.
    + right. exists [mkEvent c1 Done], (mkEvent c2 (Failed e2)), [].
      repeat split; auto.
    + right. exists [], (mkEvent c1 (Failed e1)), [mkEvent c2 Done]. repeat split; auto.
    + right. exists [], (mkEvent c1 (Failed e1)), [mkEvent c2 (Failed e2)].
      repeat split; auto.
  - destruct (a2 (st_trace s)) as [y|e2]; simpl;
      destruct (a1 _) as [x|e1]; simpl;
      eexists; (split; [rewrite <- app_assoc; reflexivity|]); simpl.
    + repeat constructor; auto.
    + right. exists [mkEvent c2 Done], (mkEvent c1 (Failed e1)), [].
      repeat split; auto.
    + right. exists [], (mkEvent c2 (Failed e2)), [mkEvent c1 Done]. repeat split; auto.
    + right. exists [], (mkEvent c2 (Failed e2)), [mkEvent c1 (Failed e1)].
      repeat split; auto.
Qed.

(** An HTTP request whose answer the caller checks: a reply that counts as
    a failure makes the continuation throw the failure's error. *)
Lemma faithful_request {B : Type} fails c answer (k : Z * string -> M C L B) :
  (forall e, fails (mkEvent c (Failed e)) = Some e) ->
  (forall st txt,
      (fails (mkEvent c (Replied st txt)) = None /\ faithful fails (k (st, txt))) \/
      (exists e, fails (mkEvent c (Replied st txt)) = Some e /\
                 forall s, k (st, txt) s = (s, Throw e))) ->
  faithful fails (bind (request c answer) k).
Proof.
  intros Hf Hk s. unfold bind, request.
  destruct (answer (st_trace s)) as [[st txt]|e]; simpl.
  - destruct (Hk st txt) as [[Hn Hfa] | [e [He Hthrow]]].
    + destruct (Hfa (log c (Replied st txt) s)) as [ev [H1 F1]].
      exists (mkEvent c (Replied st txt) :: ev). split.
      * rewrite H1. simpl. rewrite <- app_assoc. reflexivity.
      * unfold reports in *. destruct (snd (k (st, txt) _)).
        -- constructor; auto.
        -- destruct F1 as [F1 | F1]; [left; constructor; auto|].
           right. apply (first_failure_after fails [mkEvent c (Replied st txt)]); auto.
    + rewrite Hthrow. simpl. exists [mkEvent c (Replied st txt)]. split; [reflexivity|].
      right. exists [], (mkEvent c (Replied st txt)), []. repeat split; auto.
  - exists [mkEvent c (Failed e)]. split; [reflexivity|].
    right. exists [], (mkEvent c (Failed e)), []. repeat split; auto.
Qed.

Lemma first_failure_clean fails events e :
  first_failure fails events e -> Forall (fun x => fails x = None) events -> False.
Proof.
  intros [pre [ev [post [-> [_ Hev]]]]] HF.
  apply Forall_app in HF as [_ HF]. inversion HF; subst. congruence.
Qed.

Lemma first_failure_unique fails events e1 e2 :
  first_failure fails events e1 -> first_failure fails events e2 -> e1 = e2.
Proof.
  intros [pre1 [ev1 [post1 [-> [H1 E1]]]]] [pre2 [ev2 [post2 [Heq [H2 E2]]]]].
  revert pre2 Heq H2. induction pre1 as [|x pre1 IH]; intros pre2 Heq H2.
  - destruct pre2 as [|y pre2]; simpl in Heq.
    + injection Heq as -> _. congruence.
    + injection Heq as -> _. inversion H2; subst. congruence.
  - destruct pre2 as [|y pre2]; simpl in Heq.
    + injection Heq as -> _. inversion H1; subst. congruence.
    + injection Heq as -> Heq. inversion H1; subst. inversion H2; subst.
      eapply IH; eauto.
Qed.

(** What a faithful computation did when a call failed: it threw the
    error of the first failure. *)
Lemma faithful_thrown {A : Type} fails (m : M C L A) s events e :
  faithful fails m ->
  st_trace (fst (m s)) = st_trace s ++ events ->
  first_failure fails events e ->
  snd (m s) = Throw e.
Proof.
  intros Hm Htr Hff. destruct (Hm s) as [ev [H1 F1]].
  assert (ev = events) by (eapply app_inv_head; rewrite <- H1; exact Htr). subst ev.
  unfold reports in F1. destruct (snd (m s)) as [a|e'].
  - exfalso. eapply first_failure_clean; eauto.
  - destruct F1 as [F1 | F1].
    + exfalso. eapply first_failure_clean; eauto.
    + f_equal. eapply first_failure_unique; eauto.
Qed.

End Traces.

(** ** Failures of the outside and the response *)

Ltac faithful_step :=
  first
    [ apply faithful_ret | apply faithful_throw | apply faithful_lift
    | apply faithful_set_local | apply faithful_set_cache
    | apply faithful_get_cache | apply faithful_get_local
    | apply faithful_perform; [reflexivity | intros; reflexivity]
    | apply faithful_observe; reflexivity
    | apply faithful_bind; [|intros ?]
    | match goal with
      | |- faithful _ (if ?b then _ else _) => destruct b
      | |- faithful _ (match ?x with _ => _ end) => destruct x
      end ].

Section ServerFailures.
Context {rt : Runtime} {w : World}.

Lemma server_loadConfig_faithful {L : Type} :
  faithful server_fails (ServerJs.loadConfig : M ServerJs.configCache L ServerJs.Config).
Proof.
  unfold ServerJs.loadConfig, ServerJs.cached, ServerJs.refresh, ServerJs.readSheet.
  apply faithful_bind; [repeat faithful_step|]. intros [config|]; [apply faithful_ret|].
  apply faithful_bind; [|intros ?; repeat faithful_step].
  apply faithful_both_map; intros; reflexivity.
Qed.

Lemma server_createSellNote_faithful {C L : Type} payload template pdf :
  faithful server_fails (ServerJs.createSellNote payload template pdf : M C L value).
Proof.
  unfold ServerJs.createSellNote.
  do 11 (try faithful_step).
  all: try solve [repeat faithful_step].
  all: apply faithful_request; [intros; reflexivity|].
  all: intros st txt; unfold server_fails; simpl;
    destruct (ServerJs.http_ok st); simpl;
    [left; split; [reflexivity|repeat faithful_step]
    |right; eexists; split; [reflexivity|intros; reflexivity]].
Qed.

Lemma server_produce_faithful payload template required :
  faithful server_fails (ServerJs.produce payload template required).
Proof.
  unfold ServerJs.produce.
  repeat first [apply server_createSellNote_faithful | faithful_step].
Qed.

Lemma server_with_config_faithful payload config :
  faithful server_fails (ServerJs.with_config payload config).
Proof.
  unfold ServerJs.with_config.
  repeat first [apply server_produce_faithful | faithful_step].
Qed.

Lemma server_render_try_faithful body :
  faithful server_fails (ServerJs.render_try body).
Proof.
  unfold ServerJs.render_try.
  apply faithful_bind; [apply server_loadConfig_faithful|].
  intros config. apply server_with_config_faithful.
Qed.

(** The handler always responds, and with 500 and the thrown error's
    message when its [try] block throws. *)
Lemma server_render_responds body (s : state ServerJs.configCache value) :
  let s0 := mkState (st_trace s) (st_cache s) VUndefined in
  match snd (ServerJs.render_try body s0) with
  | Ok resp => snd (ServerJs.render body s) = Ok resp
  | Throw e =>
      snd (ServerJs.render body s) = Ok (mkResponse 500 (error_body (err_message e)))
  end.
Proof.
  unfold ServerJs.render, ServerJs.render_catch. run. simpl.
  destruct (ServerJs.render_try body _) as [s1 [resp|e]]; simpl; [reflexivity|].
  destruct (st_local s1) as [| | | |id| | |]; simpl; try reflexivity.
  destruct (negb (String.eqb id EmptyString)); simpl; [|reflexivity].
  destruct (drive_files_delete _ id); reflexivity.
Qed.

End ServerFailures.

Section PartFailures.
Context {rt : Runtime} {w : World}.

Lemma part_makeGoogleClients_faithful {C L : Type} :
  faithful part_fails (Part000.makeGoogleClients : M C L unit).
Proof. unfold Part000.makeGoogleClients. repeat faithful_step. Qed.

Lemma part_loadConfig_faithful {L : Type} :
  faithful part_fails (Part000.loadConfig : M Part000.CONFIG_CACHE L Part000.Config).
Proof.
  unfold Part000.loadConfig, Part000.refresh.
  do 2 (apply faithful_bind; [repeat faithful_step|intros ?]).
  destruct (Part000.cached _ _); [apply faithful_ret|].
  destruct (negb _); [apply faithful_throw|].
  apply faithful_bind; [|intros ?; repeat faithful_step].
  apply faithful_both_perform; intros; reflexivity.
Qed.

Lemma part_check_once_faithful {C L : Type} fileId delay :
  faithful part_fails (Part000.check_once fileId delay : M C L (option bool)).
Proof.
  intros s. unfold Part000.check_once. run.
  destruct (drive_files_get (st_trace s) fileId) as [[]|e]; simpl.
  - eexists; split; [reflexivity|]. repeat constructor.
  - destruct (Part000.notFound e) eqn:E; simpl.
    + exists [mkEvent (CDriveGet fileId) (Failed e); mkEvent (CSleep delay) Done].
      split; [rewrite <- app_assoc; reflexivity|].
      repeat constructor. unfold part_fails; simpl. now rewrite E.
    + exists [mkEvent (CDriveGet fileId) (Failed e)]. split; [reflexivity|].
      right. exists [], (mkEvent (CDriveGet fileId) (Failed e)), [].
      repeat split; auto. unfold part_fails; simpl. now rewrite E.
Qed.

Lemma part_waitForFile_faithful {C L : Type} fileId :
  faithful part_fails (Part000.waitForFile fileId : M C L bool).
Proof.
  unfold Part000.waitForFile. induction Part000.delays as [|delay rest IH]; simpl.
  - apply faithful_throw.
  - apply faithful_bind; [apply part_check_once_faithful|].
    intros [found|]; [apply faithful_ret|exact IH].
Qed.

Lemma part_delete_quietly_faithful {C L : Type} docId :
  faithful part_fails (Part000.delete_quietly docId : M C L unit).
Proof.
  apply faithful_try_quiet. intros s. unfold perform.
  destruct (drive_files_delete (st_trace s) docId); eexists; simpl;
    (split; [reflexivity|]); repeat constructor.
Qed.

Lemma part_sellCreateNote_faithful {C L : Type} resource_type resource_id content :
  faithful part_fails
    (Part000.sellCreateNote resource_type resource_id content : M C L value).
Proof.
  unfold Part000.sellCreateNote.
  destruct (negb _); [apply faithful_throw|].
  apply faithful_request; [intros; reflexivity|].
  intros st txt; unfold part_fails; simpl.
  destruct (Part000.http_ok st); simpl;
    [left; split; [reflexivity|repeat faithful_step]
    |right; eexists; split; [reflexivity|intros; reflexivity]].
Qed.

Ltac part_step :=
  first [ apply part_waitForFile_faithful
        | apply part_delete_quietly_faithful
        | apply part_sellCreateNote_faithful
        | faithful_step ].

Lemma part_finish_faithful {C L : Type} template payload folderId docId requests :
  faithful part_fails
    (Part000.finish template payload folderId docId requests : M C L value).
Proof. unfold Part000.finish. repeat part_step. Qed.

Lemma part_fill_faithful {C L : Type} template payload folderId docId :
  faithful part_fails (Part000.fill template payload folderId docId : M C L value).
Proof.
  unfold Part000.fill.
  repeat first [apply part_finish_faithful | part_step].
Qed.

Lemma part_render_doc_faithful {C L : Type} template payload folderId :
  faithful part_fails
    (Part000.renderGoogleDocToPdf template payload folderId : M C L value).
Proof.
  unfold Part000.renderGoogleDocToPdf, Part000.copy_and_wait.
  repeat first [apply part_fill_faithful | part_step].
Qed.

Lemma part_with_config_faithful payload config :
  faithful part_fails (Part000.with_config payload config).
Proof.
  unfold Part000.with_config.
  repeat first [apply part_render_doc_faithful | part_step].
Qed.

Lemma part_render_try_faithful body :
  faithful part_fails (Part000.render_try body).
Proof.
  unfold Part000.render_try.
  apply faithful_bind; [apply part_makeGoogleClients_faithful|intros _].
  apply faithful_bind; [apply part_loadConfig_faithful|].
  intros config. apply part_with_config_faithful.
Qed.

Lemma part_render_responds body (s : state Part000.CONFIG_CACHE unit) :
  match snd (Part000.render_try body s) with
  | Ok resp => snd (Part000.render body s) = Ok resp
  | Throw e =>
      snd (Part000.render body s) =
        Ok (mkResponse (Part000.status_of e) (error_body (err_message e)))
  end.
Proof.
  unfold Part000.render. run.
  destruct (Part000.render_try body s) as [s1 [resp|e]]; reflexivity.
Qed.

End PartFailures.

(** ** The gate and the failures of the outside *)

Section GateAndFailures.
Context {rt : Runtime} {w : World}.

Lemma requireApiKey_rejects {C L : Type} header (next : M C L response) s :
  env_set "RENDER_API_KEY" = true ->
  header <> process_env "RENDER_API_KEY" ->
  ServerJs.requireApiKey header next s =
    (s, Ok (mkResponse 401 (error_body "Unauthorized"))) /\
  Part000.authGuard header next s =
    (s, Ok (mkResponse 401 (error_body "unauthorized"))).
Proof.
  intros Hset Hne. unfold ServerJs.requireApiKey, Part000.authGuard.
  rewrite Hset; simpl.
  assert (Hbad : match header with
                 | Some k => negb (String.eqb k (env_text "RENDER_API_KEY"))
                 | None => true
                 end = true).
  { destruct header as [k|]; [|reflexivity].
    unfold env_set, env_text in *.
    destruct (process_env "RENDER_API_KEY") as [key|]; [|discriminate].
    destruct (String.eqb k key) eqn:E; [|reflexivity].
    apply String.eqb_eq in E. congruence. }
  rewrite Hbad. split; reflexivity.
Qed.

Lemma requireApiKey_open {C L : Type} header (next : M C L response) :
  env_set "RENDER_API_KEY" = false ->
  ServerJs.requireApiKey header next = next /\ Part000.authGuard header next = next.
Proof.
  intros Hset. unfold ServerJs.requireApiKey, Part000.authGuard.
  rewrite Hset. split; reflexivity.
Qed.

Lemma requireApiKey_accepts {C L : Type} (next : M C L response) :
  ServerJs.requireApiKey (process_env "RENDER_API_KEY") next = next /\
  Part000.authGuard (process_env "RENDER_API_KEY") next = next.
Proof.
  unfold ServerJs.requireApiKey, Part000.authGuard, env_set, env_text.
  destruct (process_env "RENDER_API_KEY") as [key|]; [|split; reflexivity].
  rewrite String.eqb_refl. simpl.
  destruct (negb (negb (String.eqb key EmptyString))); split; reflexivity.
Qed.

Lemma server_failure_is_500 body (s : state ServerJs.configCache value) :
  exists events,
    st_trace (fst (ServerJs.render_try body (mkState (st_trace s) (st_cache s) VUndefined))) =
      st_trace s ++ events /\
    (exists resp, snd (ServerJs.render body s) = Ok resp) /\
    forall e, first_failure server_fails events e ->
              snd (ServerJs.render body s) =
                Ok (mkResponse 500 (error_body (err_message e))).
Proof.
  set (s0 := mkState (st_trace s) (st_cache s) VUndefined).
  destruct (server_render_try_faithful body s0) as [events [Htr Hrep]].
  exists events. split; [exact Htr|].
  pose proof (server_render_responds body s) as Hresp. cbv zeta in Hresp. fold s0 in Hresp.
  split.
  - destruct (snd (ServerJs.render_try body s0)); eexists; exact Hresp.
  - intros e Hff.
    rewrite (faithful_thrown server_fails _ s0 events e
               (server_render_try_faithful body) Htr Hff) in Hresp.
    exact Hresp.
Qed.

Lemma part_failure_is_reported body (s : state Part000.CONFIG_CACHE unit) :
  exists events,
    st_trace (fst (Part000.render_try body s)) = st_trace s ++ events /\
    (exists resp, snd (Part000.render body s) = Ok resp) /\
    forall e, first_failure part_fails events e ->
              snd (Part000.render body s) =
                Ok (mkResponse (Part000.status_of e) (error_body (err_message e))).
Proof.
  destruct (part_render_try_faithful body s) as [events [Htr Hrep]].
  exists events. split; [exact Htr|].
  pose proof (part_render_responds body s) as Hresp.
  split.
  - destruct (snd (Part000.render_try body s)); eexists; exact Hresp.
  - intros e Hff.
    rewrite (faithful_thrown part_fails _ s events e
               (part_render_try_faithful body) Htr Hff) in Hresp.
    exact Hresp.
Qed.

(** C4, as amended.  On every guarded route, in both variants: when
    [RENDER_API_KEY] is set to a non-empty value and the [x-api-key] header
    is not that value, the response is 401 and nothing of the handler
    runs; when the variable is unset or empty the gate is the handler
    itself, and so it is when the header carries the key.  In
    [src/server.js] the handler of [POST /v1/render] always responds, and
    when a call of its [try] block fails (a Google call that throws, a note
    request that throws or is answered with a failure status) the response
    is 500 with the message of the first failure.  In
    [src/unnamed/part_000] the same holds with the status the error carries
    ([statusCode], 500 when it has none) for every failure other than a
    not-found answer of the existence poll, which is retried, and a failed
    delete of the copy, which is swallowed. *)
Theorem gate_and_failures :
  (forall (C L : Type) (header : option string) (next : M C L response) (s : state C L),
      env_set "RENDER_API_KEY" = true ->
      header <> process_env "RENDER_API_KEY" ->
      ServerJs.requireApiKey header next s =
        (s, Ok (mkResponse 401 (error_body "Unauthorized"))) /\
      Part000.authGuard header next s =
        (s, Ok (mkResponse 401 (error_body "unauthorized")))) /\
  (forall (C L : Type) (header : option string) (next : M C L response),
      env_set "RENDER_API_KEY" = false ->
      ServerJs.requireApiKey header next = next /\
      Part000.authGuard header next = next) /\
  (forall (C L : Type) (next : M C L response),
      ServerJs.requireApiKey (process_env "RENDER_API_KEY") next = next /\
      Part000.authGuard (process_env "RENDER_API_KEY") next = next) /\
  (forall body (s : state ServerJs.configCache value),
      exists events,
        st_trace (fst (ServerJs.render_try body
                         (mkState (st_trace s) (st_cache s) VUndefined))) =
          st_trace s ++ events /\
        (exists resp, snd (ServerJs.render body s) = Ok resp) /\
        forall e, first_failure server_fails events e ->
                  snd (ServerJs.render body s) =
                    Ok (mkResponse 500 (error_body (err_message e)))) /\
  (forall body (s : state Part000.CONFIG_CACHE unit),
      exists events,
        st_trace (fst (Part000.render_try body s)) = st_trace s ++ events /\
        (exists resp, snd (Part000.render body s) = Ok resp) /\
        forall e, first_failure part_fails events e ->
                  snd (Part000.render body s) =
                    Ok (mkResponse (Part000.status_of e) (error_body (err_message e)))) /\
  (forall e, err_statusCode e = None -> Part000.status_of e = 500%Z).
Proof.
  split; [intros; apply requireApiKey_rejects; assumption|].
  split; [intros; apply requireApiKey_open; assumption|].
  split; [intros; apply requireApiKey_accepts|].
  split; [apply server_failure_is_500|].
  split; [apply part_failure_is_reported|].
  intros e He. unfold Part000.status_of. now rewrite He.
Qed.

End GateAndFailures.

(** In [src/unnamed/part_000] a render whose final delete of the copy fails
    still answers 200: the failed Google call is in the trace, the
    response does not show it. *)
Lemma swallowed_delete_answers_200 :
  let run :=
    @Part000.route_render sample_runtime (sample_world (mkFaults false false true) None)
      None (VObj [("template_key", VStr "SIN_CAMPOS")]) part_start in
  option_map status (match snd run with Ok r => Some r | Throw _ => None end) = Some 200%Z /\
  last (map ev_call (st_trace (fst run))) CNow = CDriveDelete "COPIA_1" /\
  last (map ev_outcome (st_trace (fst run))) Done =
    Failed (mkError "GaxiosError" "Rate Limit Exceeded" (Some 429%Z) None).
Proof. vm_compute. repeat split. Qed.

(** ** Required placeholders *)

Ltac emits_step :=
  first
    [ apply emits_ret | apply emits_throw | apply emits_lift
    | apply emits_set_local | apply emits_set_cache
    | apply emits_get_cache | apply emits_get_local
    | apply emits_perform; intros; exact I
    | apply emits_observe; intros; exact I
    | apply emits_perform; intros; reflexivity
    | apply emits_observe; intros; reflexivity
    | apply emits_request; intros; reflexivity
    | apply emits_both
    | apply emits_bind; [|intros ?]
    | apply emits_try_catch; [|intros ?]
    | match goal with
      | |- emits _ (if ?b then _ else _) => destruct b
      | |- emits _ (match ?x with _ => _ end) => destruct x
      end ].

Section Placeholders.
Context {rt : Runtime} {w : World}.

Lemma emits_lift_bind {C L A B : Type} P (r : result A) (k : A -> M C L B) :
  (forall a, r = Ok a -> emits P (k a)) -> emits P (bind (lift r) k).
Proof.
  intros Hk s. unfold emits_at, bind, lift. destruct r as [a|e]; simpl.
  - apply (Hk a eq_refl).
  - exists []. rewrite app_nil_r. auto.
Qed.

Lemma Forall_Exists_clash (events : list event) :
  Forall no_pdf events -> Exists (fun e => pdf_call e = true) events -> False.
Proof.
  intros HF HE. apply Exists_exists in HE as [e [Hin He]].
  rewrite Forall_forall in HF. specialize (HF e Hin). unfold no_pdf in HF. congruence.
Qed.

Lemma rfilter_nil {A : Type} (f : A -> result bool) l :
  rfilter f l = Ok [] -> Forall (fun a => f a = Ok false) l.
Proof.
  induction l as [|a l IH]; simpl; intros H; [constructor|].
  destruct (f a) as [b|e] eqn:Ea; simpl in H; [|discriminate].
  destruct (rfilter f l) as [kept|e] eqn:El; simpl in H; [|discriminate].
  destruct b; [discriminate|]. injection H as ->. constructor; auto.
Qed.

(** *** [src/server.js] *)

Lemma server_loadConfig_reads {L : Type} :
  emits config_call (ServerJs.loadConfig : M ServerJs.configCache L ServerJs.Config).
Proof.
  unfold ServerJs.loadConfig, ServerJs.cached, ServerJs.refresh, ServerJs.readSheet.
  repeat emits_step.
Qed.

Lemma config_call_no_pdf e : config_call e -> no_pdf e.
Proof.
  unfold config_call, no_pdf, pdf_call, is_export, is_upload.
  destruct (ev_call e); simpl; tauto.
Qed.

Lemma server_catch_quiet e : emits no_pdf (ServerJs.render_catch e).
Proof. unfold ServerJs.render_catch. repeat emits_step. Qed.

Lemma server_unchecked_quiet payload config :
  server_checked payload config = false ->
  emits no_pdf (ServerJs.with_config payload config).
Proof.
  unfold server_checked, ServerJs.with_config. intros H.
  destruct (truthy (ServerJs.resolveTemplate config payload)); simpl in *;
    [|apply emits_ret].
  destruct (ServerJs.placeholders_of _) as [required|e]; simpl;
    [|apply emits_lift_bind; intros ? ?; discriminate].
  apply emits_lift_bind. intros a Ha; injection Ha as <-.
  destruct (ServerJs.missing_of payload required) as [[|m ms]|e]; simpl;
    [discriminate| |apply emits_lift_bind; intros ? ?; discriminate].
  apply emits_lift_bind. intros a Ha; injection Ha as <-. simpl. apply emits_ret.
Qed.

Lemma server_checked_resolves payload config :
  server_checked payload config = true ->
  truthy (ServerJs.resolveTemplate config payload) = true /\
  exists required,
    ServerJs.placeholders_of (ServerJs.resolveTemplate config payload) = Ok required /\
    Forall (resolves_in ServerJs.getValueByPath payload) required.
Proof.
  unfold server_checked. intros H. apply andb_true_iff in H as [Ht H].
  split; [exact Ht|].
  destruct (ServerJs.placeholders_of _) as [required|e]; [|discriminate].
  exists required; split; [reflexivity|].
  destruct (ServerJs.missing_of payload required) as [[|m ms]|e] eqn:E; try discriminate.
  apply rfilter_nil in E. eapply Forall_impl; [|exact E].
  intros path Hp. unfold resolves_in. cbv beta in Hp.
  destruct (ServerJs.getValueByPath payload path) as [v|e]; simpl in Hp; [|discriminate].
  exists v; split; [reflexivity|congruence].
Qed.

(** Without a passed check, a render adds no export and no upload. *)
Lemma server_render_quiet body (s : state ServerJs.configCache value) :
  let s0 := mkState (st_trace s) (st_cache s) VUndefined in
  (forall config, snd (ServerJs.loadConfig s0) = Ok config ->
                  server_checked (or_else body (VObj [])) config = false) ->
  emits_at no_pdf (ServerJs.render body) s.
Proof.
  intros s0 H. unfold ServerJs.render.
  apply emits_at_bind; [apply emits_set_local|intros _ _].
  apply emits_at_try_catch; [|apply server_catch_quiet].
  unfold ServerJs.render_try. apply emits_at_bind.
  - eapply emits_weaken; [apply config_call_no_pdf|apply server_loadConfig_reads].
  - intros config Hc. apply server_unchecked_quiet, H. exact Hc.
Qed.

Lemma server_pdf_only_checked body (s : state ServerJs.configCache value) events :
  st_trace (fst (ServerJs.render body s)) = st_trace s ++ events ->
  Exists (fun e => pdf_call e = true) events ->
  exists config required,
    snd (ServerJs.loadConfig (mkState (st_trace s) (st_cache s) VUndefined)) = Ok config /\
    truthy (ServerJs.resolveTemplate config (or_else body (VObj []))) = true /\
    ServerJs.placeholders_of (ServerJs.resolveTemplate config (or_else body (VObj [])))
      = Ok required /\
    Forall (resolves_in ServerJs.getValueByPath (or_else body (VObj []))) required.
Proof.
  intros Htr Hex.
  set (s0 := mkState (st_trace s) (st_cache s) VUndefined).
  destruct (snd (ServerJs.loadConfig s0)) as [config|e] eqn:Hload.
  - destruct (server_checked (or_else body (VObj [])) config) eqn:Hc.
    + destruct (server_checked_resolves _ _ Hc) as [Ht [required [Hr HF]]].
      exists config, required. auto.
    + exfalso.
      destruct (server_render_quiet body s) as [ev [H1 F1]].
      { fold s0. intros config' Hc'. rewrite Hload in Hc'. now injection Hc' as <-. }
      assert (ev = events) by (eapply app_inv_head; rewrite <- H1; exact Htr). subst ev.
      eapply Forall_Exists_clash; eauto.
  - exfalso.
    destruct (server_render_quiet body s) as [ev [H1 F1]].
    { fold s0. intros config' Hc'. rewrite Hload in Hc'. discriminate. }
    assert (ev = events) by (eapply app_inv_head; rewrite <- H1; exact Htr). subst ev.
    eapply Forall_Exists_clash; eauto.
Qed.

(** A missing placeholder is answered with 400 before any call to Drive. *)
Lemma server_missing_is_400 body (s : state ServerJs.configCache value) config
    (paths : list string) :
  let s0 := mkState (st_trace s) (st_cache s) VUndefined in
  let payload := or_else body (VObj []) in
  let template := ServerJs.resolveTemplate config payload in
  let missing :=
    filter (fun path => match ServerJs.getValueByPath payload path with
                        | Ok v => is_missing v
                        | Throw _ => false
                        end)
           (map VStr paths) in
  snd (ServerJs.loadConfig s0) = Ok config ->
  truthy template = true ->
  ServerJs.placeholders_of template = Ok (map VStr paths) ->
  Exists (fun p => forall v, ServerJs.getValueByPath payload (VStr p) = Ok v ->
                             is_missing v = true) paths ->
  ServerJs.render body s =
    (fst (ServerJs.loadConfig s0),
     Ok (mkResponse 400 (VObj [("error", VStr "Missing required placeholders");
                               ("missing", VArr missing)]))) /\
  missing <> [] /\
  emits_at config_call ServerJs.loadConfig s0.
Proof.
  intros s0 payload template missing Hload Ht Hreq Hex.
  assert (Hm : ServerJs.missing_of payload (map VStr paths) = Ok missing).
  { unfold ServerJs.missing_of, missing. clear. induction paths as [|p ps IH]; simpl.
    - reflexivity.
    - rewrite IH. simpl. destruct (is_missing _); reflexivity. }
  assert (Hne : missing <> []).
  { unfold missing. clear - Hex. induction Hex as [p ps Hp | p ps _ IH]; simpl.
    - rewrite (Hp _ (getValueByPath_string payload p)). discriminate.
    - destruct (is_missing _); [discriminate|exact IH]. }
  split; [|split; [exact Hne|apply server_loadConfig_reads]].
  unfold ServerJs.render, ServerJs.render_try, ServerJs.with_config. run. simpl.
  fold s0 payload. destruct (ServerJs.loadConfig s0) as [s1 r]; simpl in *.
  subst r. fold template. rewrite Ht, Hreq, Hm. simpl.
  destruct missing; [congruence|reflexivity].
Qed.

End Placeholders.

Section PartPlaceholders.
Context {rt : Runtime} {w : World}.

(** *** [src/unnamed/part_000] *)

Lemma part_waitForFile_quiet {C L : Type} fileId :
  emits no_pdf (Part000.waitForFile fileId : M C L bool).
Proof.
  unfold Part000.waitForFile. induction Part000.delays as [|delay rest IH]; simpl.
  - apply emits_throw.
  - apply emits_bind.
    + unfold Part000.check_once. repeat emits_step.
    + intros [found|]; [apply emits_ret|exact IH].
Qed.

Lemma part_copy_quiet {C L : Type} template :
  emits no_pdf (Part000.copy_and_wait template : M C L string).
Proof.
  unfold Part000.copy_and_wait.
  repeat first [apply part_waitForFile_quiet | emits_step].
Qed.

Lemma part_delete_quiet {C L : Type} docId :
  emits (fun e => is_delete_of docId e = true) (Part000.delete_quietly docId : M C L unit).
Proof.
  unfold Part000.delete_quietly. apply emits_try_catch; [|intros; apply emits_ret].
  apply emits_perform. intros o. unfold is_delete_of; simpl. apply String.eqb_refl.
Qed.

Lemma delete_no_pdf docId e : is_delete_of docId e = true -> no_pdf e.
Proof.
  unfold is_delete_of, no_pdf, pdf_call, is_export, is_upload.
  destruct (ev_call e); simpl; intros; try discriminate; reflexivity.
Qed.

Lemma part_fill_unchecked_quiet {C L : Type} template payload folderId docId :
  part_checked template payload = false ->
  emits no_pdf (Part000.fill template payload folderId docId : M C L value).
Proof.
  unfold part_checked, Part000.fill. intros H.
  apply emits_lift_bind. intros built Hb. rewrite Hb in H.
  destruct (Part000.missing_paths _ _) as [|m ms]; [discriminate|]. simpl.
  apply emits_bind; [|intros _; repeat emits_step].
  destruct (negb _); [|apply emits_ret].
  eapply emits_weaken; [apply delete_no_pdf|apply part_delete_quiet].
Qed.

Lemma part_checked_resolves template payload :
  part_checked template payload = true ->
  Forall (resolves_in Part000.getByPath payload) (Part000.required_of template).
Proof.
  unfold part_checked.
  destruct (rmap _ _) as [built|e] eqn:E; [|discriminate].
  apply rmap_Forall2 in E. intros H.
  induction E as [|path b paths bs Hb HF IH]; simpl in *; [constructor|].
  unfold Part000.request_of in Hb.
  destruct (Part000.getByPath payload path) as [v|e] eqn:Ev; simpl in Hb; [|discriminate].
  destruct (ToString path); simpl in Hb; [|discriminate].
  destruct (if is_nullish v then _ else _); simpl in Hb; [|discriminate].
  injection Hb as <-. simpl in H.
  destruct (is_missing v) eqn:Em; [discriminate|].
  constructor; [exists v; auto|apply IH; exact H].
Qed.

Lemma part_loadConfig_quiet {L : Type} :
  emits no_pdf (Part000.loadConfig : M Part000.CONFIG_CACHE L Part000.Config).
Proof.
  unfold Part000.loadConfig, Part000.refresh. repeat emits_step.
Qed.

Lemma part_makeGoogleClients_quiet {C L : Type} :
  emits no_pdf (Part000.makeGoogleClients : M C L unit).
Proof. unfold Part000.makeGoogleClients. repeat emits_step. Qed.

Lemma part_with_config_quiet payload config :
  (forall template,
      Part000.resolve config payload = Ok template ->
      truthy template = true ->
      part_checked template payload = false) ->
  emits no_pdf (Part000.with_config payload config).
Proof.
  intros H. unfold Part000.with_config, Part000.renderGoogleDocToPdf.
  apply emits_lift_bind. intros template Hr.
  destruct (truthy template) eqn:Ht; simpl; [|apply emits_ret].
  apply emits_bind; [apply emits_lift|intros folderId].
  apply emits_bind.
  - apply emits_bind; [apply part_copy_quiet|intros docId].
    apply part_fill_unchecked_quiet. apply H; assumption.
  - intros out. unfold Part000.sellCreateNote. repeat emits_step.
Qed.

(** Without a passed check, a render adds no export and no upload. *)
Lemma part_render_quiet body (s : state Part000.CONFIG_CACHE unit) :
  (forall config template,
      snd (Part000.makeGoogleClients s) = Ok tt ->
      snd (Part000.loadConfig (fst (Part000.makeGoogleClients s))) = Ok config ->
      Part000.resolve config (or_else body (VObj [])) = Ok template ->
      truthy template = true ->
      part_checked template (or_else body (VObj [])) = false) ->
  emits_at no_pdf (Part000.render body) s.
Proof.
  intros H. unfold Part000.render, Part000.render_try.
  apply emits_at_try_catch; [|intros; apply emits_ret].
  apply emits_at_bind; [apply part_makeGoogleClients_quiet|intros [] Hg].
  apply emits_at_bind; [apply part_loadConfig_quiet|].
  intros config Hc. apply part_with_config_quiet.
  intros template Hr Ht. apply (H config template); assumption.
Qed.

Lemma part_pdf_only_checked body (s : state Part000.CONFIG_CACHE unit) events :
  st_trace (fst (Part000.render body s)) = st_trace s ++ events ->
  Exists (fun e => pdf_call e = true) events ->
  exists config template,
    snd (Part000.makeGoogleClients s) = Ok tt /\
    snd (Part000.loadConfig (fst (Part000.makeGoogleClients s))) = Ok config /\
    Part000.resolve config (or_else body (VObj [])) = Ok template /\
    truthy template = true /\
    Forall (resolves_in Part000.getByPath (or_else body (VObj [])))
           (Part000.required_of template).
Proof.
  intros Htr Hex.
  set (payload := or_else body (VObj [])).
  assert (Hcases :
    emits_at no_pdf (Part000.render body) s \/
    exists config template,
      snd (Part000.makeGoogleClients s) = Ok tt /\
      snd (Part000.loadConfig (fst (Part000.makeGoogleClients s))) = Ok config /\
      Part000.resolve config payload = Ok template /\
      truthy template = true /\ part_checked template payload = true).
  { destruct (snd (Part000.makeGoogleClients s)) as [[]|e] eqn:Hg;
      [|left; apply part_render_quiet; intros; congruence].
    destruct (snd (Part000.loadConfig (fst (Part000.makeGoogleClients s))))
      as [config|e] eqn:Hload;
      [|left; apply part_render_quiet; intros; congruence].
    destruct (Part000.resolve config payload) as [template|e] eqn:Hres;
      [|left; apply part_render_quiet; fold payload; intros; congruence].
    destruct (truthy template) eqn:Ht;
      [|left; apply part_render_quiet; fold payload; intros; congruence].
    destruct (part_checked template payload) eqn:Hc;
      [|left; apply part_render_quiet; fold payload; intros; congruence].
    right. exists config, template. auto. }
  destruct Hcases as [[ev [H1 F1]] | [config [template [Hg [Hl [Hr [Ht Hc]]]]]]].
  - exfalso.
    assert (ev = events) by (eapply app_inv_head; rewrite <- H1; exact Htr). subst ev.
    eapply Forall_Exists_clash; eauto.
  - exists config, template. repeat split; auto.
    apply part_checked_resolves. exact Hc.
Qed.

Lemma missing_paths_listed payload required built :
  Forall2 (fun path b => Part000.request_of payload path = Ok b) required built ->
  exists listed,
    array_join ", " (Part000.missing_paths required (map fst built)) = Ok listed.
Proof.
  unfold array_join. intros HF.
  assert (H : exists pieces,
             rmap (fun x => match x with
                            | VUndefined | VNull => Ok EmptyString
                            | _ => ToString x
                            end)
                  (Part000.missing_paths required (map fst built)) = Ok pieces).
  { induction HF as [|path b paths bs Hb HF IH]; simpl; [eexists; reflexivity|].
    destruct IH as [pieces IH].
    destruct (fst b); [|exists pieces; exact IH].
    simpl. rewrite IH. unfold Part000.request_of in Hb.
    destruct (Part000.getByPath payload path); simpl in Hb; [|discriminate].
    destruct (ToString path) as [shown|e] eqn:Es; simpl in Hb; [|discriminate].
    destruct path; simpl in *; try (eexists; reflexivity);
      try (injection Es as <-; eexists; reflexivity);
      rewrite Es; eexists; reflexivity. }
  destruct H as [pieces ->]. eexists; reflexivity.
Qed.

Lemma missing_paths_found payload required built :
  Forall2 (fun path b => Part000.request_of payload path = Ok b) required built ->
  Exists (fun path => forall v, Part000.getByPath payload path = Ok v ->
                                is_missing v = true) required ->
  Part000.missing_paths required (map fst built) <> [].
Proof.
  induction 1 as [|path b paths bs Hb HF IH]; intros Hex; inversion Hex; subst; simpl.
  - unfold Part000.request_of in Hb.
    destruct (Part000.getByPath payload path) as [v|e] eqn:Ev; simpl in Hb; [|discriminate].
    destruct (ToString path); simpl in Hb; [|discriminate].
    destruct (if is_nullish v then _ else _); simpl in Hb; [|discriminate].
    injection Hb as <-. simpl. rewrite (H0 v eq_refl). discriminate.
  - destruct (fst b); [discriminate|]. apply IH. assumption.
Qed.

(** A missing placeholder is answered with 400 once the copy exists; the
    copy is deleted unless it is to be kept, and nothing is exported or
    uploaded. *)
Lemma part_missing_is_400 body (s : state Part000.CONFIG_CACHE unit)
    config template folderId docId built :
  let payload := or_else body (VObj []) in
  let s1 := fst (Part000.loadConfig (fst (Part000.makeGoogleClients s))) in
  let copied := fst (Part000.copy_and_wait template s1) in
  snd (Part000.makeGoogleClients s) = Ok tt ->
  snd (Part000.loadConfig (fst (Part000.makeGoogleClients s))) = Ok config ->
  Part000.resolve config payload = Ok template ->
  truthy template = true ->
  Part000.normalizeDriveId
    (or_else (or_else (get_opt (get_opt payload "deal") "folder_id")
                      (get_opt payload "folder_id"))
             (VStr EmptyString)) = Ok folderId ->
  snd (Part000.copy_and_wait template s1) = Ok docId ->
  rmap (Part000.request_of payload) (Part000.required_of template) = Ok built ->
  Exists (fun path => forall v, Part000.getByPath payload path = Ok v ->
                                is_missing v = true)
         (Part000.required_of template) ->
  exists listed cleanup,
    array_join ", " (Part000.missing_paths (Part000.required_of template) (map fst built))
      = Ok listed /\
    Part000.render body s =
      (mkState (st_trace copied ++ cleanup) (st_cache copied) (st_local copied),
       Ok (mkResponse 400 (error_body ("Missing required placeholders: " +++ listed)))) /\
    Forall (fun e => is_delete_of docId e = true) cleanup /\
    List.length cleanup =
      (if truthy (get_prop template "keep_intermediate_doc") then 0 else 1)%nat /\
    emits_at no_pdf (Part000.render body) s.
Proof.
  intros payload s1 copied Hg Hl Hr Ht Hf Hcopy Hb Hex.
  pose proof (rmap_Forall2 _ _ _ Hb) as HF.
  destruct (missing_paths_listed payload _ _ HF) as [listed Hlisted].
  pose proof (missing_paths_found payload _ _ HF Hex) as Hne.
  assert (Hquiet : emits_at no_pdf (Part000.render body) s).
  { apply part_render_quiet. fold payload. intros config' template' _ Hl' Hr' _.
    rewrite Hl in Hl'. injection Hl' as <-. rewrite Hr in Hr'. injection Hr' as <-.
    unfold part_checked. rewrite Hb.
    destruct (Part000.missing_paths _ _); [congruence|reflexivity]. }
  assert (Hrun :
    exists cleanup,
      Part000.render body s =
        (mkState (st_trace copied ++ cleanup) (st_cache copied) (st_local copied),
         Ok (mkResponse 400 (error_body ("Missing required placeholders: " +++ listed)))) /\
      Forall (fun e => is_delete_of docId e = true) cleanup /\
      List.length cleanup =
        (if truthy (get_prop template "keep_intermediate_doc") then 0 else 1)%nat).
  { unfold Part000.render, Part000.render_try, Part000.with_config,
      Part000.renderGoogleDocToPdf, Part000.fill, Part000.delete_quietly. run.
    fold payload. subst copied s1.
    destruct (Part000.makeGoogleClients s) as [sg rg]; simpl in *. subst rg.
    destruct (Part000.loadConfig sg) as [sl rl]; simpl in *. subst rl.
    rewrite Hr, Ht. simpl. rewrite Hf.
    destruct (Part000.copy_and_wait template sl) as [sc rc]; simpl in *. subst rc.
    rewrite Hb, Hlisted.
    destruct (Part000.missing_paths _ _) as [|m ms]; [congruence|]. simpl.
    destruct (truthy (get_prop template "keep_intermediate_doc")); simpl.
    - exists []. rewrite app_nil_r. destruct sc; repeat split; constructor.
    - destruct (drive_files_delete (st_trace sc) docId); simpl;
        eexists; (split; [reflexivity|]); split; try reflexivity;
        repeat constructor; unfold is_delete_of; simpl; apply String.eqb_refl. }
  destruct Hrun as [cleanup [H1 [H2 H3]]].
  exists listed, cleanup. auto.
Qed.

End PartPlaceholders.

Section PlaceholdersClaim.
Context {rt : Runtime} {w : World}.

(** C1, as amended.  In [src/server.js], for a resolved template whose
    required placeholders are path strings, a path that resolves to
    [undefined], [null] or the empty string makes the render endpoint
    answer 400 with the list of the missing paths, after the reads of the
    configuration and before any call to Drive.  In
    [src/unnamed/part_000] the check follows the copy: once the copy exists
    and the requests are built, a missing path makes the endpoint answer
    400 with the missing paths in its message; the only call after the
    existence poll is one delete of the copy, made unless the template
    keeps its intermediate document, and the render adds no export and no
    upload.  In both variants a render exports or uploads
    only if a template was resolved and every required placeholder of it
    resolves to a value that is defined and not empty. *)
Theorem missing_placeholders_rejected :
  (forall body (s : state ServerJs.configCache value) config (paths : list string),
      let s0 := mkState (st_trace s) (st_cache s) VUndefined in
      let payload := or_else body (VObj []) in
      let template := ServerJs.resolveTemplate config payload in
      let missing :=
        filter (fun path => match ServerJs.getValueByPath payload path with
                            | Ok v => is_missing v
                            | Throw _ => false
                            end)
               (map VStr paths) in
      snd (ServerJs.loadConfig s0) = Ok config ->
      truthy template = true ->
      ServerJs.placeholders_of template = Ok (map VStr paths) ->
      Exists (fun p => forall v, ServerJs.getValueByPath payload (VStr p) = Ok v ->
                                 is_missing v = true) paths ->
      ServerJs.render body s =
        (fst (ServerJs.loadConfig s0),
         Ok (mkResponse 400 (VObj [("error", VStr "Missing required placeholders");
                                   ("missing", VArr missing)]))) /\
      missing <> [] /\
      emits_at config_call ServerJs.loadConfig s0) /\
  (forall body (s : state ServerJs.configCache value) events,
      st_trace (fst (ServerJs.render body s)) = st_trace s ++ events ->
      Exists (fun e => pdf_call e = true) events ->
      exists config required,
        snd (ServerJs.loadConfig (mkState (st_trace s) (st_cache s) VUndefined))
          = Ok config /\
        truthy (ServerJs.resolveTemplate config (or_else body (VObj []))) = true /\
        ServerJs.placeholders_of (ServerJs.resolveTemplate config (or_else body (VObj [])))
          = Ok required /\
        Forall (resolves_in ServerJs.getValueByPath (or_else body (VObj []))) required) /\
  (forall body (s : state Part000.CONFIG_CACHE unit) config template folderId docId built,
      let payload := or_else body (VObj []) in
      let s1 := fst (Part000.loadConfig (fst (Part000.makeGoogleClients s))) in
      let copied := fst (Part000.copy_and_wait template s1) in
      snd (Part000.makeGoogleClients s) = Ok tt ->
      snd (Part000.loadConfig (fst (Part000.makeGoogleClients s))) = Ok config ->
      Part000.resolve config payload = Ok template ->
      truthy template = true ->
      Part000.normalizeDriveId
        (or_else (or_else (get_opt (get_opt payload "deal") "folder_id")
                          (get_opt payload "folder_id"))
                 (VStr EmptyString)) = Ok folderId ->
      snd (Part000.copy_and_wait template s1) = Ok docId ->
      rmap (Part000.request_of payload) (Part000.required_of template) = Ok built ->
      Exists (fun path => forall v, Part000.getByPath payload path = Ok v ->
                                    is_missing v = true)
             (Part000.required_of template) ->
      exists listed cleanup,
        array_join ", "
          (Part000.missing_paths (Part000.required_of template) (map fst built))
          = Ok listed /\
        Part000.render body s =
          (mkState (st_trace copied ++ cleanup) (st_cache copied) (st_local copied),
           Ok (mkResponse 400
                 (error_body ("Missing required placeholders: " +++ listed)))) /\
        Forall (fun e => is_delete_of docId e = true) cleanup /\
        List.length cleanup =
          (if truthy (get_prop template "keep_intermediate_doc") then 0 else 1)%nat /\
        emits_at no_pdf (Part000.render body) s) /\
  (forall body (s : state Part000.CONFIG_CACHE unit) events,
      st_trace (fst (Part000.render body s)) = st_trace s ++ events ->
      Exists (fun e => pdf_call e = true) events ->
      exists config template,
        snd (Part000.makeGoogleClients s) = Ok tt /\
        snd (Part000.loadConfig (fst (Part000.makeGoogleClients s))) = Ok config /\
        Part000.resolve config (or_else body (VObj [])) = Ok template /\
        truthy template = true /\
        Forall (resolves_in Part000.getByPath (or_else body (VObj [])))
               (Part000.required_of template)).
Proof.
  split.
  { intros body s config paths s0 payload template missing Hl Ht Hp Hex.
    exact (server_missing_is_400 body s config paths Hl Ht Hp Hex). }
  split; [intros; eapply server_pdf_only_checked; eassumption|].
  split.
  { intros body s config template folderId docId built payload s1 copied
           Hg Hl Hr Ht Hf Hc Hb Hex.
    exact (part_missing_is_400 body s config template folderId docId built
             Hg Hl Hr Ht Hf Hc Hb Hex). }
  intros; eapply part_pdf_only_checked; eassumption.
Qed.

End PlaceholdersClaim.

(** Two renders with a resolved template and a missing [object.run] that
    are not answered 400: in [src/unnamed/part_000] the copy of the
    template fails first, in [src/server.js] a required placeholder that is
    no string makes the check itself throw. *)
Lemma missing_placeholder_answered_500 :
  let without_run := VObj [("template_key", VStr "ORDEN_PRE_PAD_MUJER")] in
  let mixed := VObj [("template_key", VStr "NUMERICO")] in
  @Part000.getByPath sample_runtime without_run (VStr "object.run") = Ok VUndefined /\
  snd (@Part000.route_render sample_runtime (sample_world (mkFaults true false false) None)
         None without_run part_start) =
    Ok (mkResponse 500
          (error_body "The user does not have sufficient permissions for this file.")) /\
  @ServerJs.getValueByPath sample_runtime mixed (VStr "object.run") = Ok VUndefined /\
  snd (@ServerJs.route_render sample_runtime (sample_world no_faults None)
         None mixed server_start) =
    Ok (mkResponse 500 (error_body "path.split is not a function")).
Proof. vm_compute. repeat split. Qed.

(** The hypotheses of the 400 answers are met by the sample request
    without [object.run]; both variants answer 400. *)
Example missing_placeholder_answered_400 :
  let without_run := VObj [("template_key", VStr "ORDEN_PRE_PAD_MUJER")] in
  snd (@ServerJs.route_render sample_runtime (sample_world no_faults None)
         None without_run server_start) =
    Ok (mkResponse 400 (VObj [("error", VStr "Missing required placeholders");
                              ("missing", VArr [VStr "object.run"])])) /\
  snd (@Part000.route_render sample_runtime (sample_world no_faults None)
         None without_run part_start) =
    Ok (mkResponse 400 (error_body "Missing required placeholders: object.run")).
Proof. vm_compute. split; reflexivity. Qed.

(** ** The intermediate copy and its deletion *)

Section Frames.
Context {w : World} {C L : Type}.

Lemma frames_ret {A : Type} (a : A) : frames (ret a : M C L A).
Proof. intros s; reflexivity. Qed.

Lemma frames_throw {A : Type} e : frames (throw e : M C L A).
Proof. intros s; reflexivity. Qed.

Lemma frames_lift {A : Type} (r : result A) : frames (lift r : M C L A).
Proof. intros s; reflexivity. Qed.

Lemma frames_get_cache : frames (get_cache : M C L C).
Proof. intros s; reflexivity. Qed.

Lemma frames_set_cache c : frames (set_cache c : M C L unit).
Proof. intros s; reflexivity. Qed.

Lemma frames_perform {A : Type} c (answer : trace -> result A) :
  frames (perform c answer : M C L A).
Proof. intros s. unfold perform. destruct (answer _); reflexivity. Qed.

Lemma frames_observe {A : Type} c (answer : trace -> A) :
  frames (observe c answer : M C L A).
Proof. intros s; reflexivity. Qed.

Lemma frames_request c answer : frames (request c answer : M C L (Z * string)).
Proof. intros s. unfold request. destruct (answer _) as [[? ?]|?]; reflexivity. Qed.

Lemma frames_bind {A B : Type} (m : M C L A) (k : A -> M C L B) :
  frames m -> (forall a, frames (k a)) -> frames (bind m k).
Proof.
  intros Hm Hk s. unfold bind. specialize (Hm s).
  destruct (m s) as [s1 [a|e]]; simpl in *; [|exact Hm].
  rewrite Hk. exact Hm.
Qed.

Lemma frames_both {A B : Type} (m1 : M C L A) (m2 : M C L B) :
  frames m1 -> frames m2 -> frames (both m1 m2).
Proof.
  intros H1 H2 s. unfold both. destruct (first_settles _).
  - specialize (H1 s). destruct (m1 s) as [s1 r1]. specialize (H2 s1).
    destruct (m2 s1) as [s2 r2]. simpl in *. congruence.
  - specialize (H2 s). destruct (m2 s) as [s2 r2]. specialize (H1 s2).
    destruct (m1 s2) as [s1 r1]. simpl in *. congruence.
Qed.

Lemma deletions_app l1 l2 : deletions (l1 ++ l2) = deletions l1 ++ deletions l2.
Proof.
  induction l1 as [|e l IH]; simpl; [reflexivity|].
  destruct (ev_call e); simpl; rewrite ?IH; reflexivity.
Qed.

Lemma bystander_deletions l : Forall bystander l -> deletions l = [].
Proof.
  induction 1 as [|e l He _ IH]; simpl; [reflexivity|].
  unfold bystander in He. destruct (ev_call e); try exact IH; contradiction.
Qed.

Lemma bystander_no_copy l : Forall bystander l -> Forall (fun e => is_copy e = false) l.
Proof.
  apply Forall_impl. intros e He. unfold bystander, is_copy in *.
  destruct (ev_call e); try reflexivity; contradiction.
Qed.

Lemma bystander_idle l : Forall bystander l -> Forall idle l.
Proof.
  apply Forall_impl. intros e He. unfold bystander, idle in *.
  destruct (ev_call e); try exact I; contradiction.
Qed.

Lemma config_call_bystander e : config_call e -> bystander e.
Proof.
  unfold config_call, bystander. destruct (ev_call e); simpl; tauto.
Qed.

Lemma copy_made_after t events source id post more :
  copy_made t events source id post ->
  Forall (fun e => is_copy e = false) more ->
  copy_made t (events ++ more) source id (post ++ more).
Proof.
  intros [pre [name [parents [-> [Hc [Hb Hn]]]]]] Hm.
  exists pre, name, parents. split; [|split; [exact Hc|split; [exact Hb|]]].
  - rewrite <- app_assoc. reflexivity.
  - apply Forall_app; auto.
Qed.

Lemma copy_made_before t before events source id post :
  Forall bystander before ->
  copy_made (t ++ before) events source id post ->
  copy_made t (before ++ events) source id post.
Proof.
  intros Hb [pre [name [parents [-> [Hc [Hp Hn]]]]]].
  exists (before ++ pre), name, parents.
  split; [rewrite <- app_assoc; reflexivity|].
  split; [rewrite app_assoc; exact Hc|].
  split; [apply Forall_app; auto|exact Hn].
Qed.

Lemma tidy_bind_bystander {A B : Type} D (m : M C L A) (k : A -> M C L B) :
  emits bystander m -> (forall a, tidy D (k a)) -> tidy D (bind m k).
Proof.
  intros Hm Hk s. unfold bind.
  destruct (Hm s) as [ev1 [H1 F1]]. destruct (m s) as [s1 [a|e]]; simpl in *.
  - destruct (Hk a s1) as [ev2 [H2 [F2 D2]]]. exists (ev1 ++ ev2).
    split; [rewrite H2, H1; symmetry; apply app_assoc|].
    split; [apply Forall_app; split; [apply bystander_no_copy; exact F1|exact F2]|].
    intros out Ho. rewrite deletions_app, (bystander_deletions _ F1). apply (D2 out Ho).
  - exists ev1. split; [exact H1|]. split; [apply bystander_no_copy; exact F1|].
    intros out Ho; discriminate.
Qed.

End Frames.

Ltac frames_step :=
  first
    [ apply frames_ret | apply frames_throw | apply frames_lift
    | apply frames_get_cache | apply frames_set_cache
    | apply frames_both
    | apply frames_perform | apply frames_observe | apply frames_request
    | apply frames_bind; [|intros ?]
    | match goal with
      | |- frames (if ?b then _ else _) => destruct b
      | |- frames (match ?x with _ => _ end) => destruct x
      end ].

Section Cleanup.
Context {rt : Runtime} {w : World}.

(** *** [src/server.js] *)

Lemma server_createSellNote_bystander {C L : Type} payload template pdf :
  emits bystander (ServerJs.createSellNote payload template pdf : M C L value).
Proof. unfold ServerJs.createSellNote. repeat emits_step. Qed.

Lemma server_createSellNote_frames {C L : Type} payload template pdf :
  frames (ServerJs.createSellNote payload template pdf : M C L value).
Proof. unfold ServerJs.createSellNote. repeat frames_step. Qed.

Lemma server_loadConfig_frames {L : Type} :
  frames (ServerJs.loadConfig : M ServerJs.configCache L ServerJs.Config).
Proof.
  unfold ServerJs.loadConfig, ServerJs.cached, ServerJs.refresh, ServerJs.readSheet.
  repeat frames_step.
Qed.

(** From the copy on, [produce] either answers 200, having deleted the
    copy unless it is kept, or throws with the copy still recorded in
    [copiedDocId], unless the copy was deleted. *)
Lemma server_produce_cleanup payload template required
    (s : state ServerJs.configCache value) :
  produced s (get_prop template "doc_template_id")
           (truthy (get_prop template "keep_intermediate_doc"))
           (ServerJs.produce payload template required s).
Proof.
  unfold ServerJs.produce. run.
  destruct (ToString (get_prop template "template_key")) as [key|e]; simpl.
  2:{ exists [mkEvent CNow Done]; split; [reflexivity|]. left.
      split; [repeat constructor|split; [reflexivity|eexists; reflexivity]]. }
  destruct (drive_files_copy _ _ _ _) as [id|e] eqn:Hcopy; simpl.
  2:{ eexists; split; [simpl; rewrite <- app_assoc; reflexivity|]. left.
      split; [repeat constructor|split; [reflexivity|eexists; reflexivity]]. }
  match type of Hcopy with
  | drive_files_copy _ ?source ?name ?parents = _ =>
      assert (Hleaf : forall s' r post,
                 st_trace s' =
                   st_trace s ++ [mkEvent CNow Done] ++
                   mkEvent (CDriveCopy source name parents) Done :: post ->
                 Forall (fun e => is_copy e = false) post ->
                 match r with
                 | Ok resp =>
                     status resp = 200%Z /\
                     deletions post =
                       (if negb (truthy (get_prop template "keep_intermediate_doc")) &&
                           negb (String.eqb id EmptyString)
                        then [(id, Done)] else [])
                 | Throw _ =>
                     (st_local s' = VStr id /\
                      (deletions post = [] \/
                       exists err, deletions post = [(id, Failed err)])) \/
                     (st_local s' = VNull /\ deletions post = [(id, Done)])
                 end ->
                 produced s (get_prop template "doc_template_id")
                          (truthy (get_prop template "keep_intermediate_doc")) (s', r));
        [|assert (Hnote : forall (s1 : state ServerJs.configCache value) post pdf,
                    st_trace s1 =
                      st_trace s ++ [mkEvent CNow Done] ++
                      mkEvent (CDriveCopy source name parents) Done :: post ->
                    Forall (fun e => is_copy e = false) post ->
                    deletions post =
                      (if negb (truthy (get_prop template "keep_intermediate_doc")) &&
                          negb (String.eqb id EmptyString)
                       then [(id, Done)] else []) ->
                    (st_local s1 = VStr id /\ deletions post = []) \/
                    (st_local s1 = VNull /\ deletions post = [(id, Done)]) ->
                    produced s (get_prop template "doc_template_id")
                      (truthy (get_prop template "keep_intermediate_doc"))
                      (let (s2, r2) := ServerJs.createSellNote payload template pdf s1 in
                       match r2 with
                       | Ok note =>
                           (if truthy note
                            then ret (mkResponse 200 (VObj [("pdf", pdf); ("note", note)]))
                            else ret (mkResponse 200 (VObj [("pdf", pdf)]))) s2
                       | Throw e => (s2, Throw e)
                       end))]
  end.
  { intros s' r post Htr Hnc Hr. eexists; split; [exact Htr|]. right.
    exists id, post. split; [|exact Hr].
    exists [mkEvent CNow Done]. do 2 eexists.
    split; [reflexivity|]. split; [exact Hcopy|]. split; [repeat constructor|exact Hnc]. }
  { intros s1 post pdf Htr Hnc Hdel Hloc.
    destruct (server_createSellNote_bystander payload template pdf s1) as [evn [Hn Fn]].
    pose proof (server_createSellNote_frames payload template pdf s1) as Hl.
    destruct (ServerJs.createSellNote payload template pdf s1) as [s2 [note|e]];
      simpl in *.
    - destruct (truthy note); unfold ret;
        (apply Hleaf with (post := post ++ evn);
         [rewrite Hn, Htr; rewrite <- !app_assoc; reflexivity
         |apply Forall_app; split; [exact Hnc|apply bystander_no_copy; exact Fn]
         |split; [reflexivity
                 |rewrite deletions_app, (bystander_deletions _ Fn), app_nil_r;
                  exact Hdel]]).
    - apply Hleaf with (post := post ++ evn);
        [rewrite Hn, Htr; rewrite <- !app_assoc; reflexivity
        |apply Forall_app; split; [exact Hnc|apply bystander_no_copy; exact Fn]
        |rewrite deletions_app, (bystander_deletions _ Fn), app_nil_r, Hl].
      destruct Hloc as [[H1 H2]|[H1 H2]];
        [left; split; [exact H1|left; exact H2]|right; auto]. }
  destruct (rmap _ _) as [requests|e]; simpl.
  2:{ apply Hleaf with (post := []); simpl;
        [rewrite <- app_assoc; reflexivity|constructor
        |left; split; [reflexivity|left; reflexivity]]. }
  destruct (docs_batchUpdate _ _ _) as [[]|e]; simpl.
  2:{ eapply Hleaf; simpl;
        [rewrite <- !app_assoc; reflexivity|repeat constructor
        |left; split; [reflexivity|left; reflexivity]]. }
  destruct (drive_files_export _ _) as [exportedPdf|e]; simpl.
  2:{ eapply Hleaf; simpl;
        [rewrite <- !app_assoc; reflexivity|repeat constructor
        |left; split; [reflexivity|left; reflexivity]]. }
  destruct (ServerJs.buildPdfFileName _ _ _) as [pdfName|e]; simpl.
  2:{ eapply Hleaf; simpl;
        [rewrite <- !app_assoc; reflexivity|repeat constructor
        |left; split; [reflexivity|left; reflexivity]]. }
  destruct (drive_files_create _ _ _ _) as [createdPdf|e]; simpl.
  2:{ eapply Hleaf; simpl;
        [rewrite <- !app_assoc; reflexivity|repeat constructor
        |left; split; [reflexivity|left; reflexivity]]. }
  destruct (truthy (get_prop template "keep_intermediate_doc")); simpl.
  { eapply Hnote; simpl;
      [rewrite <- !app_assoc; reflexivity|repeat constructor|reflexivity
      |left; split; reflexivity]. }
  destruct (String.eqb id EmptyString) eqn:Hid; simpl.
  { eapply Hnote; simpl;
      [rewrite <- !app_assoc; reflexivity|repeat constructor|reflexivity
      |left; split; reflexivity]. }
  destruct (drive_files_delete _ _) as [[]|e]; simpl.
  - eapply Hnote; simpl;
      [rewrite <- !app_assoc; reflexivity|repeat constructor|reflexivity
      |right; split; reflexivity].
  - eapply Hleaf; simpl;
      [rewrite <- !app_assoc; reflexivity|repeat constructor
      |left; split; [reflexivity|right; eexists; reflexivity]].
Qed.

(** In [src/server.js] a render always answers, and it makes at most
    one copy, of the document the resolved template names in
    [doc_template_id].  If it made none, it deleted nothing.  If it
    made one and answered 200, what follows the copy holds one delete, of
    that copy, which succeeded, when the resolved template does not keep
    its intermediate document, and no delete when it does.  If it made one
    and answered 500, a delete of that copy was attempted after it (twice
    when the first attempt, inside the [try] block, failed), however the
    attempts ended, and nothing else was deleted.  (A copy whose id is the
    empty string counts as no copy for the handler, and is never
    deleted.) *)
Theorem server_copy_cleaned body (s : state ServerJs.configCache value) :
  let run := ServerJs.render body s in
  let payload := or_else body (VObj []) in
  exists events resp,
    st_trace (fst run) = st_trace s ++ events /\
    snd run = Ok resp /\
    (Forall idle events \/
     exists id post config,
       copy_made (st_trace s) events
         (get_prop (ServerJs.resolveTemplate config payload) "doc_template_id") id post /\
       snd (ServerJs.loadConfig (mkState (st_trace s) (st_cache s) VUndefined))
         = Ok config /\
       let keep :=
         truthy (get_prop (ServerJs.resolveTemplate config payload)
                          "keep_intermediate_doc") in
       (status resp = 200%Z /\
        deletions post =
          (if negb keep && negb (String.eqb id EmptyString) then [(id, Done)] else [])) \/
       (status resp = 500%Z /\
        ((id = EmptyString /\ deletions post = []) \/
         (exists o, deletions post = [(id, o)]) \/
         (exists err o, deletions post = [(id, Failed err); (id, o)])))).
Proof.
  change (server_cleaned s body (ServerJs.render body s)).
  unfold ServerJs.render. run. simpl.
  set (s0 := mkState (st_trace s) (st_cache s) VUndefined).
  unfold ServerJs.render_try. run.
  destruct (server_loadConfig_reads s0) as [evc [Hc Fc]].
  pose proof (server_loadConfig_frames s0) as Hl0.
  destruct (ServerJs.loadConfig s0) as [s1 [config|e]] eqn:Hload; simpl in *.
  2:{ unfold ServerJs.render_catch. run. rewrite Hl0. simpl.
      exists evc. eexists. split; [exact Hc|]. split; [reflexivity|].
      left. apply bystander_idle. eapply Forall_impl; [|exact Fc].
      apply config_call_bystander. }
  assert (Hby : Forall bystander evc).
  { eapply Forall_impl; [|exact Fc]. apply config_call_bystander. }
  assert (Hquiet : forall resp, server_cleaned s body (s1, Ok resp)).
  { intros resp. exists evc, resp. split; [exact Hc|]. split; [reflexivity|].
    left. apply bystander_idle, Hby. }
  assert (Hthrown : forall e, server_cleaned s body (ServerJs.render_catch e s1)).
  { intros e. unfold ServerJs.render_catch. run. rewrite Hl0. simpl.
    exists evc. eexists. split; [exact Hc|]. split; [reflexivity|].
    left. apply bystander_idle, Hby. }
  unfold ServerJs.with_config. run.
  destruct (truthy (ServerJs.resolveTemplate config (or_else body (VObj [])))); simpl;
    [|apply Hquiet].
  destruct (ServerJs.placeholders_of _) as [required|e]; simpl; [|apply Hthrown].
  destruct (ServerJs.missing_of _ _) as [[|m ms]|e]; simpl;
    [|apply Hquiet|apply Hthrown].
  clear Hquiet Hthrown.
  destruct (server_produce_cleanup (or_else body (VObj []))
              (ServerJs.resolveTemplate config (or_else body (VObj []))) required s1)
    as [events [Htr [[Hi [Hl [e He]]] | [id [post [Hcm Hr]]]]]].
  { destruct (ServerJs.produce _ _ _ s1) as [s2 r]; simpl in *. subst r.
    unfold ServerJs.render_catch. run. rewrite Hl, Hl0. simpl.
    exists (evc ++ events). eexists. simpl.
    split; [rewrite Htr, Hc; symmetry; apply app_assoc|].
    split; [reflexivity|]. left.
    apply Forall_app; split; [apply bystander_idle, Hby|exact Hi]. }
  assert (Hcm' : copy_made (st_trace s) (evc ++ events)
                   (get_prop (ServerJs.resolveTemplate config (or_else body (VObj [])))
                             "doc_template_id") id post).
  { apply copy_made_before; [exact Hby|]. rewrite <- Hc; exact Hcm. }
  assert (Hend : forall (s3 : state ServerJs.configCache value) resp more,
             st_trace s3 = st_trace s ++ (evc ++ events) ++ more ->
             Forall (fun e => is_copy e = false) more ->
             cleanup_of
               (truthy (get_prop (ServerJs.resolveTemplate config (or_else body (VObj [])))
                                 "keep_intermediate_doc"))
               id (deletions (post ++ more)) resp ->
             server_cleaned s body (s3, Ok resp)).
  { intros s3 resp more H3 Hm Hcl. exists ((evc ++ events) ++ more), resp.
    split; [exact H3|]. split; [reflexivity|]. right.
    exists id, (post ++ more), config.
    split; [apply copy_made_after; assumption|]. split; [|exact Hcl].
    fold s0. rewrite Hload. reflexivity. }
  destruct (ServerJs.produce _ _ _ s1) as [s2 [resp|e]]; simpl in *.
  - apply Hend with (more := []);
      [rewrite Htr, Hc, app_nil_r; symmetry; apply app_assoc|constructor|].
    rewrite app_nil_r. left. exact Hr.
  - unfold ServerJs.render_catch. run.
    destruct Hr as [[Hl Hd] | [Hl Hd]]; rewrite Hl; simpl.
    + destruct (String.eqb id EmptyString) eqn:Hid; simpl.
      * apply Hend with (more := []);
          [rewrite Htr, Hc, app_nil_r; symmetry; apply app_assoc|constructor|].
        rewrite app_nil_r. right. split; [reflexivity|].
        apply String.eqb_eq in Hid.
        destruct Hd as [Hd | [err Hd]]; [left; auto|right; left; eauto].
      * assert (Hdone : forall o (s3 : state ServerJs.configCache value),
                   st_trace s3 = st_trace s2 ++ [mkEvent (CDriveDelete id) o] ->
                   server_cleaned s body
                     (s3, Ok (mkResponse 500 (error_body (err_message e))))).
        { intros o s3 H3. apply Hend with (more := [mkEvent (CDriveDelete id) o]);
            [rewrite H3, Htr, Hc, <- !app_assoc; reflexivity|repeat constructor|].
          right. split; [reflexivity|]. rewrite deletions_app. simpl.
          destruct Hd as [-> | [err ->]]; simpl; [right; left; eauto|right; right; eauto]. }
        destruct (drive_files_delete (st_trace s2) id) as [[]|e']; simpl;
          eapply Hdone; reflexivity.
    + apply Hend with (more := []);
        [rewrite Htr, Hc, app_nil_r; symmetry; apply app_assoc|constructor|].
      rewrite app_nil_r. right. split; [reflexivity|]. right; left; eauto.
Qed.

(** *** [src/unnamed/part_000] *)

Lemma tidy_then_bystander {C L A B : Type} D (m : M C L A) (k : A -> M C L B) :
  tidy D m -> (forall a, emits bystander (k a)) -> tidy D (bind m k).
Proof.
  intros Hm Hk s. unfold bind.
  destruct (Hm s) as [ev1 [H1 [F1 D1]]]. destruct (m s) as [s1 [a|e]]; simpl in *.
  - destruct (Hk a s1) as [ev2 [H2 F2]]. exists (ev1 ++ ev2).
    split; [rewrite H2, H1; symmetry; apply app_assoc|].
    split; [apply Forall_app; split; [exact F1|apply bystander_no_copy; exact F2]|].
    intros out Ho. rewrite deletions_app, (bystander_deletions _ F2), app_nil_r.
    apply (D1 a eq_refl).
  - exists ev1. split; [exact H1|]. split; [exact F1|]. intros out Ho; discriminate.
Qed.

Lemma part_waitForFile_bystander {C L : Type} fileId :
  emits bystander (Part000.waitForFile fileId : M C L bool).
Proof.
  unfold Part000.waitForFile. induction Part000.delays as [|delay rest IH]; simpl.
  - apply emits_throw.
  - apply emits_bind.
    + unfold Part000.check_once. repeat emits_step.
    + intros [found|]; [apply emits_ret|exact IH].
Qed.

Lemma part_cleanup_tidy {C L A : Type} (keep : bool) docId (a : A) :
  tidy (attempted keep docId)
       ((if negb keep then Part000.delete_quietly docId else ret tt) ;; ret a : M C L A).
Proof.
  intros s. unfold attempted, Part000.delete_quietly. run.
  destruct keep; simpl.
  - exists []. rewrite app_nil_r. split; [reflexivity|]. split; [constructor|].
    intros out _. reflexivity.
  - destruct (drive_files_delete (st_trace s) docId) as [[]|e]; simpl;
      eexists; (split; [reflexivity|]); (split; [repeat constructor|]);
      intros out _; simpl; eexists; reflexivity.
Qed.

Lemma part_finish_tidy {C L : Type} template payload folderId docId requests :
  tidy (attempted (truthy (get_prop template "keep_intermediate_doc")) docId)
       (Part000.finish template payload folderId docId requests : M C L value).
Proof.
  unfold Part000.finish.
  apply tidy_bind_bystander; [repeat emits_step|intros _].
  apply tidy_bind_bystander; [apply part_waitForFile_bystander|intros _].
  apply tidy_bind_bystander; [repeat emits_step|intros exportedPdf].
  apply tidy_bind_bystander; [repeat emits_step|intros today].
  apply tidy_bind_bystander; [repeat emits_step|intros filename].
  apply tidy_bind_bystander; [repeat emits_step|intros uploaded].
  apply part_cleanup_tidy.
Qed.

Lemma part_fill_tidy {C L : Type} template payload folderId docId :
  tidy (attempted (truthy (get_prop template "keep_intermediate_doc")) docId)
       (Part000.fill template payload folderId docId : M C L value).
Proof.
  unfold Part000.fill.
  apply tidy_bind_bystander; [apply emits_lift|intros built].
  destruct (0 <? _)%nat; [|apply part_finish_tidy].
  intros s. unfold Part000.delete_quietly. run.
  destruct (negb _); simpl.
  - destruct (drive_files_delete (st_trace s) docId) as [[]|e]; simpl;
      destruct (array_join _ _); simpl;
      eexists; (split; [reflexivity|]); (split; [repeat constructor|]);
      intros out Ho; discriminate.
  - destruct (array_join _ _); simpl;
      exists []; rewrite app_nil_r; (split; [reflexivity|]); (split; [constructor|]);
      intros out Ho; discriminate.
Qed.

Lemma part_renderDoc_cleanup {C L : Type} template payload folderId (s : state C L) :
  let run := Part000.renderGoogleDocToPdf template payload folderId s in
  exists events,
    st_trace (fst run) = st_trace s ++ events /\
    forall out, snd run = Ok out ->
      exists id post,
        copy_made (st_trace s) events (get_prop template "doc_template_id") id post /\
        attempted (truthy (get_prop template "keep_intermediate_doc")) id (deletions post).
Proof.
  unfold Part000.renderGoogleDocToPdf, Part000.copy_and_wait. run.
  destruct (ToString (get_prop template "template_key")) as [key|e]; simpl.
  2:{ exists [mkEvent CNow Done]. split; [reflexivity|]. intros out Ho; discriminate. }
  destruct (drive_files_copy _ _ _ _) as [id|e] eqn:Hcopy; simpl.
  2:{ eexists. split; [rewrite <- app_assoc; reflexivity|]. intros out Ho; discriminate. }
  match goal with
  | |- context [Part000.waitForFile id ?s1] =>
      destruct (part_waitForFile_bystander id s1) as [evw [Hw Fw]];
        destruct (Part000.waitForFile id s1) as [s2 [found|e]]
  end; simpl in *.
  2:{ eexists. split; [rewrite Hw, <- !app_assoc; reflexivity|]. intros out Ho; discriminate. }
  destruct (part_fill_tidy template payload folderId id s2) as [evf [Hf [Ff Df]]].
  destruct (Part000.fill template payload folderId id s2) as [s3 [out|e]]; simpl in *.
  2:{ eexists. split; [rewrite Hf, Hw, <- !app_assoc; reflexivity|].
      intros out Ho; discriminate. }
  eexists. split; [rewrite Hf, Hw, <- !app_assoc; reflexivity|].
  intros out' _. exists id, (evw ++ evf). split.
  - exists [mkEvent CNow Done]. do 2 eexists. split; [reflexivity|].
    split; [exact Hcopy|]. split; [repeat constructor|].
    apply Forall_app; split; [apply bystander_no_copy; exact Fw|exact Ff].
  - rewrite deletions_app, (bystander_deletions _ Fw). apply (Df out eq_refl).
Qed.

Lemma part_sellCreateNote_bystander {C L : Type} resource_type resource_id content :
  emits bystander (Part000.sellCreateNote resource_type resource_id content : M C L value).
Proof. unfold Part000.sellCreateNote. repeat emits_step. Qed.

Lemma part_with_config_cleanup payload config (s : state Part000.CONFIG_CACHE unit) :
  let run := Part000.with_config payload config s in
  exists events,
    st_trace (fst run) = st_trace s ++ events /\
    forall resp, snd run = Ok resp -> status resp = 200%Z ->
      exists id post template,
        copy_made (st_trace s) events (get_prop template "doc_template_id") id post /\
        Part000.resolve config payload = Ok template /\
        attempted (truthy (get_prop template "keep_intermediate_doc")) id (deletions post).
Proof.
  unfold Part000.with_config. run.
  destruct (Part000.resolve config payload) as [template|e]; simpl.
  2:{ exists []. rewrite app_nil_r. split; [reflexivity|]. intros resp Hr; discriminate. }
  destruct (truthy template); simpl.
  2:{ exists []. rewrite app_nil_r. split; [reflexivity|].
      intros resp Hr Hs. injection Hr as <-. discriminate. }
  destruct (Part000.normalizeDriveId _) as [folderId|e]; simpl.
  2:{ exists []. rewrite app_nil_r. split; [reflexivity|]. intros resp Hr; discriminate. }
  match goal with
  | |- context [Part000.renderGoogleDocToPdf template payload ?f s] =>
      destruct (part_renderDoc_cleanup template payload f s) as [events [Htr Hc]];
        destruct (Part000.renderGoogleDocToPdf template payload f s) as [s1 [out|e]]
  end; simpl in *.
  2:{ exists events. split; [exact Htr|]. intros resp Hr; discriminate. }
  destruct (Hc out eq_refl) as [id [post [Hcm Hat]]].
  destruct (truthy _ && truthy _); simpl.
  - destruct (Part000.note_text template payload out) as [noteText|e]; simpl.
    2:{ exists events. split; [exact Htr|]. intros resp Hr; discriminate. }
    match goal with
    | |- context [Part000.sellCreateNote ?a ?b ?c s1] =>
        destruct (part_sellCreateNote_bystander a b c s1) as [evn [Hn Fn]];
          destruct (Part000.sellCreateNote a b c s1) as [s2 [note|e]]
    end; simpl in *.
    + exists (events ++ evn). split; [rewrite Hn, Htr; symmetry; apply app_assoc|].
      intros resp _ _. exists id, (post ++ evn), template.
      split; [apply copy_made_after; [exact Hcm|apply bystander_no_copy; exact Fn]|].
      split; [reflexivity|].
      rewrite deletions_app, (bystander_deletions _ Fn), app_nil_r. exact Hat.
    + exists (events ++ evn). split; [rewrite Hn, Htr; symmetry; apply app_assoc|].
      intros resp Hr; discriminate.
  - exists events. split; [exact Htr|]. intros resp _ _.
    exists id, post, template. auto.
Qed.

Lemma part_makeGoogleClients_bystander {C L : Type} :
  emits bystander (Part000.makeGoogleClients : M C L unit).
Proof. unfold Part000.makeGoogleClients. repeat emits_step. Qed.

Lemma part_loadConfig_bystander {L : Type} :
  emits bystander (Part000.loadConfig : M Part000.CONFIG_CACHE L Part000.Config).
Proof. unfold Part000.loadConfig, Part000.refresh. repeat emits_step. Qed.

(** In [src/unnamed/part_000], when the [try] block of the render
    handler returns a response, that response is the handler's; and when
    it is a 200, one copy was made, of the document the resolved template
    names in [doc_template_id], and what
    follows the copy holds no delete when the template keeps its
    intermediate document, and one delete, of that copy, when it does not
    (the delete may have failed: its failure is swallowed). *)
Theorem part_success_cleaned body (s : state Part000.CONFIG_CACHE unit) :
  let run := Part000.render_try body s in
  exists events,
    st_trace (fst run) = st_trace s ++ events /\
    forall resp, snd run = Ok resp ->
      Part000.render body s = (fst run, Ok resp) /\
      (status resp = 200%Z ->
       exists id post config template,
         copy_made (st_trace s) events (get_prop template "doc_template_id") id post /\
         snd (Part000.loadConfig (fst (Part000.makeGoogleClients s))) = Ok config /\
         Part000.resolve config (or_else body (VObj [])) = Ok template /\
         attempted (truthy (get_prop template "keep_intermediate_doc")) id (deletions post)).
Proof.
  unfold Part000.render, Part000.render_try. run.
  destruct (part_makeGoogleClients_bystander s) as [evg [Hg Fg]].
  destruct (Part000.makeGoogleClients s) as [sg [[]|e]]; simpl in *.
  2:{ exists evg. split; [exact Hg|]. intros resp Hr; discriminate. }
  destruct (part_loadConfig_bystander sg) as [evc [Hc Fc]].
  destruct (Part000.loadConfig sg) as [s1 [config|e]]; simpl in *.
  2:{ exists (evg ++ evc). split; [rewrite Hc, Hg; symmetry; apply app_assoc|].
      intros resp Hr; discriminate. }
  destruct (part_with_config_cleanup (or_else body (VObj [])) config s1)
    as [events [Htr Hw]].
  destruct (Part000.with_config (or_else body (VObj [])) config s1) as [s2 [resp|e]];
    simpl in *.
  2:{ exists (evg ++ evc ++ events).
      split; [rewrite Htr, Hc, Hg, <- !app_assoc; reflexivity|].
      intros resp Hr; discriminate. }
  exists (evg ++ evc ++ events).
  split; [rewrite Htr, Hc, Hg, <- !app_assoc; reflexivity|].
  intros resp' Hr. injection Hr as <-. split; [reflexivity|]. intros Hs.
  destruct (Hw resp eq_refl Hs) as [id [post [template [Hcm [Hres Hat]]]]].
  exists id, post, config, template. split; [|auto].
  apply copy_made_before; [exact Fg|].
  apply copy_made_before; [exact Fc|].
  rewrite <- Hg, <- Hc. exact Hcm.
Qed.

End Cleanup.

(** ** The records the operations see *)

Section ActiveOperations.
Context {rt : Runtime} {w : World} {L : Type}.












End ActiveOperations.

(** ** The failing input of the cleanup claim *)

(** C3, at its failing input.  The claim asks that on any failure after
    the copy was created the copy is deleted, best effort.  In
    [src/unnamed/part_000] a failed export is answered 500 and the copy
    stays on Drive, though the template asks for its deletion; on the same
    input [src/server.js] deletes it. *)
Lemma failed_export_leaks_copy :
  let body := VObj [("template_key", VStr "SIN_CAMPOS")] in
  let world := sample_world (mkFaults false true false) None in
  let part := @Part000.route_render sample_runtime world None body part_start in
  let server := @ServerJs.route_render sample_runtime world None body server_start in
  snd part = Ok (mkResponse 500 (error_body "Export only supports Docs Editors files.")) /\
  existsb is_export (st_trace (fst part)) = true /\
  existsb (is_delete_of "COPIA_1") (st_trace (fst part)) = false /\
  snd server = Ok (mkResponse 500 (error_body "Export only supports Docs Editors files.")) /\
  existsb (is_delete_of "COPIA_1") (st_trace (fst server)) = true.
Proof. vm_compute. repeat split. Qed.

(** ** Template resolution *)

Section Resolution.
Context {rt : Runtime} {w : World}.




Lemma part_template_object row t :
  Part000.template_of_row row = Ok t -> truthy t = true /\ is_nullish t = false.
Proof.
  unfold Part000.template_of_row.
  destruct (Part000.toBool _); simpl; [|discriminate].
  destruct (Part000.toBool _); simpl; [|discriminate].
  intros H; injection H as <-. split; reflexivity.
Qed.


Lemma get_prop_own v k x : own_prop v k = Some x -> get_prop v k = x.
Proof. intros H. unfold get_prop. now rewrite H. Qed.




Lemma part_resolve_direct tv pv config payload k t :
  Part000.build_config tv pv = Ok config ->
  truthy (get_prop payload "template_key") = true ->
  ToString (get_prop payload "template_key") = Ok k ->
  own_prop (Part000.byTemplateKey config) k = Some t ->
  Part000.resolve config payload = Ok t /\
  In t (Part000.templates config) /\
  ToString (get_prop t "template_key") = Ok k.
Proof.
  intros Hb Ht Hk Ho.
  assert (Hin : In t (Part000.templates config) /\ ToString (get_prop t "template_key") = Ok k).
  { revert Hb. unfold Part000.build_config.
    destruct (rmap Part000.template_of_row _) as [mt|]; simpl; [|discriminate].
    destruct (rmap Part000.package_of_row _) as [mp|]; simpl; [|discriminate].
    destruct (Part000.index_by "template_key" _) as [byT|] eqn:EbT; simpl; [|discriminate].
    destruct (Part000.index_by "package_key" _) as [byP|]; simpl; [|discriminate].
    intros H; injection H as <-. simpl in *.
    eapply index_by_named; eassumption. }
  split; [|exact Hin].
  destruct (build_config_active _ _ _ Hb) as [HT _].
  rewrite Forall_forall in HT. destruct (HT t (proj1 Hin)) as [_ [row [_ [_ Hrow]]]].
  destruct (part_template_object _ _ Hrow) as [Htt _].
  unfold Part000.resolve. rewrite Ht. unfold Part000.lookup at 1. rewrite Hk. simpl.
  rewrite (get_prop_own _ _ _ Ho). rewrite Htt. reflexivity.
Qed.





End Resolution.


(** A [template_key] that names a member every object inherits resolves,
    in [src/unnamed/part_000], to that member: no template, yet no 400. *)
Lemma inherited_member_resolves :
  let payload := VObj [("template_key", VStr "constructor")] in
  (exists config,
      @Part000.build_config sample_runtime (Some sample_templates) (Some sample_packages)
        = Ok config /\
      @Part000.resolve sample_runtime config payload = Ok (VFun "Object") /\
      ~ In (VFun "Object") (Part000.templates config)) /\
  snd (@Part000.route_render sample_runtime (sample_world no_faults None)
         None payload part_start) =
    Ok (mkResponse 500 (error_body "Missing required parameters: fileId")).
Proof.
  split.
  - eexists. split; [vm_compute; reflexivity|].
    split; [vm_compute; reflexivity|].
    simpl. intros [H | [H | [H | H]]]; try discriminate; contradiction.
  - vm_compute. reflexivity.
Qed.

(** ** Concrete instances *)


Lemma split_dot_first p : exists seg rest, split_dot p = seg :: rest.
Proof.
  unfold split_dot. induction p as [|c p [seg [rest IH]]]; simpl.
  - eexists _, _; reflexivity.
  - destruct (Ascii.eqb c "."); [eexists _, _; reflexivity|].
    rewrite IH. eexists _, _; reflexivity.
Qed.








(** The two lookups at work: [getByPath] finds the value of a path, and
    throws at a path that names the [caller] of a constructor. *)
Lemma path_helpers_witness :
  let payload := VObj [("object", VObj [("run", VStr "12345678-5")])] in
  @Part000.getByPath sample_runtime payload (VStr "object.run") = Ok (VStr "12345678-5") /\
  (exists e,
      @Part000.getByPath sample_runtime payload (VStr "constructor.caller") = Throw e /\
      err_name e = "TypeError").
Proof.
  intros payload. split.
  - destruct (@path_helpers_total sample_runtime payload "object.run") as [_ [_ [H _]]].
    destruct H as [Hv _]; [discriminate|].
    apply Hv. simpl.
    apply traverses_step; [reflexivity|]. apply traverses_step; [reflexivity|].
    apply traverses_end.
  - destruct (@path_helpers_total sample_runtime payload "constructor.caller")
      as [_ [_ [H _]]].
    destruct H as [_ [Ht _]]; [discriminate|].
    apply Ht. simpl.
    apply trips_later; [reflexivity|]. apply trips_here. reflexivity.
Defined.

Lemma config_cached_witness :
  let world := sample_world no_faults None in
  let fresh : state ServerJs.configCache unit :=
    mkState [] (ServerJs.mkCache (1762153199000 + ServerJs.CONFIG_TTL_MS)
                                 (Some sample_server_config)) tt in
  let stale : state Part000.CONFIG_CACHE unit :=
    mkState [] (Part000.mkCache 0 60000 (Some sample_part_config)) tt in
  @ServerJs.loadConfig sample_runtime world unit fresh =
    (log CNow Done fresh, Ok sample_server_config) /\
  @Part000.loadConfig sample_runtime world unit stale =
    @Part000.refresh sample_runtime world unit (Date_now []) (log CNow Done stale) /\
  (snd (@ServerJs.refresh sample_runtime world unit (log CNow Done fresh)) =
     Ok sample_server_config /\
   ServerJs.data
     (st_cache (fst (@ServerJs.refresh sample_runtime world unit (log CNow Done fresh)))) =
     Some sample_server_config) /\
  (snd (@Part000.refresh sample_runtime world unit (Date_now []) (log CNow Done stale)) =
     Ok sample_part_config /\
   st_cache (fst (@Part000.refresh sample_runtime world unit (Date_now [])
                    (log CNow Done stale))) =
     Part000.mkCache (Date_now []) 60000 (Some sample_part_config)).
Proof.
  intros world fresh stale.
  destruct (@config_cached_60s sample_runtime world unit [] tt 1762153199000%Z)
    as [_ [Hs [_ [_ [_ [_ [_ [_ [_ [Hstore _]]]]]]]]]].
  destruct (@config_cached_60s sample_runtime world unit [] tt 0%Z)
    as [_ [_ [_ [Hp [_ [_ [_ [_ [_ [_ [Hput _]]]]]]]]]]].
  split; [|split; [|split]].
  - apply (Hs sample_server_config). vm_compute. reflexivity.
  - apply (Hp sample_part_config). vm_compute. discriminate.
  - apply (Hstore (log CNow Done fresh) (Some sample_templates) (Some sample_packages));
      reflexivity.
  - apply (Hput (Date_now []) (log CNow Done stale)
             (Some sample_templates) (Some sample_packages)); reflexivity.
Defined.

(** The stamp of [src/unnamed/part_000] is older than the store.  With a
    clock that advances while the sheets are read, the first call of
    [loadConfig] keeps the reading taken before the reads; a second call
    made at the very clock reading of the store, no time having passed
    since, finds the configuration sixty seconds old and reads both
    ranges again.  [src/server.js] answers the stored configuration
    there. *)
Lemma stamp_precedes_store :
  let first := @Part000.loadConfig sample_runtime slow_world unit part_start in
  let second := @Part000.loadConfig sample_runtime slow_world unit (fst first) in
  let first' := @ServerJs.loadConfig sample_runtime slow_world value server_start in
  let second' := @ServerJs.loadConfig sample_runtime slow_world value (fst first') in
  st_cache (fst first) = Part000.mkCache 1762153200000 60000 (Some sample_part_config) /\
  @Date_now slow_world (st_trace (fst first)) = 1762153260000%Z /\
  calls (st_trace (fst second)) =
    calls (st_trace (fst first)) ++
    [CNow; CSheetsGet "templates!A:K"; CSheetsGet "exam_packages!A:G"] /\
  snd first' = Ok sample_server_config /\
  second' = (log CNow Done (fst first'), Ok sample_server_config).
Proof.
  vm_compute. repeat split; reflexivity.
Qed.

(** The delays of [waitForFile] grow, but not by a constant factor: the
    backoff is not exponential. *)
Lemma backoff_not_exponential :
  ~ exists num den : Z,
      (0 < den)%Z /\
      Forall2 (fun delay next => (next * den = delay * num)%Z)
              (removelast Part000.delays) (tl Part000.delays).
Proof.
  intros [num [den [Hden H]]]. unfold Part000.delays in H. simpl in H.
  inversion H as [|? ? ? ? H1 H']; subst.
  inversion H' as [|? ? ? ? H2 _]; subst.
  lia.
Qed.

Lemma gate_and_failures_witness :
  let locked := sample_world no_faults (Some "secreto") in
  let broken := sample_world (mkFaults false true false) None in
  let body := VObj [("template_key", VStr "SIN_CAMPOS")] in
  @ServerJs.route_render sample_runtime locked (Some "otro") body server_start =
    (server_start, Ok (mkResponse 401 (error_body "Unauthorized"))) /\
  @Part000.route_render sample_runtime locked None body part_start =
    (part_start, Ok (mkResponse 401 (error_body "unauthorized"))) /\
  snd (@ServerJs.render sample_runtime broken body server_start) =
    Ok (mkResponse 500 (error_body "Export only supports Docs Editors files.")) /\
  snd (@Part000.render sample_runtime broken body part_start) =
    Ok (mkResponse 500 (error_body "Export only supports Docs Editors files.")).
Proof.
  intros locked broken body.
  pose (failure := mkError "GaxiosError" "Export only supports Docs Editors files."
                     (Some 403%Z) None).
  split; [|split; [|split]].
  - destruct (@gate_and_failures sample_runtime locked) as [H _].
    apply (H _ _ (Some "otro")); [reflexivity|discriminate].
  - destruct (@gate_and_failures sample_runtime locked) as [H _].
    apply (H _ _ None); [reflexivity|discriminate].
  - destruct (@gate_and_failures sample_runtime broken) as [_ [_ [_ [H _]]]].
    destruct (H body server_start) as [events [Htr [_ Hfail]]].
    vm_compute in Htr. subst events. apply (Hfail failure).
    match goal with
    | |- first_failure _ ?evs _ =>
        exists (removelast evs), (mkEvent (CDriveExport "COPIA_1") (Failed failure)), []
    end.
    split; [reflexivity|]. split; [repeat constructor|reflexivity].
  - destruct (@gate_and_failures sample_runtime broken) as [_ [_ [_ [_ [H _]]]]].
    destruct (H body part_start) as [events [Htr [_ Hfail]]].
    vm_compute in Htr. subst events. apply (Hfail failure).
    match goal with
    | |- first_failure _ ?evs _ =>
        exists (removelast evs), (mkEvent (CDriveExport "COPIA_1") (Failed failure)), []
    end.
    split; [reflexivity|]. split; [repeat constructor|reflexivity].
Defined.

Lemma missing_placeholders_witness :
  let world := sample_world no_faults None in
  let body := VObj [("template_key", VStr "ORDEN_PRE_PAD_MUJER")] in
  snd (@ServerJs.render sample_runtime world body server_start) =
    Ok (mkResponse 400 (VObj [("error", VStr "Missing required placeholders");
                              ("missing", VArr [VStr "object.run"])])) /\
  (exists listed,
      snd (@Part000.render sample_runtime world body part_start) =
        Ok (mkResponse 400 (error_body ("Missing required placeholders: " +++ listed)))).
Proof.
  intros world body.
  destruct (@missing_placeholders_rejected sample_runtime world) as [Hs [_ [Hp _]]].
  split.
  - destruct (Hs body server_start sample_server_config ["object.run"]) as [Hr _].
    + vm_compute. reflexivity.
    + vm_compute. reflexivity.
    + vm_compute. reflexivity.
    + constructor. intros v H. vm_compute in H. injection H as <-. reflexivity.
    + rewrite Hr. vm_compute. reflexivity.
  - destruct (Hp body part_start sample_part_config
                (match @Part000.resolve sample_runtime sample_part_config body with
                 | Ok t => t
                 | Throw _ => VNull
                 end)
                EmptyString "COPIA_1" [(true, ("{{object.run}}", EmptyString))])
      as [listed [cleanup [_ [Hr _]]]].
    + vm_compute. reflexivity.
    + vm_compute. reflexivity.
    + vm_compute. reflexivity.
    + vm_compute. reflexivity.
    + vm_compute. reflexivity.
    + vm_compute. reflexivity.
    + vm_compute. reflexivity.
    + vm_compute. constructor. intros v H. injection H as <-. reflexivity.
    + exists listed. rewrite Hr. reflexivity.
Defined.


(** [getByPath] of [src/unnamed/part_000] throws on the empty object at
    the path [constructor.caller]: the walk reaches the function [Object]
    and reads its [caller]; [getValueByPath] of [src/server.js] answers
    [undefined] there, and the callback that checks the placeholders of
    [src/unnamed/part_000] throws with the lookup.  And a payload whose
    placeholder value is an object with an own [toString] member: the
    lookups return, the conversion of the value they found throws, in that
    callback and in the file name builder of [src/server.js]. *)
Lemma malformed_payload_throws :
  let payload := VObj [("object", VObj [("run", VArr [VObj [("toString", VNull)]])])] in
  @Part000.getByPath sample_runtime (VObj []) (VStr "constructor.caller") =
    Throw restricted_error /\
  @ServerJs.getValueByPath sample_runtime (VObj []) (VStr "constructor.caller") =
    Ok VUndefined /\
  @Part000.request_of sample_runtime (VObj []) (VStr "constructor.caller") =
    Throw restricted_error /\
  (exists v, @Part000.getByPath sample_runtime payload (VStr "object.run") = Ok v) /\
  @Part000.request_of sample_runtime payload (VStr "object.run") =
    Throw (TypeError "Cannot convert object to primitive value") /\
  (exists v, @ServerJs.getValueByPath sample_runtime payload (VStr "object.run") = Ok v) /\
  @ServerJs.buildPdfFileName sample_runtime sample_date
    (VStr "orden_{object.run}_{YYYYMMDD}") payload =
    Throw (TypeError "Cannot convert object to primitive value") /\
  snd (@Part000.route_render sample_runtime (sample_world no_faults None) None
         (VObj [("template_key", VStr "ORDEN_PRE_PAD_MUJER");
                ("object", VObj [("run", VArr [VObj [("toString", VNull)]])])])
         part_start) =
    Ok (mkResponse 500 (error_body "Cannot convert object to primitive value")).
Proof.
  vm_compute. repeat split; try reflexivity; eexists; reflexivity.
Qed.

(** ** Drive ids *)

Section DriveIds.

Lemma trimEnd_idempotent s : trimEnd (trimEnd s) = trimEnd s.
Proof.
  induction s as [|c rest IH]; simpl; [reflexivity|].
  destruct (trimEnd rest) as [|k kept] eqn:E.
  - destruct (is_space c) eqn:Ec; simpl; [reflexivity|]. now rewrite Ec.
  - simpl. simpl in IH. rewrite IH. reflexivity.
Qed.

Lemma trimStart_fixed c rest : is_space c = false -> trimStart (String c rest) = String c rest.
Proof. intros H. simpl. now rewrite H. Qed.

Lemma trimEnd_head c rest :
  is_space c = false -> exists kept, trimEnd (String c rest) = String c kept.
Proof.
  intros H. simpl. destruct (trimEnd rest); [rewrite H|]; eexists; reflexivity.
Qed.

Lemma trimStart_head s :
  trimStart s = EmptyString \/
  exists c rest, trimStart s = String c rest /\ is_space c = false.
Proof.
  induction s as [|c rest IH]; simpl; [left; reflexivity|].
  destruct (is_space c) eqn:E; [exact IH|]. right. exists c, rest. auto.
Qed.

Lemma trim_idempotent s : trim (trim s) = trim s.
Proof.
  unfold trim. destruct (trimStart_head s) as [-> | [c [rest [-> Hc]]]]; [reflexivity|].
  destruct (trimEnd_head c rest Hc) as [kept Hk]. rewrite Hk.
  rewrite (trimStart_fixed c kept Hc), <- Hk. apply trimEnd_idempotent.
Qed.

Lemma id_char_not_space c : Part000.is_id_char c = true -> is_space c = false.
Proof.
  unfold Part000.is_id_char, is_space. set (n := nat_of_ascii c).
  intros H.
  repeat rewrite orb_true_iff in H. repeat rewrite andb_true_iff in H.
  repeat rewrite Nat.leb_le in H. repeat rewrite Nat.eqb_eq in H.
  apply orb_false_iff; split; [|apply Nat.eqb_neq; lia].
  apply orb_false_iff; split; [apply andb_false_iff|apply Nat.eqb_neq];
    [destruct (Nat.le_gt_cases n 13); [left; apply Nat.leb_gt|right; apply Nat.leb_gt]|]; lia.
Qed.

Lemma id_only_nil : id_only EmptyString.
Proof. constructor. Qed.

Lemma id_only_cons c s : Part000.is_id_char c = true -> id_only s -> id_only (String c s).
Proof. intros Hc Hs. constructor; assumption. Qed.

Lemma id_only_inv c s : id_only (String c s) -> Part000.is_id_char c = true /\ id_only s.
Proof. intros H. inversion H; subst. auto. Qed.

Lemma id_run_id_only s : id_only (Part000.id_run s).
Proof.
  induction s as [|c rest IH]; simpl; [constructor|].
  destruct (Part000.is_id_char c) eqn:E; [apply id_only_cons; assumption|constructor].
Qed.

Lemma id_only_trimStart s : id_only s -> trimStart s = s.
Proof.
  destruct s as [|c rest]; [reflexivity|]. intros H. apply id_only_inv in H as [Hc _].
  apply trimStart_fixed, id_char_not_space, Hc.
Qed.

Lemma id_only_trimEnd s : id_only s -> trimEnd s = s.
Proof.
  induction s as [|c rest IH]; [reflexivity|]. intros H.
  apply id_only_inv in H as [Hc Hr]. simpl. rewrite (IH Hr).
  destruct rest; [|reflexivity]. now rewrite (id_char_not_space c Hc).
Qed.

Lemma id_only_trim s : id_only s -> trim s = s.
Proof.
  intros H. unfold trim. rewrite (id_only_trimStart s H). apply id_only_trimEnd, H.
Qed.

Lemma find_all_false {A : Type} (f : A -> bool) l :
  (forall x, In x l -> f x = false) -> find f l = None.
Proof.
  induction l as [|a l IH]; simpl; intros H; [reflexivity|].
  rewrite (H a (or_introl eq_refl)). apply IH. intros x Hx. apply H. right; exact Hx.
Qed.

Lemma id_only_no_marker markers s :
  Forall opens_outside markers -> id_only s -> Part000.id_after markers s = None.
Proof.
  intros Hm. induction s as [|c rest IH]; intros Hs.
  - simpl. replace (find _ markers) with (@None string); [reflexivity|].
    symmetry. apply find_all_false. intros m Hin.
    rewrite Forall_forall in Hm. specialize (Hm m Hin).
    destruct m; [contradiction|reflexivity].
  - apply id_only_inv in Hs as [Hc Hr]. simpl.
    replace (find _ markers) with (@None string); [apply IH, Hr|].
    symmetry. apply find_all_false. intros m Hin.
    rewrite Forall_forall in Hm. specialize (Hm m Hin).
    destruct m as [|d m]; [contradiction|]. simpl in Hm. simpl.
    destruct (ascii_dec d c) as [->|_]; [congruence|reflexivity].
Qed.

Lemma id_after_id_only markers s id :
  Part000.id_after markers s = Some id -> id_only id.
Proof.
  induction s as [|c rest IH]; simpl.
  - destruct (find _ markers); intros H; [|discriminate].
    injection H as <-. apply id_run_id_only.
  - destruct (find _ markers); intros H; [|exact (IH H)].
    injection H as <-. apply id_run_id_only.
Qed.

Lemma normalizeDriveId_plain s :
  id_only s -> Part000.normalizeDriveId (VStr s) = Ok s.
Proof.
  intros H. unfold Part000.normalizeDriveId. simpl.
  destruct (String.eqb s EmptyString) eqn:E; simpl.
  - apply String.eqb_eq in E. now subst.
  - rewrite (id_only_trim s H).
    rewrite !id_only_no_marker; try assumption; repeat constructor.
Qed.

(** [normalizeDriveId] gives an id it leaves alone: what it returns for
    any input, it returns unchanged when given it again. *)
Theorem normalizeDriveId_idempotent (input : value) (id : string) :
  Part000.normalizeDriveId input = Ok id ->
  Part000.normalizeDriveId (VStr id) = Ok id.
Proof.
  unfold Part000.normalizeDriveId at 1.
  destruct (truthy input); simpl; [|intros H; injection H as <-; reflexivity].
  destruct (ToString input) as [text|e]; simpl; [|discriminate].
  destruct (Part000.id_after ["/folders/"] (trim text)) as [a|] eqn:E1.
  { intros H; injection H as <-. apply normalizeDriveId_plain.
    eapply id_after_id_only; eassumption. }
  destruct (Part000.id_after ["/d/"] (trim text)) as [a|] eqn:E2.
  { intros H; injection H as <-. apply normalizeDriveId_plain.
    eapply id_after_id_only; eassumption. }
  destruct (Part000.id_after ["?id="; "&id="] (trim text)) as [a|] eqn:E3.
  { intros H; injection H as <-. apply normalizeDriveId_plain.
    eapply id_after_id_only; eassumption. }
  intros H; injection H as <-.
  unfold Part000.normalizeDriveId. simpl.
  destruct (String.eqb (trim text) EmptyString) eqn:E; simpl.
  - apply String.eqb_eq in E. now rewrite E.
  - rewrite trim_idempotent, E1, E2, E3. reflexivity.
Qed.

Lemma prefix_app n : forall a b,
  (String.length n <= String.length a)%nat -> String.prefix n (a +++ b) = String.prefix n a.
Proof.
  induction n as [|c n IH]; intros a b H;
    [destruct a; simpl; [destruct b|]; reflexivity|].
  destruct a as [|d a]; simpl in H; [lia|]. simpl.
  destruct (ascii_dec c d); [apply IH; lia|reflexivity].
Qed.

Lemma append_assoc (a b c : string) : (a +++ b) +++ c = a +++ b +++ c.
Proof. induction a as [|x a IH]; simpl; [reflexivity|now rewrite IH]. Qed.

Lemma append_length (a b : string) :
  String.length (a +++ b) = (String.length a + String.length b)%nat.
Proof. induction a as [|x a IH]; simpl; [reflexivity|now rewrite IH]. Qed.

Lemma id_after_step m c s :
  String.prefix m (String c s) = false ->
  Part000.id_after [m] (String c s) = Part000.id_after [m] s.
Proof.
  intros H. cbn -[String.prefix Part000.id_run Part000.drop]. rewrite H. reflexivity.
Qed.

Lemma id_after_here m s :
  String.prefix m s = true ->
  Part000.id_run (Part000.drop (String.length m) s) <> EmptyString ->
  Part000.id_after [m] s = Some (Part000.id_run (Part000.drop (String.length m) s)).
Proof.
  intros H Hne. apply String.eqb_neq in Hne.
  destruct s; cbn -[String.prefix Part000.id_run Part000.drop]; rewrite H, Hne; reflexivity.
Qed.

Lemma id_after_skip pre tail :
  includes (pre +++ "/folders") "/folders/" = false ->
  Part000.id_after ["/folders/"] (pre +++ "/folders/" +++ tail) =
  Part000.id_after ["/folders/"] ("/folders/" +++ tail).
Proof.
  induction pre as [|c p IH]; intros H; [reflexivity|].
  cbn [append includes] in H. apply orb_false_iff in H as [Hp Hi].
  assert (Hpre : String.prefix "/folders/" (String c (p +++ "/folders/" +++ tail)) = false).
  { replace (String c (p +++ "/folders/" +++ tail))
      with (String c (p +++ "/folders") +++ ("/" +++ tail)).
    - rewrite prefix_app; [exact Hp|]. simpl. rewrite append_length. simpl. lia.
    - simpl. rewrite append_assoc. reflexivity. }
  change (String c p +++ "/folders/" +++ tail)
    with (String c (p +++ "/folders/" +++ tail)).
  rewrite (id_after_step _ _ _ Hpre). apply IH, Hi.
Qed.

Lemma id_run_app id rest :
  id_only id -> Part000.id_run rest = EmptyString -> Part000.id_run (id +++ rest) = id.
Proof.
  induction id as [|c id IH]; intros Hid Hr; [exact Hr|].
  apply id_only_inv in Hid as [Hc Hi]. simpl. rewrite Hc, (IH Hi Hr). reflexivity.
Qed.

Lemma trimEnd_app a : forall b,
  a <> EmptyString -> trimEnd a = a -> trimEnd (a +++ b) = a +++ trimEnd b.
Proof.
  induction a as [|c a IH]; intros b Hne Ha; [congruence|].
  destruct a as [|d a].
  - simpl in Ha. destruct (is_space c) eqn:Ec; [discriminate|].
    simpl. destruct (trimEnd b); [now rewrite Ec|reflexivity].
  - assert (Ha' : trimEnd (String d a) = String d a).
    { simpl in Ha. simpl. destruct (trimEnd a) as [|k kept] eqn:E.
      - destruct (is_space d); [destruct (is_space c); discriminate|].
        injection Ha as Ha. congruence.
      - injection Ha as Ha. congruence. }
    change (trimEnd (String c (String d a +++ b)) = String c (String d a +++ trimEnd b)).
    cbn [trimEnd]. fold trimEnd. rewrite (IH b); [|discriminate|exact Ha']. reflexivity.
Qed.

Lemma trimStart_app pre tail c :
  is_space c = false ->
  trimStart (pre +++ String c tail) = trimStart pre +++ String c tail.
Proof.
  intros Hc. induction pre as [|d p IH]; simpl; [now rewrite Hc|].
  destruct (is_space d); [exact IH|reflexivity].
Qed.

Lemma includes_trimStart pre tail needle :
  includes (pre +++ tail) needle = false -> includes (trimStart pre +++ tail) needle = false.
Proof.
  induction pre as [|d p IH]; intros H; [exact H|]. simpl.
  destruct (is_space d); [|exact H].
  apply IH. cbn [append includes] in H. apply orb_false_iff in H. apply H.
Qed.

Lemma id_run_trimEnd rest :
  Part000.id_run rest = EmptyString -> Part000.id_run (trimEnd rest) = EmptyString.
Proof.
  destruct rest as [|c r]; [reflexivity|]. simpl.
  destruct (Part000.is_id_char c) eqn:Ec; [discriminate|]. intros _.
  destruct (trimEnd r); [destruct (is_space c)|]; simpl; rewrite ?Ec; reflexivity.
Qed.

Lemma prefix_append m s : String.prefix m (m +++ s) = true.
Proof.
  induction m as [|c m IH]; simpl; [destruct s; reflexivity|].
  destruct (ascii_dec c c); [exact IH|congruence].
Qed.

Lemma trimEnd_clean_end x y :
  y <> EmptyString -> trimEnd y = y -> trimEnd (x +++ y) = x +++ y.
Proof.
  intros Hne Hy. induction x as [|c x IH]; [exact Hy|].
  cbn [append trimEnd]. fold trimEnd. rewrite IH.
  destruct (x +++ y) eqn:E; [|reflexivity].
  destruct x; simpl in E; [congruence|discriminate].
Qed.

(** A folder link is reduced to the id it carries: whatever precedes the
    first [/folders/] and whatever follows the id, white space around the
    link included. *)
Theorem normalizeDriveId_folder_url (pre id rest : string) :
  includes (pre +++ "/folders") "/folders/" = false ->
  id <> EmptyString ->
  id_only id ->
  Part000.id_run rest = EmptyString ->
  Part000.normalizeDriveId (VStr (pre +++ "/folders/" +++ id +++ rest)) = Ok id.
Proof.
  intros Hpre Hne Hid Hrest.
  unfold Part000.normalizeDriveId. cbn [truthy ToString].
  assert (Hlen : String.eqb (pre +++ "/folders/" +++ id +++ rest) EmptyString = false).
  { apply String.eqb_neq. intros H. apply (f_equal String.length) in H.
    rewrite append_length in H. simpl in H. lia. }
  rewrite Hlen. cbn [negb rbind].
  assert (Htrim : trim (pre +++ "/folders/" +++ id +++ rest) =
                  trimStart pre +++ "/folders/" +++ id +++ trimEnd rest).
  { unfold trim.
    change ("/folders/" +++ id +++ rest) with (String "/" ("folders/" +++ id +++ rest)).
    rewrite trimStart_app by reflexivity.
    change (String "/" ("folders/" +++ id +++ rest)) with ("/folders/" +++ id +++ rest).
    replace (trimStart pre +++ "/folders/" +++ id +++ rest)
      with ((trimStart pre +++ "/folders/" +++ id) +++ rest)
      by (rewrite !append_assoc; reflexivity).
    rewrite trimEnd_app.
    - rewrite !append_assoc. reflexivity.
    - intros H. apply (f_equal String.length) in H.
      rewrite !append_length in H. simpl in H. lia.
    - rewrite <- append_assoc. apply trimEnd_clean_end; [exact Hne|].
      apply id_only_trimEnd, Hid. }
  rewrite Htrim, id_after_skip by (apply includes_trimStart, Hpre).
  rewrite id_after_here.
  - cbn [String.length Part000.drop append].
    rewrite id_run_app; [reflexivity|exact Hid|apply id_run_trimEnd, Hrest].
  - apply prefix_append.
  - cbn [String.length Part000.drop append].
    rewrite id_run_app; [exact Hne|exact Hid|apply id_run_trimEnd, Hrest].
Qed.
End DriveIds.

(** ** Truth of a cell *)

Section Coercions.
Context {rt : Runtime} {w : World}.

Lemma yes_words_included (x : string) :
  existsb (String.eqb x) ["true"; "1"; "yes"] = true ->
  existsb (String.eqb x) ["true"; "1"; "yes"; "y"; "si"; Part000.si_acute] = true.
Proof.
  cbn [existsb]. intros H.
  repeat (apply orb_true_iff in H as [H | H]; [rewrite H; rewrite ?orb_true_r; reflexivity|]).
  discriminate.
Qed.

(** Whatever [parseBoolean] of [src/server.js] takes for true, [toBool] of
    [src/unnamed/part_000] takes for true as well. *)
Theorem parseBoolean_within_toBool (v : value) :
  ServerJs.parseBoolean v = Ok true -> Part000.toBool v = Ok true.
Proof.
  unfold ServerJs.parseBoolean, Part000.toBool.
  destruct v; try (intros H; exact H);
    (destruct (ToString _) as [s0|e]; cbn [rbind]; [|discriminate];
     intros H; injection H as H; f_equal; apply yes_words_included, H).
Qed.

(** The converse fails: a cell that says [Si] is active for
    [src/unnamed/part_000] only. *)
Lemma toBool_accepts_more :
  Part000.toBool (VStr "Si") = Ok true /\ ServerJs.parseBoolean (VStr "Si") = Ok false.
Proof. split; reflexivity. Qed.
End Coercions.

(** ** Rows of a sheet *)

Section SheetRows.
Context {rt : Runtime} {w : World}.

Lemma fold_assign_other (g : nat -> value) (q : string) names :
  forall k acc,
    ~ In q names ->
    assoc q (fold_left (fun obj ih => assign_field obj (snd ih) (g (fst ih)))
                       (enumerate_from k names) acc) = assoc q acc.
Proof.
  induction names as [|n names IH]; intros k acc Hn; [reflexivity|].
  simpl. rewrite IH by (intros H; apply Hn; right; exact H).
  unfold assign_field. destruct (String.eqb n "__proto__"); [reflexivity|].
  rewrite assoc_define_field.
  destruct (String.eqb n q) eqn:E; [|reflexivity].
  apply String.eqb_eq in E. exfalso. apply Hn. left; exact E.
Qed.

(** Assigning the cells of a row under the names of the columns: a name
    that is not [__proto__] holds the cell of the last column so named. *)
Lemma fold_assign_lookup (g : nat -> value) (q : string) names :
  forall k acc i,
    nth_error names i = Some q ->
    q <> "__proto__" ->
    ~ In q (skipn (S i) names) ->
    assoc q (fold_left (fun obj ih => assign_field obj (snd ih) (g (fst ih)))
                       (enumerate_from k names) acc) = Some (g (k + i)%nat).
Proof.
  induction names as [|n names IH]; intros k acc i Hi Hq Hlast; [destruct i; discriminate|].
  destruct i as [|i]; simpl in Hi.
  - injection Hi as ->. simpl. simpl in Hlast.
    rewrite fold_assign_other by exact Hlast.
    unfold assign_field. apply String.eqb_neq in Hq. rewrite Hq.
    rewrite assoc_define_field, String.eqb_refl, Nat.add_0_r. reflexivity.
  - simpl. rewrite (IH (S k) _ i Hi Hq Hlast). f_equal. f_equal. lia.
Qed.

Lemma enumerate_map {A B : Type} (f : A -> B) (h : nat * B -> list (string * value) -> list (string * value)) l :
  forall k acc,
    fold_left (fun obj ic => h (fst ic, f (snd ic)) obj) (enumerate_from k l) acc =
    fold_left (fun obj ih => h ih obj) (enumerate_from k (map f l)) acc.
Proof.
  induction l as [|a l IH]; intros k acc; [reflexivity|]. simpl. apply IH.
Qed.

(** [src/server.js]: the sheet's first row names the columns; every
    further row gives one object, in order, and the object holds under a
    column's name the cell of that column, the empty text when the row is
    too short.  (Of several columns with one name the last counts; a column
    named [__proto__] is not stored.) *)
Theorem server_sheet_cell (header : list scalar) (data : list (list scalar))
    (r i : nat) (row : list scalar) (c : scalar) :
  nth_error data r = Some row ->
  nth_error header i = Some c ->
  scalar_text c <> "__proto__" ->
  ~ In (scalar_text c) (skipn (S i) (map scalar_text header)) ->
  List.length (ServerJs.mapRowsToObjects (header :: data)) = List.length data /\
  exists obj,
    nth_error (ServerJs.mapRowsToObjects (header :: data)) r = Some obj /\
    own_prop obj (scalar_text c) =
      Some (match nth_error row i with
            | Some cell => of_scalar cell
            | None => VStr EmptyString
            end).
Proof.
  intros Hr Hi Hp Hlast. unfold ServerJs.mapRowsToObjects. simpl.
  split; [apply length_map|].
  exists (ServerJs.row_object header row). split.
  - rewrite nth_error_map, Hr. reflexivity.
  - unfold ServerJs.row_object. simpl.
    rewrite (enumerate_map scalar_text
               (fun ih obj => assign_field obj (snd ih)
                                (match nth_error row (fst ih) with
                                 | Some cell => of_scalar cell
                                 | None => VStr EmptyString
                                 end))).
    rewrite (fold_assign_lookup
               (fun j => match nth_error row j with
                         | Some cell => of_scalar cell
                         | None => VStr EmptyString
                         end) (scalar_text c) (map scalar_text header) 0 [] i);
      [reflexivity| |exact Hp|exact Hlast].
    rewrite nth_error_map, Hi. reflexivity.
Qed.

(** [src/unnamed/part_000]: a range without rows below the header gives
    no object; otherwise every row that is not blank gives one object, in
    order, which holds under a column's trimmed name the cell of that
    column, [undefined] when the row is too short. *)
Theorem part_sheet_cell (header : list scalar) (data : list (list scalar))
    (r i : nat) (row : list scalar) (c : scalar) :
  nth_error (filter row_filled data) r = Some row ->
  nth_error header i = Some c ->
  Part000.cell_text c <> "__proto__" ->
  ~ In (Part000.cell_text c) (skipn (S i) (map Part000.cell_text header)) ->
  List.length (Part000.rowsToObjects (Some (header :: data))) =
    List.length (filter row_filled data) /\
  exists obj,
    nth_error (Part000.rowsToObjects (Some (header :: data))) r = Some obj /\
    own_prop obj (Part000.cell_text c) =
      Some (match nth_error row i with
            | Some cell => of_scalar cell
            | None => VUndefined
            end).
Proof.
  intros Hr Hi Hp Hlast. unfold Part000.rowsToObjects.
  destruct data as [|d data]; [destruct r; discriminate|].
  cbn [List.length Nat.ltb Nat.leb hd tl]. fold row_filled.
  split; [apply length_map|].
  exists (Part000.row_object (map Part000.cell_text header) row). split.
  - rewrite nth_error_map. fold row_filled. rewrite Hr. reflexivity.
  - unfold Part000.row_object. simpl.
    rewrite (fold_assign_lookup
               (fun j => match nth_error row j with
                         | Some cell => of_scalar cell
                         | None => VUndefined
                         end) (Part000.cell_text c) (map Part000.cell_text header) 0 [] i);
      [reflexivity| |exact Hp|exact Hlast].
    rewrite nth_error_map, Hi. reflexivity.
Qed.

(** Without a row below the header, or without values at all,
    [src/unnamed/part_000] reads no object; blank rows are dropped. *)
Lemma part_sheet_edges (header : list scalar) (data : list (list scalar)) :
  Part000.rowsToObjects None = [] /\
  Part000.rowsToObjects (Some []) = [] /\
  Part000.rowsToObjects (Some [header]) = [] /\
  List.length (Part000.rowsToObjects (Some (header :: data))) =
    List.length (filter row_filled data).
Proof.
  repeat split. unfold Part000.rowsToObjects.
  destruct data as [|d data]; [reflexivity|].
  cbn [List.length Nat.ltb Nat.leb hd tl]. fold row_filled. apply length_map.
Qed.
End SheetRows.

(** ** Keys listed twice *)

Section Duplicates.
Context {rt : Runtime} {w : World}.

Lemma fold_define_other (q : string) entries :
  forall acc,
    ~ In q (map fst entries) ->
    assoc q (fold_left (fun fields e => define_field fields (fst e) (snd e)) entries acc)
      = assoc q acc.
Proof.
  induction entries as [|[k v] rest IH]; intros acc Hn; [reflexivity|].
  simpl. rewrite IH by (intros H; apply Hn; right; exact H).
  rewrite assoc_define_field.
  destruct (String.eqb k q) eqn:E; [|reflexivity].
  apply String.eqb_eq in E. exfalso. apply Hn. left; exact E.
Qed.

Lemma fold_define_last (q : string) (v : value) before after acc :
  ~ In q (map fst after) ->
  assoc q (fold_left (fun fields e => define_field fields (fst e) (snd e))
                     (before ++ (q, v) :: after) acc) = Some v.
Proof.
  intros Hn. rewrite fold_left_app. simpl.
  rewrite fold_define_other by exact Hn.
  rewrite assoc_define_field, String.eqb_refl. reflexivity.
Qed.

Lemma rmap_app {A B : Type} (f : A -> result B) l1 l2 out :
  rmap f (l1 ++ l2) = Ok out ->
  exists o1 o2, rmap f l1 = Ok o1 /\ rmap f l2 = Ok o2 /\ out = o1 ++ o2.
Proof.
  revert out. induction l1 as [|a l1 IH]; simpl; intros out H.
  - exists [], out. auto.
  - destruct (f a) as [b|e]; simpl in *; [|discriminate].
    destruct (rmap f (l1 ++ l2)) as [bs|e] eqn:E; simpl in *; [|discriminate].
    injection H as <-. destruct (IH bs eq_refl) as [o1 [o2 [H1 [H2 ->]]]].
    exists (b :: o1), o2. rewrite H1. simpl. auto.
Qed.

(** A lookup table of [src/unnamed/part_000] answers, under a key, the
    last of the records that carry it. *)
Lemma index_by_last key records table before t after q :
  Part000.index_by key records = Ok table ->
  records = before ++ t :: after ->
  ToString (get_prop t key) = Ok q ->
  Forall (fun t' => ToString (get_prop t' key) <> Ok q) after ->
  own_prop table q = Some t.
Proof.
  unfold Part000.index_by. intros H -> Hq Hafter.
  destruct (rmap _ (before ++ t :: after)) as [entries|e] eqn:E; simpl in H; [|discriminate].
  injection H as <-.
  apply rmap_app in E as [e1 [e2 [H1 [H2 ->]]]].
  simpl in H2. rewrite Hq in H2. simpl in H2.
  destruct (rmap _ after) as [e3|e] eqn:E3; simpl in H2; [|discriminate].
  injection H2 as <-. simpl. apply fold_define_last.
  apply rmap_Forall2 in E3. clear - E3 Hafter.
  induction E3 as [|r e rs es Hr HF IH]; simpl; [tauto|].
  inversion Hafter as [|? ? Hr' Hafter']; subst.
  intros [H | H]; [|exact (IH Hafter' H)].
  destruct (ToString (get_prop r key)) as [k|] eqn:Ek; simpl in Hr; [|discriminate].
  injection Hr as <-. simpl in H. subst k. apply Hr'. reflexivity.
Qed.

(** In [src/unnamed/part_000] a loaded template is found by its key,
    when the key is not empty; of several loaded templates with one key,
    the last is the one found. *)
Theorem part_resolves_last tv pv config before t after q payload :
  Part000.build_config tv pv = Ok config ->
  Part000.templates config = before ++ t :: after ->
  ToString (get_prop t "template_key") = Ok q ->
  Forall (fun t' => ToString (get_prop t' "template_key") <> Ok q) after ->
  q <> EmptyString ->
  get_prop payload "template_key" = VStr q ->
  Part000.resolve config payload = Ok t.
Proof.
  intros Hb Ht Hq Hafter Hne Hp.
  assert (Hown : own_prop (Part000.byTemplateKey config) q = Some t).
  { revert Hb Ht. unfold Part000.build_config.
    destruct (rmap Part000.template_of_row _) as [mt|]; simpl; [|discriminate].
    destruct (rmap Part000.package_of_row _) as [mp|]; simpl; [|discriminate].
    destruct (Part000.index_by "template_key" _) as [byT|] eqn:EbT; simpl; [|discriminate].
    destruct (Part000.index_by "package_key" _) as [byP|]; simpl; [|discriminate].
    intros H; injection H as <-. simpl. intros Ht.
    eapply index_by_last; eassumption. }
  apply (part_resolve_direct tv pv config payload q t Hb); [| |exact Hown].
  - rewrite Hp. simpl. apply String.eqb_neq in Hne. now rewrite Hne.
  - rewrite Hp. reflexivity.
Qed.

(** In [src/server.js] the first of the loaded templates with the
    requested key is the one resolved. *)
Theorem server_resolves_first config before t after q payload :
  ServerJs.templates config = before ++ t :: after ->
  get_prop t "template_key" = VStr q ->
  Forall (fun t' => get_prop t' "template_key" <> VStr q) before ->
  q <> EmptyString ->
  get_prop payload "template_key" = VStr q ->
  ServerJs.resolveTemplate config payload = t.
Proof.
  intros Ht Hq Hbefore Hne Hp. unfold ServerJs.resolveTemplate.
  rewrite Hp, Ht. simpl. apply String.eqb_neq in Hne. rewrite Hne. simpl.
  unfold find_value. clear Ht.
  induction Hbefore as [|r rs Hr HF IH]; simpl.
  - rewrite Hq. simpl. now rewrite String.eqb_refl.
  - destruct (strict_eq (get_prop r "template_key") (VStr q)) eqn:E; [|exact IH].
    exfalso. apply Hr. destruct (get_prop r "template_key"); simpl in E; try discriminate.
    apply String.eqb_eq in E. now subst.
Qed.
End Duplicates.

(** ** The two path lookups *)

Section PathLookups.
Context {rt : Runtime} {w : World}.

Lemma walk_undefined segments : segments <> [] -> ServerJs.walk segments VUndefined = VUndefined.
Proof. destruct segments; [congruence|reflexivity]. Qed.

Lemma strict_eq_undefined v : strict_eq v VUndefined = true -> v = VUndefined.
Proof. destruct v; simpl; intros H; try discriminate; reflexivity. Qed.

(** What the lookup of [src/server.js] finds, the lookup of
    [src/unnamed/part_000] finds too. *)
Lemma walk_within_fold segments :
  forall obj v,
    ServerJs.walk segments obj = v -> v <> VUndefined ->
    rfold Part000.step segments obj = Ok v.
Proof.
  induction segments as [|k ks IH]; intros obj v Hw Hv; [simpl in *; now subst|].
  simpl in Hw. simpl.
  destruct (is_nullish obj || negb (typeof_object obj) || negb (has_prop obj k)) eqn:G;
    [congruence|].
  apply orb_false_iff in G as [G _]. apply orb_false_iff in G as [Gn Gt].
  apply negb_false_iff in Gt.
  assert (Hobj : truthy obj = true) by (destruct obj; simpl in *; congruence).
  assert (Hread : read_prop obj k = Ok (get_prop obj k))
    by (destruct obj; simpl in *; try discriminate; reflexivity).
  destruct (strict_eq (get_prop obj k) VUndefined) eqn:E.
  - apply strict_eq_undefined in E. rewrite E in Hw.
    destruct ks; [simpl in Hw; congruence|]. simpl in Hw. congruence.
  - unfold Part000.step. rewrite Hobj, Hread. cbn [rbind]. rewrite E. simpl.
    apply IH; assumption.
Qed.

(** A required placeholder that [src/server.js] takes as present,
    [src/unnamed/part_000] takes as present too, with the same value. *)
Theorem present_in_both (payload : value) (p : string) (v : value) :
  p <> EmptyString ->
  ServerJs.getValueByPath payload (VStr p) = Ok v ->
  is_missing v = false ->
  Part000.getByPath payload (VStr p) = Ok v.
Proof.
  intros Hp Hs Hm. rewrite getValueByPath_string in Hs. injection Hs as Hs.
  rewrite getByPath_string. apply String.eqb_neq in Hp. rewrite Hp.
  apply walk_within_fold; [exact Hs|]. intros ->. discriminate.
Qed.

(** The converse fails: [src/unnamed/part_000] reads members of a text,
    [src/server.js] does not. *)
Lemma text_members_differ :
  let payload := VObj [("object", VObj [("run", VStr "12345678-5")])] in
  Part000.getByPath payload (VStr "object.run.length") = Ok (VNum 10) /\
  ServerJs.getValueByPath payload (VStr "object.run.length") = Ok VUndefined.
Proof. split; reflexivity. Qed.
End PathLookups.

(** ** Loading a configuration *)

Section ConfigLoad.
Context {rt : Runtime} {w : World}.

Lemma rmap_Exists_throw {A B : Type} (f : A -> result B) l :
  Exists (fun a => exists e, f a = Throw e) l -> exists e, rmap f l = Throw e.
Proof.
  induction 1 as [a l [e He] | a l _ [e IH]]; simpl.
  - rewrite He. simpl. eauto.
  - destruct (f a); simpl; [|eauto]. rewrite IH. simpl. eauto.
Qed.

Lemma rmap_total {A B : Type} (f : A -> result B) (P : B -> Prop) l :
  Forall (fun a => exists b, f a = Ok b /\ P b) l ->
  exists out, rmap f l = Ok out /\ Forall P out.
Proof.
  induction 1 as [|a l [b [Hb Pb]] _ [out [IH Pout]]]; simpl.
  - exists []. split; [reflexivity|constructor].
  - rewrite Hb, IH. simpl. exists (b :: out). split; [reflexivity|constructor; assumption].
Qed.

(** [src/server.js]: a cell of [required_placeholders] that is not empty
    and is no JSON array, in a row that is active, makes the whole
    normalisation throw: no template is loaded then. *)
Theorem server_bad_cell_fails (rows : list (list scalar)) :
  Exists (fun row =>
            coerces_true ServerJs.parseBoolean row = true /\
            truthy (get_prop row "required_placeholders") = true /\
            forall items, ~ parses_as_array (get_prop row "required_placeholders") items)
         (ServerJs.mapRowsToObjects rows) ->
  exists e, ServerJs.normalizeTemplates rows = Throw e.
Proof.
  intros Hex. unfold ServerJs.normalizeTemplates.
  destruct (rfilter _ (ServerJs.mapRowsToObjects rows)) as [kept|e] eqn:E; simpl; [|eauto].
  apply rfilter_filter in E. subst kept.
  apply rmap_Exists_throw. apply Exists_exists in Hex as [row [Hin [Ha [Ht Hn]]]].
  apply Exists_exists. exists row. split.
  - apply filter_In. split; [exact Hin|]. unfold coerces_true in Ha.
    destruct (ServerJs.parseBoolean _) as [[|]|]; congruence.
  - unfold ServerJs.template_of_row.
    destruct (ToString (get_prop row "template_key")) as [key|e]; cbn [rbind]; [|eauto].
    destruct (parseJsonArray_cases (get_prop row "required_placeholders")
                ("templates." +++ key +++ ".required_placeholders") Ht)
      as [[items [Hp _]] | [_ [reason Hr]]].
    + exfalso. exact (Hn items Hp).
    + rewrite Hr. cbn [rbind]. eauto.
Qed.

Lemma define_field_values (P : value -> Prop) fields k v :
  Forall (fun kv => P (snd kv)) fields -> P v ->
  Forall (fun kv => P (snd kv)) (define_field fields k v).
Proof.
  intros HF Hv. induction HF as [|[k' v'] rest H HF IH]; simpl.
  - repeat constructor. exact Hv.
  - destruct (String.eqb k' k); constructor; auto.
Qed.

Lemma fold_assign_values (P : value -> Prop) (g : nat -> value) names :
  (forall i, P (g i)) ->
  forall k acc,
    Forall (fun kv => P (snd kv)) acc ->
    Forall (fun kv => P (snd kv))
           (fold_left (fun obj ih => assign_field obj (snd ih) (g (fst ih)))
                      (enumerate_from k names) acc).
Proof.
  intros Hg. induction names as [|n names IH]; intros k acc Hacc; [exact Hacc|].
  simpl. apply IH. unfold assign_field.
  destruct (String.eqb n "__proto__"); [exact Hacc|].
  apply define_field_values; [exact Hacc|apply Hg].
Qed.

Lemma assoc_Forall {A : Type} (P : A -> Prop) k l x :
  Forall (fun kv => P (snd kv)) l -> assoc k l = Some x -> P x.
Proof.
  induction 1 as [|[k' v'] rest H HF IH]; simpl; [discriminate|].
  destruct (String.eqb k' k); [intros E; injection E as <-; exact H|exact IH].
Qed.

(** The members of a row object of [src/unnamed/part_000] convert to
    texts: they are cells, or [undefined]. *)
Lemma part_row_member headers r k :
  inherited_convertible rt ->
  exists s, ToString (get_prop (Part000.row_object headers r) k) = Ok s.
Proof.
  intros Hrt. unfold get_prop.
  destruct (own_prop (Part000.row_object headers r) k) as [x|] eqn:E.
  - unfold Part000.row_object in E. simpl in E.
    eapply (assoc_Forall (fun x => exists s, ToString x = Ok s)); [|exact E].
    apply (fold_assign_values (fun x => exists s, ToString x = Ok s)
             (fun i => match nth_error r i with
                       | Some c => of_scalar c
                       | None => VUndefined
                       end)); [|constructor].
    intros i. destruct (nth_error r i) as [[s|n|[|]]|]; simpl; eauto.
  - destruct (inherited _ k) as [x|] eqn:Ei; [exact (Hrt _ _ _ Ei)|].
    simpl; eauto.
Qed.

Lemma toBool_returns v : (exists s, ToString v = Ok s) -> exists b, Part000.toBool v = Ok b.
Proof.
  intros [s Hs]. unfold Part000.toBool. destruct v; eauto; rewrite Hs; simpl; eauto.
Qed.

Lemma index_by_returns key records :
  Forall (fun t => exists s, ToString (get_prop t key) = Ok s) records ->
  exists table, Part000.index_by key records = Ok table.
Proof.
  intros H. unfold Part000.index_by.
  destruct (rmap_total (fun t => let? k := ToString (get_prop t key) in Ok (k, t))
              (fun _ => True) records) as [entries [He _]].
  - eapply Forall_impl; [|exact H]. intros t [s Hs]. rewrite Hs. simpl. eauto.
  - rewrite He. simpl. eauto.
Qed.

Lemma active_only_Forall (P : value -> Prop) l :
  Forall P l -> Forall P (Part000.active_only l).
Proof.
  intros H. unfold Part000.active_only. apply Forall_forall. intros x Hx.
  apply filter_In in Hx as [Hx _]. rewrite Forall_forall in H. apply H, Hx.
Qed.

Lemma rowsToObjects_rows values :
  Forall (fun row => exists headers r, row = Part000.row_object headers r)
         (Part000.rowsToObjects values).
Proof.
  unfold Part000.rowsToObjects. destruct (_ <? 2)%nat; [constructor|].
  apply Forall_forall. intros row Hin. apply in_map_iff in Hin as [r [<- _]]. eauto.
Qed.

(** [src/unnamed/part_000] builds a configuration from whatever the two
    ranges hold: no cell makes the load throw. *)
Theorem part_config_always_builds (tv pv : option (list (list scalar))) :
  inherited_convertible rt ->
  exists config, Part000.build_config tv pv = Ok config.
Proof.
  intros Hrt. unfold Part000.build_config.
  destruct (rmap_total Part000.template_of_row
              (fun t => exists s, ToString (get_prop t "template_key") = Ok s)
              (Part000.rowsToObjects tv)) as [mt [Hmt Pmt]].
  { eapply Forall_impl; [|apply rowsToObjects_rows].
    intros row [headers [r ->]]. unfold Part000.template_of_row.
    destruct (toBool_returns _ (part_row_member headers r "keep_intermediate_doc" Hrt))
      as [keep ->].
    destruct (toBool_returns _ (part_row_member headers r "is_active" Hrt)) as [act ->].
    simpl. eexists. split; [reflexivity|].
    apply (part_row_member headers r "template_key" Hrt). }
  destruct (rmap_total Part000.package_of_row
              (fun t => exists s, ToString (get_prop t "package_key") = Ok s)
              (Part000.rowsToObjects pv)) as [mp [Hmp Pmp]].
  { eapply Forall_impl; [|apply rowsToObjects_rows].
    intros row [headers [r ->]]. unfold Part000.package_of_row.
    destruct (toBool_returns _ (part_row_member headers r "is_active" Hrt)) as [act ->].
    simpl. eexists. split; [reflexivity|].
    apply (part_row_member headers r "package_key" Hrt). }
  rewrite Hmt, Hmp. simpl.
  destruct (index_by_returns "template_key" (Part000.active_only mt)) as [byT ->];
    [apply active_only_Forall, Pmt|].
  destruct (index_by_returns "package_key" (Part000.active_only mp)) as [byP ->];
    [apply active_only_Forall, Pmp|].
  simpl. eauto.
Qed.
End ConfigLoad.

(** ** Answers of the endpoints *)

Section Returns.
Context {w : World} {C L : Type}.

Lemma returns_ret {A : Type} (P : A -> Prop) a : P a -> returns_only P (ret a : M C L A).
Proof. intros H s a' E. injection E as <-. exact H. Qed.

Lemma returns_throw {A : Type} (P : A -> Prop) e : returns_only P (throw e : M C L A).
Proof. intros s a E. discriminate. Qed.

Lemma returns_bind {A B : Type} (P : B -> Prop) (m : M C L A) (k : A -> M C L B) :
  (forall a, returns_only P (k a)) -> returns_only P (bind m k).
Proof.
  intros Hk s b. unfold bind. destruct (m s) as [s1 [a|e]]; simpl; [apply Hk|discriminate].
Qed.

Lemma returns_lift_bind {A B : Type} (P : B -> Prop) (r : result A) (k : A -> M C L B) :
  (forall a, r = Ok a -> returns_only P (k a)) -> returns_only P (bind (lift r) k).
Proof.
  intros Hk s b. unfold bind, lift. destruct r as [a|e]; simpl; [apply Hk; reflexivity|discriminate].
Qed.

Lemma returns_try_catch {A : Type} (P : A -> Prop) (m : M C L A) (h : error -> M C L A) :
  returns_only P m -> (forall e, returns_only P (h e)) -> returns_only P (try_catch m h).
Proof.
  intros Hm Hh s a. unfold try_catch. specialize (Hm s).
  destruct (m s) as [s1 [a'|e]]; simpl in *; [intros E; apply Hm; exact E|apply Hh].
Qed.

Lemma returns_never_bind {A B : Type} (P : B -> Prop) (m : M C L A) (k : A -> M C L B) :
  returns_only (fun _ => False) m -> returns_only P (bind m k).
Proof.
  intros Hm s b. unfold bind. specialize (Hm s).
  destruct (m s) as [s1 [a|e]]; simpl in *; [destruct (Hm a eq_refl)|discriminate].
Qed.

Lemma returns_weaken {A : Type} (P Q : A -> Prop) (m : M C L A) :
  (forall a, P a -> Q a) -> returns_only P m -> returns_only Q m.
Proof. intros HPQ Hm s a E. apply HPQ, (Hm s a E). Qed.

(** [try_catch] with a handler that answers always returns. *)
Lemma try_catch_returns {A : Type} (m : M C L A) (h : error -> M C L A) :
  (forall e s, exists a, snd (h e s) = Ok a) ->
  forall s, exists a, snd (try_catch m h s) = Ok a.
Proof.
  intros Hh s. unfold try_catch. destruct (m s) as [s1 [a|e]]; simpl; [eauto|apply Hh].
Qed.

End Returns.

Ltac returns_step :=
  first
    [ apply returns_ret | apply returns_throw
    | apply returns_bind; intros ?
    | apply returns_try_catch; [|intros ?]
    | match goal with
      | |- returns_only _ (if ?b then _ else _) => destruct b
      | |- returns_only _ (match ?x with _ => _ end) => destruct x
      end ].

Section Statuses.
Context {rt : Runtime} {w : World}.

Lemma server_catch_returns e (s : state ServerJs.configCache value) :
  exists resp, snd (ServerJs.render_catch e s) = Ok resp.
Proof.
  unfold ServerJs.render_catch. run.
  destruct (st_local s) as [| | | |id| | |]; simpl; eauto.
  destruct (negb (String.eqb id EmptyString)); simpl; eauto.
  destruct (drive_files_delete (st_trace s) id); simpl; eauto.
Qed.

(** [src/server.js]: the render handler always answers, and with one of
    three statuses: 200, 400 or 500. *)
Theorem server_render_statuses (body : value) (s : state ServerJs.configCache value) :
  exists resp,
    snd (ServerJs.render body s) = Ok resp /\
    (status resp = 200 \/ status resp = 400 \/ status resp = 500)%Z.
Proof.
  assert (Hret : exists resp, snd (ServerJs.render body s) = Ok resp).
  { unfold ServerJs.render. unfold bind at 1. simpl.
    apply try_catch_returns. apply server_catch_returns. }
  destruct Hret as [resp Hresp]. exists resp. split; [exact Hresp|].
  revert s resp Hresp.
  change (returns_only (fun r => status r = 200 \/ status r = 400 \/ status r = 500)%Z
                       (ServerJs.render body)).
  unfold ServerJs.render, ServerJs.render_try, ServerJs.with_config, ServerJs.produce,
    ServerJs.render_catch.
  repeat returns_step; simpl; auto.
Qed.

Lemma server_createSellNote_null {C L : Type} payload template pdf :
  get_prop payload "sell" = VNull ->
  returns_only (fun _ => False)
               (ServerJs.createSellNote payload template pdf : M C L value).
Proof.
  intros H s a. unfold ServerJs.createSellNote. rewrite H. simpl. discriminate.
Qed.

(** [src/server.js]: a body whose [sell] member is [null] is never
    answered 200: the note step reads a member of [null] and throws, also
    when the PDF was uploaded before. *)
Theorem server_null_sell_fails (body : value) (s : state ServerJs.configCache value)
    (resp : response) :
  get_prop (or_else body (VObj [])) "sell" = VNull ->
  snd (ServerJs.render body s) = Ok resp ->
  (status resp = 400 \/ status resp = 500)%Z.
Proof.
  intros Hsell. revert s resp.
  change (returns_only (fun r => status r = 400 \/ status r = 500)%Z (ServerJs.render body)).
  unfold ServerJs.render, ServerJs.render_try, ServerJs.with_config, ServerJs.produce,
    ServerJs.render_catch.
  repeat first [ apply returns_never_bind; apply server_createSellNote_null; exact Hsell
               | returns_step ]; simpl; auto.
Qed.

(** [GET /v1/config], in both variants: it always answers, with 200 or
    500, and on the way it only reads the clock and the two ranges (and, in
    [src/unnamed/part_000], authorizes): no call to Drive, Docs or the
    CRM. *)
Theorem config_endpoint_reads_only :
  (forall s : state ServerJs.configCache value,
      (exists resp, snd (ServerJs.get_config s) = Ok resp /\
                    (status resp = 200 \/ status resp = 500)%Z) /\
      emits_at config_only ServerJs.get_config s) /\
  (forall s : state Part000.CONFIG_CACHE unit,
      (exists resp, snd (Part000.get_config s) = Ok resp /\
                    (status resp = 200 \/ status resp = 500)%Z) /\
      emits_at config_only Part000.get_config s).
Proof.
  split; intros s; split.
  - assert (H : exists resp, snd (ServerJs.get_config s) = Ok resp).
    { apply try_catch_returns. intros e s'. eexists; reflexivity. }
    destruct H as [resp H]. exists resp. split; [exact H|].
    revert s resp H.
    change (returns_only (fun r => status r = 200 \/ status r = 500)%Z
                         (ServerJs.get_config : M _ value _)).
    unfold ServerJs.get_config. repeat returns_step; simpl; auto.
  - unfold ServerJs.get_config, ServerJs.loadConfig, ServerJs.cached, ServerJs.refresh,
      ServerJs.readSheet.
    repeat emits_step.
  - assert (H : exists resp, snd (Part000.get_config s) = Ok resp).
    { apply try_catch_returns. intros e s'. eexists; reflexivity. }
    destruct H as [resp H]. exists resp. split; [exact H|].
    revert s resp H.
    change (returns_only (fun r => status r = 200 \/ status r = 500)%Z Part000.get_config).
    unfold Part000.get_config. repeat returns_step; simpl; auto.
  - unfold Part000.get_config, Part000.makeGoogleClients, Part000.loadConfig,
      Part000.refresh.
    repeat emits_step.
Qed.
End Statuses.

(** ** The documents a render works on *)

Section Touched.
Context {w : World} {C : Type}.

Lemma untargeted_calm l : Forall untargeted l -> Forall calm l.
Proof.
  apply Forall_impl. intros e. unfold untargeted, calm.
  destruct (ev_call e); try contradiction; intros _; exact I.
Qed.

Lemma untargeted_aims id l : Forall untargeted l -> Forall (aims_at id) l.
Proof.
  apply Forall_impl. intros e. unfold untargeted, aims_at.
  destruct (ev_call e); try contradiction; intros _; exact I.
Qed.

Lemma tends_quiet {A : Type} id (m : M C value A) :
  emits (aims_at id) m -> frames m -> tends id m.
Proof.
  intros He Hf s Hl. destruct (He s) as [events [Htr HF]].
  exists events. split; [exact Htr|]. split; [exact HF|]. rewrite Hf. exact Hl.
Qed.

Lemma tends_bind {A B : Type} id (m : M C value A) (k : A -> M C value B) :
  tends id m -> (forall a, tends id (k a)) -> tends id (bind m k).
Proof.
  intros Hm Hk s Hl. unfold bind. destruct (Hm s Hl) as [ev1 [H1 [F1 L1]]].
  destruct (m s) as [s1 [a|e]]; simpl in *.
  - destruct (Hk a s1 L1) as [ev2 [H2 [F2 L2]]]. exists (ev1 ++ ev2).
    split; [rewrite H2, H1; symmetry; apply app_assoc|].
    split; [apply Forall_app; auto|exact L2].
  - exists ev1. auto.
Qed.

Lemma tends_set_null id : tends id (set_local VNull : M C value unit).
Proof.
  intros s _. exists []. simpl. rewrite app_nil_r.
  split; [reflexivity|]. split; [constructor|right; reflexivity].
Qed.

Lemma touches_quiet {A : Type} (m : M C value A) :
  emits untargeted m -> frames m -> touches_copy m.
Proof.
  intros He Hf s. destruct (He s) as [events [Htr HF]].
  exists events. split; [exact Htr|]. left. split; [apply untargeted_calm, HF|apply Hf].
Qed.

Lemma touches_front {A B : Type} (m : M C value A) (k : A -> M C value B) :
  emits untargeted m -> frames m -> (forall a, touches_copy (k a)) ->
  touches_copy (bind m k).
Proof.
  intros He Hf Hk s. unfold bind.
  destruct (He s) as [ev1 [H1 F1]]. specialize (Hf s).
  destruct (m s) as [s1 [a|e]]; simpl in *.
  - destruct (Hk a s1) as [ev2 [H2 Hcase]]. exists (ev1 ++ ev2).
    split; [rewrite H2, H1; symmetry; apply app_assoc|].
    destruct Hcase as [[Fc Hl] | [pre [src [name [parents [id [post
                                    [-> [Hcopy [Fpre [Fpost Hl]]]]]]]]]]].
    + left. split; [apply Forall_app; split; [apply untargeted_calm, F1|exact Fc]|].
      congruence.
    + right. exists (ev1 ++ pre), src, name, parents, id, post.
      split; [rewrite <- app_assoc; reflexivity|].
      split; [rewrite app_assoc, <- H1; exact Hcopy|].
      split; [apply Forall_app; auto|]. split; [exact Fpost|exact Hl].
  - exists ev1. split; [exact H1|]. left. split; [apply untargeted_calm, F1|exact Hf].
Qed.

Lemma touches_copy_then {B : Type} source name parents (k : string -> M C value B) :
  (forall id, tends id (k id)) ->
  touches_copy
    (bind (perform (CDriveCopy source name parents)
                   (fun t => drive_files_copy t source name parents))
          (fun id => bind (set_local (VStr id)) (fun _ => k id))).
Proof.
  intros Hk s. unfold bind, perform, set_local.
  destruct (drive_files_copy (st_trace s) source name parents) as [id|e] eqn:Hcopy; simpl.
  - match goal with
    | |- context [k id ?s1] =>
        destruct (Hk id s1 (or_introl eq_refl)) as [post [Htr [HF Hl]]];
          destruct (k id s1) as [s2 r]
    end.
    simpl in *.
    eexists. split; [rewrite Htr, <- app_assoc; reflexivity|].
    right. exists [], source, name, parents, id, post.
    split; [reflexivity|]. rewrite app_nil_r.
    split; [exact Hcopy|]. split; [constructor|]. split; [exact HF|].
    destruct r; exact Hl.
  - eexists. split; [reflexivity|]. left. split; [|reflexivity].
    repeat constructor.
Qed.

End Touched.

Ltac tends_step :=
  first
    [ apply tends_set_null
    | apply tends_bind; [|intros ?]
    | match goal with
      | |- tends _ (if ?b then _ else _) => destruct b
      | |- tends _ (match ?x with _ => _ end) => destruct x
      end
    | apply tends_quiet; [solve [repeat emits_step]|solve [repeat frames_step]] ].

Section TouchedRender.
Context {rt : Runtime} {w : World}.

Lemma server_loadConfig_untargeted {L : Type} :
  emits untargeted (ServerJs.loadConfig : M ServerJs.configCache L ServerJs.Config).
Proof.
  unfold ServerJs.loadConfig, ServerJs.cached, ServerJs.refresh, ServerJs.readSheet.
  repeat emits_step.
Qed.

Lemma server_produce_touches payload template required :
  touches_copy (ServerJs.produce payload template required).
Proof.
  unfold ServerJs.produce.
  apply touches_front; [repeat emits_step|repeat frames_step|intros now].
  apply touches_front; [repeat emits_step|repeat frames_step|intros key].
  apply touches_copy_then. intros id.
  unfold ServerJs.createSellNote.
  repeat tends_step.
Qed.

Lemma server_render_try_touches body : touches_copy (ServerJs.render_try body).
Proof.
  unfold ServerJs.render_try.
  apply touches_front; [apply server_loadConfig_untargeted|apply server_loadConfig_frames|].
  intros config. unfold ServerJs.with_config.
  destruct (negb _); [apply touches_quiet; [repeat emits_step|repeat frames_step]|].
  apply touches_front; [repeat emits_step|repeat frames_step|intros required].
  apply touches_front; [repeat emits_step|repeat frames_step|intros missing].
  destruct (_ <? _)%nat; [apply touches_quiet; [repeat emits_step|repeat frames_step]|].
  apply server_produce_touches.
Qed.

(** [src/server.js]: a render works on no document but the copy it made.
    Before the copy nothing is edited, exported, deleted or checked; after
    it, every edit, export and delete names the id the copy call answered,
    and nothing else is copied. *)
Theorem server_only_copy_touched (body : value) (s : state ServerJs.configCache value) :
  exists events,
    st_trace (fst (ServerJs.render body s)) = st_trace s ++ events /\
    only_copy_touched (st_trace s) events.
Proof.
  unfold ServerJs.render. unfold bind at 1. simpl.
  set (s0 := mkState (st_trace s) (st_cache s) VUndefined).
  destruct (server_render_try_touches body s0) as [events [Htr Hcase]].
  unfold try_catch. destruct (ServerJs.render_try body s0) as [s1 [resp|e]]; simpl in *.
  - exists events. split; [exact Htr|].
    destruct Hcase as [[Fc _] | [pre [src [name [parents [id [post
                                   [-> [Hcopy [Fpre [Fpost _]]]]]]]]]]].
    + left; exact Fc.
    + right. exists pre, src, name, parents, id, post. auto.
  - unfold ServerJs.render_catch. run.
    destruct Hcase as [[Fc Hl] | [pre [src [name [parents [id [post
                                    [-> [Hcopy [Fpre [Fpost Hl]]]]]]]]]]].
    + rewrite Hl. simpl. exists events. split; [exact Htr|left; exact Fc].
    + destruct Hl as [-> | ->]; simpl.
      * destruct (negb (String.eqb id EmptyString)); simpl.
        -- destruct (drive_files_delete (st_trace s1) id); simpl;
             (eexists; split; [rewrite Htr, <- app_assoc; reflexivity|]);
             right; exists pre, src, name, parents, id;
             eexists; (split; [rewrite <- app_assoc; reflexivity|]);
             (split; [exact Hcopy|]); (split; [exact Fpre|]);
             apply Forall_app; split; try exact Fpost; repeat constructor.
        -- exists (pre ++ mkEvent (CDriveCopy src name parents) Done :: post).
           split; [exact Htr|]. right. exists pre, src, name, parents, id, post. auto.
      * exists (pre ++ mkEvent (CDriveCopy src name parents) Done :: post).
        split; [exact Htr|]. right. exists pre, src, name, parents, id, post. auto.
Qed.

(** *** [src/unnamed/part_000] *)

Lemma touching_quiet {C L A : Type} (m : M C L A) : emits untargeted m -> touching m.
Proof.
  intros He s. destruct (He s) as [events [Htr HF]].
  exists events. split; [exact Htr|]. left. apply untargeted_calm, HF.
Qed.

Lemma touching_front {C L A B : Type} (m : M C L A) (k : A -> M C L B) :
  emits untargeted m -> (forall a, touching (k a)) -> touching (bind m k).
Proof.
  intros He Hk s. unfold bind. destruct (He s) as [ev1 [H1 F1]].
  destruct (m s) as [s1 [a|e]]; simpl in *.
  - destruct (Hk a s1) as [ev2 [H2 Hcase]]. exists (ev1 ++ ev2).
    split; [rewrite H2, H1; symmetry; apply app_assoc|].
    destruct Hcase as [Fc | [pre [src [name [parents [id [post
                              [-> [Hcopy [Fpre Fpost]]]]]]]]]].
    + left. apply Forall_app; split; [apply untargeted_calm, F1|exact Fc].
    + right. exists (ev1 ++ pre), src, name, parents, id, post.
      split; [rewrite <- app_assoc; reflexivity|].
      split; [rewrite app_assoc, <- H1; exact Hcopy|].
      split; [apply Forall_app; auto|exact Fpost].
  - exists ev1. split; [exact H1|]. left. apply untargeted_calm, F1.
Qed.

Lemma touching_then_quiet {C L A B : Type} (m : M C L A) (k : A -> M C L B) :
  touching m -> (forall a, emits untargeted (k a)) -> touching (bind m k).
Proof.
  intros Hm Hk s. unfold bind. destruct (Hm s) as [ev1 [H1 Hcase]].
  destruct (m s) as [s1 [a|e]]; simpl in *; [|exists ev1; auto].
  destruct (Hk a s1) as [ev2 [H2 F2]]. exists (ev1 ++ ev2).
  split; [rewrite H2, H1; symmetry; apply app_assoc|].
  destruct Hcase as [Fc | [pre [src [name [parents [id [post
                            [-> [Hcopy [Fpre Fpost]]]]]]]]]].
  - left. apply Forall_app; split; [exact Fc|apply untargeted_calm, F2].
  - right. exists pre, src, name, parents, id, (post ++ ev2).
    split; [rewrite <- app_assoc; reflexivity|].
    split; [exact Hcopy|]. split; [exact Fpre|].
    apply Forall_app; split; [exact Fpost|apply untargeted_aims, F2].
Qed.

Lemma part_waitForFile_aims {C L : Type} fileId :
  emits (aims_at fileId) (Part000.waitForFile fileId : M C L bool).
Proof.
  unfold Part000.waitForFile. induction Part000.delays as [|delay rest IH]; simpl.
  - apply emits_throw.
  - apply emits_bind.
    + unfold Part000.check_once. repeat emits_step.
    + intros [found|]; [apply emits_ret|exact IH].
Qed.

Lemma part_fill_aims {C L : Type} template payload folderId docId :
  emits (aims_at docId) (Part000.fill template payload folderId docId : M C L value).
Proof.
  unfold Part000.fill, Part000.finish, Part000.delete_quietly.
  repeat first [apply part_waitForFile_aims | emits_step].
Qed.

Lemma part_renderDoc_touching {C L : Type} template payload folderId :
  touching (Part000.renderGoogleDocToPdf template payload folderId : M C L value).
Proof.
  intros s. unfold Part000.renderGoogleDocToPdf, Part000.copy_and_wait. run.
  destruct (ToString (get_prop template "template_key")) as [key|e]; simpl.
  2:{ exists [mkEvent CNow Done]. split; [reflexivity|]. left. repeat constructor. }
  destruct (drive_files_copy _ _ _ _) as [id|e] eqn:Hcopy; simpl.
  2:{ eexists. split; [rewrite <- app_assoc; reflexivity|]. left. repeat constructor. }
  assert (Hshape : forall (s' : state C L) post,
             st_trace s' = ((st_trace s ++ [mkEvent CNow Done]) ++
                            [mkEvent (CDriveCopy (get_prop template "doc_template_id")
                                        ("tmp_" +++ show_Z (Date_now (st_trace s)) +++ "_" +++ key)
                                        VUndefined) Done]) ++ post ->
             Forall (aims_at id) post ->
             exists events,
               st_trace s' = st_trace s ++ events /\
               only_copy_touched (st_trace s) events).
  { intros s' post Htr HF. eexists. split; [rewrite Htr, <- !app_assoc; reflexivity|].
    right. exists [mkEvent CNow Done]. do 3 eexists. exists id, post.
    split; [reflexivity|]. split; [exact Hcopy|]. split; [repeat constructor|exact HF]. }
  match goal with
  | |- context [Part000.waitForFile id ?s1] =>
      destruct (part_waitForFile_aims id s1) as [evw [Hw Fw]];
        destruct (Part000.waitForFile id s1) as [s2 [found|e]]
  end; simpl in *.
  2:{ apply (Hshape s2 evw Hw Fw). }
  destruct (part_fill_aims template payload folderId id s2) as [evf [Hf Ff]].
  destruct (Part000.fill template payload folderId id s2) as [s3 r]; simpl in *.
  assert (H3 : exists events,
             st_trace s3 = st_trace s ++ events /\
             only_copy_touched (st_trace s) events).
  { apply (Hshape s3 (evw ++ evf)); [rewrite Hf, Hw, <- !app_assoc; reflexivity|].
    apply Forall_app; auto. }
  destruct r; exact H3.
Qed.

Lemma part_render_try_touching body : touching (Part000.render_try body).
Proof.
  unfold Part000.render_try, Part000.with_config.
  apply touching_front;
    [unfold Part000.makeGoogleClients; repeat emits_step|intros _].
  apply touching_front;
    [unfold Part000.loadConfig, Part000.refresh; repeat emits_step|intros config].
  apply touching_front; [repeat emits_step|intros template].
  destruct (negb _); [apply touching_quiet; repeat emits_step|].
  apply touching_front; [repeat emits_step|intros folderId].
  apply touching_then_quiet; [apply part_renderDoc_touching|intros out].
  unfold Part000.sellCreateNote. repeat emits_step.
Qed.

(** [src/unnamed/part_000]: a render works on no document but the copy
    it made: every existence check, edit, export and delete names the id
    the copy call answered, and nothing else is copied. *)
Theorem part_only_copy_touched (body : value) (s : state Part000.CONFIG_CACHE unit) :
  exists events,
    st_trace (fst (Part000.render body s)) = st_trace s ++ events /\
    only_copy_touched (st_trace s) events.
Proof.
  unfold Part000.render, try_catch.
  destruct (part_render_try_touching body s) as [events [Htr H]].
  destruct (Part000.render_try body s) as [s1 [resp|e]]; simpl in *;
    exists events; auto.
Qed.
End TouchedRender.

(** ** The time a render waits *)

Section Polls.
Context {rt : Runtime} {w : World} {C L : Type}.

Lemma sleeps_app a b : sleeps (a ++ b) = sleeps a ++ sleeps b.
Proof.
  induction a as [|e a IH]; simpl; [reflexivity|].
  destruct (sleep_of e); simpl; now rewrite IH.
Qed.

Lemma slept_app a b : slept (a ++ b) = (slept a + slept b)%Z.
Proof.
  unfold slept. rewrite sleeps_app. induction (sleeps a) as [|x l IH]; simpl; [reflexivity|].
  rewrite IH. lia.
Qed.

Lemma no_poll_free events :
  Forall no_poll events ->
  slept events = 0%Z /\ List.length (filter is_file_check events) = 0%nat.
Proof.
  induction 1 as [|e l He _ [IH1 IH2]]; [split; reflexivity|].
  unfold slept in *. unfold no_poll in He. simpl. unfold sleep_of, is_file_check.
  destruct (ev_call e); try contradiction; simpl; auto.
Qed.

Lemma polls_quiet {A : Type} ms n (m : M C L A) :
  (0 <= ms)%Z -> emits no_poll m -> polls ms n m.
Proof.
  intros Hms He s. destruct (He s) as [events [Htr HF]].
  destruct (no_poll_free events HF) as [H1 H2].
  exists events. split; [exact Htr|]. rewrite H1, H2. split; lia.
Qed.

Lemma polls_bind {A B : Type} ms1 n1 ms2 n2 (m : M C L A) (k : A -> M C L B) :
  (0 <= ms2)%Z ->
  polls ms1 n1 m -> (forall a, polls ms2 n2 (k a)) ->
  polls (ms1 + ms2) (n1 + n2) (bind m k).
Proof.
  intros H0 Hm Hk s. unfold bind. destruct (Hm s) as [ev1 [H1 [S1 C1]]].
  destruct (m s) as [s1 [a|e]]; simpl in *.
  - destruct (Hk a s1) as [ev2 [H2 [S2 C2]]]. exists (ev1 ++ ev2).
    split; [rewrite H2, H1; symmetry; apply app_assoc|].
    rewrite slept_app, filter_app, length_app. split; lia.
  - exists ev1. split; [exact H1|]. split; lia.
Qed.

Lemma polls_front {A B : Type} ms n (m : M C L A) (k : A -> M C L B) :
  (0 <= ms)%Z -> emits no_poll m -> (forall a, polls ms n (k a)) -> polls ms n (bind m k).
Proof.
  intros H0 He Hk s.
  destruct (polls_bind 0 0 ms n m k H0 (polls_quiet 0 0 m (Z.le_refl 0) He) Hk s)
    as [events H].
  exists events. exact H.
Qed.

Lemma polls_then_quiet {A B : Type} ms n (m : M C L A) (k : A -> M C L B) :
  polls ms n m -> (forall a, emits no_poll (k a)) -> polls ms n (bind m k).
Proof.
  intros Hm Hk s.
  destruct (polls_bind ms n 0 0 m k (Z.le_refl 0) Hm
              (fun a => polls_quiet 0 0 (k a) (Z.le_refl 0) (Hk a)) s) as [events H].
  exists events. rewrite Z.add_0_r, Nat.add_0_r in H. exact H.
Qed.

Lemma polls_try_quiet {A : Type} ms n (m : M C L A) (h : error -> M C L A) :
  polls ms n m -> (forall e, emits no_poll (h e)) -> polls ms n (try_catch m h).
Proof.
  intros Hm Hh s. unfold try_catch. destruct (Hm s) as [ev1 [H1 [S1 C1]]].
  destruct (m s) as [s1 [a|e]]; simpl in *; [exists ev1; auto|].
  destruct (Hh e s1) as [ev2 [H2 F2]]. destruct (no_poll_free ev2 F2) as [Z2 N2].
  exists (ev1 ++ ev2). split; [rewrite H2, H1; symmetry; apply app_assoc|].
  rewrite slept_app, filter_app, length_app. split; lia.
Qed.

(** One poll sleeps 4700 ms at most, over six checks at most. *)
Lemma part_waitForFile_polls fileId :
  polls 4700 6 (Part000.waitForFile fileId : M C L bool).
Proof.
  intros s. unfold Part000.waitForFile.
  destruct (waitForFile_loop_polled fileId Part000.delays s) as [events [H1 H2]].
  exists events. split; [rewrite H1; reflexivity|].
  split; [|apply (polled_checks _ _ _ _ H2)].
  destruct (polled_sleeps _ _ _ _ H2) as [k Hk]. unfold slept. rewrite Hk.
  unfold Part000.delays.
  do 7 (destruct k as [|k]; [simpl; lia|]). simpl. lia.
Qed.

End Polls.

Section RenderPolls.
Context {rt : Runtime} {w : World}.

Lemma part_finish_polls {C L : Type} template payload folderId docId requests :
  polls 4700 6 (Part000.finish template payload folderId docId requests : M C L value).
Proof.
  unfold Part000.finish, Part000.delete_quietly.
  apply polls_front; [lia|repeat emits_step|intros _].
  apply polls_then_quiet; [apply part_waitForFile_polls|intros _].
  repeat emits_step.
Qed.

Lemma part_renderDoc_polls {C L : Type} template payload folderId :
  polls 9400 12 (Part000.renderGoogleDocToPdf template payload folderId : M C L value).
Proof.
  unfold Part000.renderGoogleDocToPdf.
  apply (polls_bind 4700 6 4700 6); [lia| |intros docId].
  - unfold Part000.copy_and_wait.
    apply polls_front; [lia|repeat emits_step|intros now].
    apply polls_front; [lia|repeat emits_step|intros key].
    apply polls_front; [lia|repeat emits_step|intros docId].
    apply polls_then_quiet; [apply part_waitForFile_polls|intros _].
    apply emits_ret.
  - unfold Part000.fill.
    apply polls_front; [lia|repeat emits_step|intros built].
    destruct (0 <? _)%nat; [|apply part_finish_polls].
    apply polls_quiet; [lia|]. unfold Part000.delete_quietly. repeat emits_step.
Qed.

(** [src/unnamed/part_000]: a render waits for the copy in two polls only:
    in all it sleeps 9400 ms at most and checks the existence of a file
    twelve times at most. *)
Theorem part_render_polls (body : value) (s : state Part000.CONFIG_CACHE unit) :
  exists events,
    st_trace (fst (Part000.render body s)) = st_trace s ++ events /\
    (slept events <= 9400)%Z /\
    (List.length (filter is_file_check events) <= 12)%nat.
Proof.
  revert s. change (polls 9400 12 (Part000.render body)).
  unfold Part000.render, Part000.render_try, Part000.with_config.
  apply polls_try_quiet; [|intros e; apply emits_ret].
  apply polls_front; [lia|unfold Part000.makeGoogleClients; repeat emits_step|intros _].
  apply polls_front;
    [lia|unfold Part000.loadConfig, Part000.refresh; repeat emits_step|intros config].
  apply polls_front; [lia|repeat emits_step|intros template].
  destruct (negb _); [apply polls_quiet; [lia|apply emits_ret]|].
  apply polls_front; [lia|repeat emits_step|intros folderId].
  apply polls_then_quiet; [apply part_renderDoc_polls|intros out].
  unfold Part000.sellCreateNote. repeat emits_step.
Qed.

(** [src/server.js] never sleeps and never checks that a file exists. *)
Lemma server_never_polls (body : value) :
  emits no_poll (ServerJs.render body).
Proof.
  unfold ServerJs.render, ServerJs.render_try, ServerJs.render_catch, ServerJs.with_config,
    ServerJs.produce, ServerJs.createSellNote, ServerJs.loadConfig, ServerJs.cached,
    ServerJs.refresh, ServerJs.readSheet.
  repeat emits_step.
Qed.
End RenderPolls.

(** ** Where the files go *)

Section Placement.
Context {rt : Runtime} {w : World}.

(** [src/server.js]: the copy and the PDF of a render go to the folder
    the body names, [deal.folder_id] first and [folder_id] else, passed on
    as it is; with neither, they are given no parent. *)
Theorem server_files_placed (body : value) (s : state ServerJs.configCache value) :
  let payload := or_else body (VObj []) in
  let folderId :=
    or_else (get_opt (get_opt payload "deal") "folder_id") (get_prop payload "folder_id") in
  emits_at (placed_under (if truthy folderId then VArr [folderId] else VUndefined))
           (ServerJs.render body) s.
Proof.
  intros payload folderId. revert s.
  change (emits (placed_under (ServerJs.parents_of folderId)) (ServerJs.render body)).
  unfold ServerJs.render, ServerJs.render_try, ServerJs.render_catch, ServerJs.with_config,
    ServerJs.produce, ServerJs.createSellNote, ServerJs.loadConfig, ServerJs.cached,
    ServerJs.refresh, ServerJs.readSheet.
  fold payload. fold folderId.
  repeat emits_step.
Qed.

(** [src/unnamed/part_000]: the copy of a render is given no parent, and
    the PDF goes to the folder whose id [normalizeDriveId] reads from
    [deal.folder_id], or else from [folder_id]; with neither, the PDF is
    given no parent. *)
Theorem part_files_placed (body : value) (s : state Part000.CONFIG_CACHE unit)
    (folder : string) :
  let payload := or_else body (VObj []) in
  Part000.normalizeDriveId
    (or_else (or_else (get_opt (get_opt payload "deal") "folder_id")
                      (get_opt payload "folder_id"))
             (VStr EmptyString)) = Ok folder ->
  emits_at (uploaded_under (if String.eqb folder EmptyString then VUndefined
                            else VArr [VStr folder]))
           (Part000.render body) s.
Proof.
  intros payload Hf. revert s.
  change (emits (uploaded_under (if String.eqb folder EmptyString then VUndefined
                                 else VArr [VStr folder])) (Part000.render body)).
  assert (Hw : forall (C L : Type) id,
             emits (uploaded_under (if String.eqb folder EmptyString then VUndefined
                                    else VArr [VStr folder]))
                   (Part000.waitForFile id : M C L bool)).
  { intros C L id. unfold Part000.waitForFile.
    induction Part000.delays as [|delay rest IH]; simpl; [apply emits_throw|].
    apply emits_bind; [unfold Part000.check_once; repeat emits_step|].
    intros [found|]; [apply emits_ret|exact IH]. }
  assert (Hp : Part000.parents_of (or_else (VStr folder) VNull) =
               (if String.eqb folder EmptyString then VUndefined else VArr [VStr folder])).
  { unfold Part000.parents_of, or_else. simpl.
    destruct (String.eqb folder EmptyString) eqn:E; simpl; [reflexivity|].
    now rewrite E. }
  unfold Part000.render, Part000.render_try, Part000.with_config.
  apply emits_try_catch; [|intros e; apply emits_ret].
  apply emits_bind; [unfold Part000.makeGoogleClients; repeat emits_step|intros _].
  apply emits_bind;
    [unfold Part000.loadConfig, Part000.refresh; repeat emits_step|intros config].
  apply emits_bind; [apply emits_lift|intros template].
  destruct (negb _); [apply emits_ret|].
  apply emits_lift_bind. intros f Hf'. fold payload in Hf'. rewrite Hf in Hf'.
  injection Hf' as <-.
  unfold Part000.renderGoogleDocToPdf, Part000.copy_and_wait, Part000.fill, Part000.finish,
    Part000.delete_quietly, Part000.sellCreateNote.
  rewrite Hp.
  repeat first [apply Hw | emits_step].
Qed.
End Placement.

(** ** The folder of a deal *)

Section EnsureFolder.
Context {rt : Runtime} {w : World} {d : Folders.Drive} {C : Type}.

(** [POST /v1/drive/folder/ensure]: once the client is authorized, a body
    without a root folder is answered 400, and so is a body without a deal
    (a [deal_id] of [0] counts as none); no call to Drive is made. *)
Theorem ensure_rejects_missing (body : value) (s : state C Folders.drive_log) :
  let payload := or_else body (VObj []) in
  let authorized := fst (Part000.makeGoogleClients s) in
  snd (Part000.makeGoogleClients s) = Ok tt ->
  (Part000.normalizeDriveId (get_prop payload "drive_root_folder_id") = Ok EmptyString ->
   Folders.ensure body s =
     (authorized, Ok (mkResponse 400 (error_body "drive_root_folder_id is required")))) /\
  (forall rootId,
      Part000.normalizeDriveId (get_prop payload "drive_root_folder_id") = Ok rootId ->
      rootId <> EmptyString ->
      truthy (get_prop payload "deal_id") = false ->
      Folders.ensure body s =
        (authorized, Ok (mkResponse 400 (error_body "deal_id is required")))) /\
  st_local authorized = st_local s.
Proof.
  intros payload authorized Hauth. subst authorized.
  assert (Hl : st_local (fst (Part000.makeGoogleClients s)) = st_local s).
  { unfold Part000.makeGoogleClients. destruct (_ || _); [reflexivity|].
    unfold perform. destruct (auth_authorize _); reflexivity. }
  unfold Folders.ensure, Folders.ensureDealFolder. fold payload. run.
  destruct (Part000.makeGoogleClients s) as [s1 r]; simpl in *. subst r.
  split; [|split; [|exact Hl]].
  - intros ->. reflexivity.
  - intros rootId -> Hne Hd. simpl. apply String.eqb_neq in Hne. rewrite Hne, Hd.
    reflexivity.
Qed.

(** [ensureDealFolder] creates a folder only when the search answered
    none, and then one folder only, named after the deal, in the root
    folder; when the search answers folders, the first of them is what it
    returns. *)
Theorem ensure_finds_or_creates (driveRootFolderId dealId : value)
    (s : state C Folders.drive_log) :
  let run := Folders.ensureDealFolder driveRootFolderId dealId s in
  exists calls,
    st_local (fst run) = st_local s ++ calls /\
    st_trace (fst run) = st_trace s /\
    ((Forall (fun c => is_creation c = false) calls /\
      forall out, snd run = Ok out ->
        exists rootId q corpora drive f rest,
          calls = [Folders.mkCall (Folders.FGet rootId) Done;
                   Folders.mkCall (Folders.FList q corpora drive) Done] /\
          Folders.files_list (st_trace s)
            (st_local s ++ [Folders.mkCall (Folders.FGet rootId) Done]) q corpora drive
            = Ok (Some (f :: rest)) /\
          get_prop out "folder_id" = f_id f) \/
     exists rootId deal q corpora drive o,
       calls = [Folders.mkCall (Folders.FGet rootId) Done;
                Folders.mkCall (Folders.FList q corpora drive) Done;
                Folders.mkCall (Folders.FCreate ("Deal_" +++ deal) rootId) o] /\
       Part000.normalizeDriveId driveRootFolderId = Ok rootId /\
       ToString dealId = Ok deal /\
       (Folders.files_list (st_trace s)
          (st_local s ++ [Folders.mkCall (Folders.FGet rootId) Done]) q corpora drive
          = Ok None \/
        Folders.files_list (st_trace s)
          (st_local s ++ [Folders.mkCall (Folders.FGet rootId) Done]) q corpora drive
          = Ok (Some []))).
Proof.
  unfold Folders.ensureDealFolder, Folders.ask. run.
  assert (Hnone : forall r : result value,
             (forall out, r = Ok out -> False) ->
             forall calls, Forall (fun c => is_creation c = false) calls ->
             Forall (fun c => is_creation c = false) calls /\
             forall out, r = Ok out ->
               exists rootId q corpora drive f rest,
                 calls = [Folders.mkCall (Folders.FGet rootId) Done;
                          Folders.mkCall (Folders.FList q corpora drive) Done] /\
                 Folders.files_list (st_trace s)
                   (st_local s ++ [Folders.mkCall (Folders.FGet rootId) Done]) q corpora drive
                   = Ok (Some (f :: rest)) /\
                 get_prop out "folder_id" = f_id f).
  { intros r Hr calls HF. split; [exact HF|]. intros out Ho. destruct (Hr out Ho). }
  destruct (Part000.normalizeDriveId driveRootFolderId) as [rootId|e] eqn:Hroot; simpl.
  2:{ exists []. rewrite app_nil_r. repeat split. left.
      apply Hnone; [intros; discriminate|constructor]. }
  destruct (String.eqb rootId EmptyString); simpl.
  { exists []. rewrite app_nil_r. repeat split. left.
    apply Hnone; [intros; discriminate|constructor]. }
  destruct (negb (truthy dealId)); simpl.
  { exists []. rewrite app_nil_r. repeat split. left.
    apply Hnone; [intros; discriminate|constructor]. }
  destruct (Folders.files_get (st_trace s) (st_local s) rootId) as [meta|e]; simpl.
  2:{ eexists. repeat split. left.
      apply Hnone; [intros; discriminate|repeat constructor]. }
  destruct (ToString dealId) as [deal|e] eqn:Hdeal; simpl.
  2:{ eexists. repeat split. left.
      apply Hnone; [intros; discriminate|repeat constructor]. }
  match goal with
  | |- context [Folders.files_list ?t ?l ?q ?c ?v] =>
      destruct (Folders.files_list t l q c v) as [found|e] eqn:Hlist
  end; simpl.
  2:{ eexists. split; [rewrite <- app_assoc; reflexivity|]. split; [reflexivity|]. left.
      apply Hnone; [intros; discriminate|repeat constructor]. }
  destruct found as [[|f rest]|].
  - match goal with
    | |- context [Folders.files_create ?t ?l ?n ?p] =>
        destruct (Folders.files_create t l n p) as [created|e]
    end; simpl;
      (eexists; split; [rewrite <- !app_assoc; reflexivity|]; split;
       [try (match goal with |- context [Folders.folder_of ?a ?b] => destruct (Folders.folder_of a b) end); reflexivity|]);
      right; do 6 eexists; (split; [reflexivity|]);
      (split; [reflexivity|]); (split; [reflexivity|]); right; exact Hlist.
  - simpl. eexists. split; [rewrite <- app_assoc; reflexivity|]. split; [reflexivity|].
    left. split; [repeat constructor|].
    intros out Ho. do 6 eexists. split; [reflexivity|]. split; [exact Hlist|].
    unfold Folders.folder_of in Ho.
    destruct (if truthy (f_link f) then _ else _); simpl in Ho; [|discriminate].
    injection Ho as <-. reflexivity.
  - match goal with
    | |- context [Folders.files_create ?t ?l ?n ?p] =>
        destruct (Folders.files_create t l n p) as [created|e]
    end; simpl;
      (eexists; split; [rewrite <- !app_assoc; reflexivity|]; split;
       [try (match goal with |- context [Folders.folder_of ?a ?b] => destruct (Folders.folder_of a b) end); reflexivity|]);
      right; do 6 eexists; (split; [reflexivity|]);
      (split; [reflexivity|]); (split; [reflexivity|]); left; exact Hlist.
Qed.
End EnsureFolder.

(** The sample Drive at work: a folder that is there is returned and
    nothing is created; one that is not is created under the root. *)
Lemma ensure_folder_examples :
  let run held :=
    Folders.ensureDealFolder (d := sample_drive held) (C := unit)
      (VStr "https://drive.google.com/drive/folders/RAIZ_1") (VNum 77) folder_start in
  (exists out, snd (run true) = Ok out /\
               @get_prop sample_runtime out "folder_id" = VStr "CARPETA_1") /\
  map Folders.c_call (st_local (fst (run true))) =
    [Folders.FGet "RAIZ_1";
     Folders.FList (Folders.query "RAIZ_1" "Deal_77") "user" VUndefined] /\
  (exists out, snd (run false) = Ok out /\
               @get_prop sample_runtime out "folder_id" = VStr "CARPETA_2") /\
  map Folders.c_call (st_local (fst (run false))) =
    [Folders.FGet "RAIZ_1";
     Folders.FList (Folders.query "RAIZ_1" "Deal_77") "user" VUndefined;
     Folders.FCreate "Deal_77" "RAIZ_1"].
Proof.
  intros run. split; [|split; [|split]].
  - eexists. split; [vm_compute; reflexivity|reflexivity].
  - vm_compute. reflexivity.
  - eexists. split; [vm_compute; reflexivity|reflexivity].
  - vm_compute. reflexivity.
Qed.

Section EnsureFailures.
Context {rt : Runtime} {w : World} {d : Folders.Drive} {C : Type}.

Lemma part_makeGoogleClients_local {L : Type} (s : state C L) :
  st_local (fst (Part000.makeGoogleClients s)) = st_local s.
Proof.
  unfold Part000.makeGoogleClients. destruct (_ || _); [reflexivity|].
  unfold perform. destruct (auth_authorize _); reflexivity.
Qed.

(** [POST /v1/drive/folder/ensure] always answers.  A call to Drive that
    fails is the last call made, and the answer carries the status of its
    error ([statusCode], 500 when it has none) and its message. *)
Theorem ensure_reports_failure (body : value) (s : state C Folders.drive_log) :
  exists resp calls,
    snd (Folders.ensure body s) = Ok resp /\
    st_local (fst (Folders.ensure body s)) = st_local s ++ calls /\
    forall before c e after,
      calls = before ++ Folders.mkCall c (Failed e) :: after ->
      after = [] /\
      resp = mkResponse (Part000.status_of e) (error_body (err_message e)).
Proof.
  unfold Folders.ensure, Folders.ensureDealFolder, Folders.ask. run.
  pose proof (part_makeGoogleClients_local s) as Hl.
  destruct (Part000.makeGoogleClients s) as [s1 [[]|e0]]; simpl in *.
  2:{ do 2 eexists. split; [reflexivity|]. split; [rewrite Hl, app_nil_r; reflexivity|].
      intros [|? ?] ? ? ? H; discriminate H. }
  rewrite <- Hl. clear Hl.
  assert (Hnil : forall resp : response,
             forall before c e after,
               [] = before ++ Folders.mkCall c (Failed e) :: after ->
               after = [] /\
               resp = mkResponse (Part000.status_of e) (error_body (err_message e))).
  { intros resp [|? ?] ? ? ? H; discriminate H. }
  destruct (Part000.normalizeDriveId _) as [rootId|e1]; simpl.
  2:{ do 2 eexists. split; [reflexivity|]. split; [rewrite app_nil_r; reflexivity|].
      apply Hnil. }
  destruct (String.eqb rootId EmptyString); simpl.
  { do 2 eexists. split; [reflexivity|]. split; [rewrite app_nil_r; reflexivity|].
    apply Hnil. }
  destruct (negb (truthy _)); simpl.
  { do 2 eexists. split; [reflexivity|]. split; [rewrite app_nil_r; reflexivity|].
    apply Hnil. }
  destruct (Folders.files_get _ _ rootId) as [meta|e1]; simpl.
  2:{ do 2 eexists. split; [reflexivity|]. split; [reflexivity|].
      intros [|? [|? ?]] ? ? ? H; try discriminate H.
      injection H; intros; subst; split; reflexivity. }
  destruct (ToString _) as [deal|e1]; simpl.
  { match goal with
    | |- context [Folders.files_list ?t ?l ?q ?c ?v] =>
        destruct (Folders.files_list t l q c v) as [found|e1]
    end; simpl.
    2:{ do 2 eexists. split; [reflexivity|].
        split; [rewrite <- app_assoc; reflexivity|].
        intros [|? [|? [|? ?]]] ? ? ? H; try discriminate H.
        injection H; intros; subst; split; reflexivity. }
    destruct found as [[|f rest]|]; simpl.
    - match goal with
      | |- context [Folders.files_create ?t ?l ?n ?p] =>
          destruct (Folders.files_create t l n p) as [created|e1]
      end; simpl.
      + destruct (Folders.folder_of _ _); simpl;
          (do 2 eexists; split; [reflexivity|];
           split; [rewrite <- !app_assoc; reflexivity|];
           intros [|? [|? [|? [|? ?]]]] ? ? ? H; discriminate H).
      + do 2 eexists. split; [reflexivity|].
        split; [rewrite <- !app_assoc; reflexivity|].
        intros [|? [|? [|? [|? ?]]]] ? ? ? H; try discriminate H.
        injection H; intros; subst; split; reflexivity.
    - destruct (Folders.folder_of _ _); simpl;
        (do 2 eexists; split; [reflexivity|];
         split; [rewrite <- !app_assoc; reflexivity|];
         intros [|? [|? [|? ?]]] ? ? ? H; discriminate H).
    - match goal with
      | |- context [Folders.files_create ?t ?l ?n ?p] =>
          destruct (Folders.files_create t l n p) as [created|e1]
      end; simpl.
      + destruct (Folders.folder_of _ _); simpl;
          (do 2 eexists; split; [reflexivity|];
           split; [rewrite <- !app_assoc; reflexivity|];
           intros [|? [|? [|? [|? ?]]]] ? ? ? H; discriminate H).
      + do 2 eexists. split; [reflexivity|].
        split; [rewrite <- !app_assoc; reflexivity|].
        intros [|? [|? [|? [|? ?]]]] ? ? ? H; try discriminate H.
        injection H; intros; subst; split; reflexivity. }
  do 2 eexists. split; [reflexivity|]. split; [reflexivity|].
  intros [|? [|? ?]] ? ? ? H; discriminate H.
Qed.
End EnsureFailures.

(** ** Notes in the CRM *)

Section Notes.
Context {w : World} {C L : Type}.

Lemma uploads_perform name parents (answer : trace -> result file_meta) :
  uploads (perform (CDriveCreate name parents) answer : M C L file_meta).
Proof.
  intros s. unfold perform. destruct (answer (st_trace s)) as [a|e]; simpl.
  - eexists. split; [reflexivity|]. split; [repeat constructor|].
    intros _ _. apply Exists_cons_hd. exact I.
  - eexists. split; [reflexivity|]. split; [repeat constructor|]. discriminate.
Qed.

Lemma uploads_front {A B : Type} (m : M C L A) (k : A -> M C L B) :
  emits note_free m -> (forall a, uploads (k a)) -> uploads (bind m k).
Proof.
  intros He Hk s. unfold bind. destruct (He s) as [ev1 [H1 F1]].
  destruct (m s) as [s1 [a|e]]; simpl in *.
  - destruct (Hk a s1) as [ev2 [H2 [F2 Hup]]]. exists (ev1 ++ ev2).
    split; [rewrite H2, H1; symmetry; apply app_assoc|].
    split; [apply Forall_app; auto|].
    intros b Hb. apply Exists_app. right. exact (Hup b Hb).
  - exists ev1. split; [exact H1|]. split; [exact F1|]. discriminate.
Qed.

Lemma uploads_then {A B : Type} (m : M C L A) (k : A -> M C L B) :
  uploads m -> (forall a, emits note_free (k a)) -> uploads (bind m k).
Proof.
  intros Hm Hk s. unfold bind. destruct (Hm s) as [ev1 [H1 [F1 Hup]]].
  destruct (m s) as [s1 [a|e]]; simpl in *.
  - destruct (Hk a s1) as [ev2 [H2 F2]]. exists (ev1 ++ ev2).
    split; [rewrite H2, H1; symmetry; apply app_assoc|].
    split; [apply Forall_app; auto|].
    intros b _. apply Exists_app. left. exact (Hup a eq_refl).
  - exists ev1. split; [exact H1|]. split; [exact F1|]. discriminate.
Qed.

Lemma uploads_unreturning {A : Type} (m : M C L A) :
  emits note_free m -> returns_only (fun _ => False) m -> uploads m.
Proof.
  intros He Hr s. destruct (He s) as [ev [H F]]. exists ev.
  split; [exact H|]. split; [exact F|]. intros a Ha. destruct (Hr s a Ha).
Qed.

Lemma once_quiet {A : Type} (m : M C L A) : emits note_free m -> notes_once m.
Proof.
  intros He s. destruct (He s) as [ev [H F]]. exists ev. split; [exact H|]. left. exact F.
Qed.

Lemma once_front {A B : Type} (m : M C L A) (k : A -> M C L B) :
  emits note_free m -> (forall a, notes_once (k a)) -> notes_once (bind m k).
Proof.
  intros He Hk s. unfold bind. destruct (He s) as [ev1 [H1 F1]].
  destruct (m s) as [s1 [a|e]]; simpl in *.
  - destruct (Hk a s1) as [ev2 [H2 Hcase]]. exists (ev1 ++ ev2).
    split; [rewrite H2, H1; symmetry; apply app_assoc|].
    destruct Hcase as [F2 | [pre [e [post [-> [Fpre Fpost]]]]]].
    + left. apply Forall_app; auto.
    + right. exists (ev1 ++ pre), e, post.
      split; [rewrite <- app_assoc; reflexivity|].
      split; [apply Forall_app; auto|exact Fpost].
  - exists ev1. split; [exact H1|]. left. exact F1.
Qed.

Lemma once_then {A B : Type} (m : M C L A) (k : A -> M C L B) :
  notes_once m -> (forall a, emits note_free (k a)) -> notes_once (bind m k).
Proof.
  intros Hm Hk s. unfold bind. destruct (Hm s) as [ev1 [H1 Hcase]].
  destruct (m s) as [s1 [a|e]]; simpl in *; [|exists ev1; auto].
  destruct (Hk a s1) as [ev2 [H2 F2]]. exists (ev1 ++ ev2).
  split; [rewrite H2, H1; symmetry; apply app_assoc|].
  destruct Hcase as [F1 | [pre [e [post [-> [Fpre Fpost]]]]]].
  - left. apply Forall_app; auto.
  - right. exists pre, e, (post ++ ev2).
    split; [rewrite <- app_assoc; reflexivity|].
    split; [exact Fpre|apply Forall_app; auto].
Qed.

Lemma once_request c (answer : trace -> result (Z * string)) :
  notes_once (request c answer : M C L (Z * string)).
Proof.
  intros s. unfold request.
  destruct (answer (st_trace s)) as [[st txt]|e]; simpl;
    (eexists; split; [reflexivity|]; right; exists [];
     eexists; exists []; repeat split; constructor).
Qed.

Lemma late_quiet {A : Type} (m : M C L A) : emits note_free m -> notes_late m.
Proof.
  intros He s. destruct (He s) as [ev [H F]]. exists ev. split; [exact H|]. left. exact F.
Qed.

Lemma late_front {A B : Type} (m : M C L A) (k : A -> M C L B) :
  emits note_free m -> (forall a, notes_late (k a)) -> notes_late (bind m k).
Proof.
  intros He Hk s. unfold bind. destruct (He s) as [ev1 [H1 F1]].
  destruct (m s) as [s1 [a|e]]; simpl in *.
  - destruct (Hk a s1) as [ev2 [H2 Hcase]]. exists (ev1 ++ ev2).
    split; [rewrite H2, H1; symmetry; apply app_assoc|].
    destruct Hcase as [F2 | [pre [e [post [-> [Fpre [Hup Fpost]]]]]]].
    + left. apply Forall_app; auto.
    + right. exists (ev1 ++ pre), e, post.
      split; [rewrite <- app_assoc; reflexivity|].
      split; [apply Forall_app; auto|].
      split; [apply Exists_app; right; exact Hup|exact Fpost].
  - exists ev1. split; [exact H1|]. left. exact F1.
Qed.

Lemma late_after {A B : Type} (m : M C L A) (k : A -> M C L B) :
  uploads m -> (forall a, notes_once (k a)) -> notes_late (bind m k).
Proof.
  intros Hm Hk s. unfold bind. destruct (Hm s) as [ev1 [H1 [F1 Hup]]].
  destruct (m s) as [s1 [a|e]]; simpl in *.
  - destruct (Hk a s1) as [ev2 [H2 Hcase]]. exists (ev1 ++ ev2).
    split; [rewrite H2, H1; symmetry; apply app_assoc|].
    destruct Hcase as [F2 | [pre [e [post [-> [Fpre Fpost]]]]]].
    + left. apply Forall_app; auto.
    + right. exists (ev1 ++ pre), e, post.
      split; [rewrite <- app_assoc; reflexivity|].
      split; [apply Forall_app; auto|].
      split; [apply Exists_app; left; exact (Hup a eq_refl)|exact Fpost].
  - exists ev1. split; [exact H1|]. left. exact F1.
Qed.

Lemma late_try {A : Type} (m : M C L A) (h : error -> M C L A) :
  notes_late m -> (forall e, emits note_free (h e)) -> notes_late (try_catch m h).
Proof.
  intros Hm Hh s. unfold try_catch. destruct (Hm s) as [ev1 [H1 Hcase]].
  destruct (m s) as [s1 [a|e]]; simpl in *; [exists ev1; auto|].
  destruct (Hh e s1) as [ev2 [H2 F2]]. exists (ev1 ++ ev2).
  split; [rewrite H2, H1; symmetry; apply app_assoc|].
  destruct Hcase as [F1 | [pre [e' [post [-> [Fpre [Hup Fpost]]]]]]].
  - left. apply Forall_app; auto.
  - right. exists pre, e', (post ++ ev2).
    split; [rewrite <- app_assoc; reflexivity|].
    split; [exact Fpre|]. split; [exact Hup|apply Forall_app; auto].
Qed.

End Notes.

Ltac once_step :=
  first
    [ apply once_request
    | apply once_quiet; solve [repeat emits_step]
    | apply once_front; [solve [repeat emits_step]|intros ?]
    | apply once_then; [|intros ?; solve [repeat emits_step]]
    | match goal with
      | |- notes_once (if ?b then _ else _) => destruct b
      | |- notes_once (match ?x with _ => _ end) => destruct x
      end ].

Ltac late_step :=
  first
    [ apply late_quiet; solve [repeat emits_step]
    | apply late_front; [solve [repeat emits_step]|intros ?]
    | match goal with
      | |- notes_late (if ?b then _ else _) => destruct b
      | |- notes_late (match ?x with _ => _ end) => destruct x
      end ].

Section RenderNotes.
Context {rt : Runtime} {w : World}.

Lemma server_createSellNote_once {C L : Type} payload template pdf :
  notes_once (ServerJs.createSellNote payload template pdf : M C L value).
Proof.
  unfold ServerJs.createSellNote. repeat once_step.
Qed.

Lemma server_loadConfig_noteless {L : Type} :
  emits note_free (ServerJs.loadConfig : M ServerJs.configCache L ServerJs.Config).
Proof.
  unfold ServerJs.loadConfig, ServerJs.cached, ServerJs.refresh, ServerJs.readSheet.
  repeat emits_step.
Qed.

Lemma server_produce_late payload template required :
  notes_late (ServerJs.produce payload template required).
Proof.
  unfold ServerJs.produce.
  do 9 (apply late_front; [solve [repeat emits_step]|intros ?]).
  apply late_after; [apply uploads_perform|intros createdPdf].
  apply once_front; [repeat emits_step|intros _].
  apply once_then; [apply server_createSellNote_once|intros note; repeat emits_step].
Qed.

(** [src/server.js]: a render asks the CRM for one note at most, and only
    after the upload of the PDF succeeded. *)
Theorem server_note_after_upload (body : value) (s : state ServerJs.configCache value) :
  exists events,
    st_trace (fst (ServerJs.render body s)) = st_trace s ++ events /\
    noted_after_upload events.
Proof.
  revert s. change (notes_late (ServerJs.render body)).
  unfold ServerJs.render.
  apply late_front; [repeat emits_step|intros _].
  apply late_try; [|intros e; unfold ServerJs.render_catch; repeat emits_step].
  unfold ServerJs.render_try.
  apply late_front; [apply server_loadConfig_noteless|intros config].
  unfold ServerJs.with_config.
  repeat first [ apply server_produce_late | late_step ].
Qed.

Lemma part_waitForFile_noteless {C L : Type} fileId :
  emits note_free (Part000.waitForFile fileId : M C L bool).
Proof.
  unfold Part000.waitForFile. induction Part000.delays as [|delay rest IH]; simpl.
  - apply emits_throw.
  - apply emits_bind.
    + unfold Part000.check_once. repeat emits_step.
    + intros [found|]; [apply emits_ret|exact IH].
Qed.

Lemma part_loadConfig_noteless {L : Type} :
  emits note_free (Part000.loadConfig : M Part000.CONFIG_CACHE L Part000.Config).
Proof.
  unfold Part000.loadConfig, Part000.refresh. repeat emits_step.
Qed.

Lemma part_finish_uploads {C L : Type} template payload folderId docId requests :
  uploads (Part000.finish template payload folderId docId requests : M C L value).
Proof.
  unfold Part000.finish, Part000.delete_quietly.
  apply uploads_front; [repeat emits_step|intros _].
  apply uploads_front; [apply part_waitForFile_noteless|intros _].
  apply uploads_front; [repeat emits_step|intros exportedPdf].
  apply uploads_front; [repeat emits_step|intros today].
  apply uploads_front; [repeat emits_step|intros filename].
  apply uploads_then; [apply uploads_perform|intros pdf; repeat emits_step].
Qed.

Lemma part_renderDoc_uploads {C L : Type} template payload folderId :
  uploads (Part000.renderGoogleDocToPdf template payload folderId : M C L value).
Proof.
  unfold Part000.renderGoogleDocToPdf.
  apply uploads_front.
  { unfold Part000.copy_and_wait.
    repeat first [ apply part_waitForFile_noteless | emits_step ]. }
  intros docId. unfold Part000.fill.
  apply uploads_front; [repeat emits_step|intros built].
  destruct (0 <? _)%nat; [|apply part_finish_uploads].
  apply uploads_unreturning.
  - unfold Part000.delete_quietly. repeat emits_step.
  - repeat returns_step.
Qed.

(** [src/unnamed/part_000]: a render asks the CRM for one note at most,
    and only after the upload of the PDF succeeded. *)
Theorem part_note_after_upload (body : value) (s : state Part000.CONFIG_CACHE unit) :
  exists events,
    st_trace (fst (Part000.render body s)) = st_trace s ++ events /\
    noted_after_upload events.
Proof.
  revert s. change (notes_late (Part000.render body)).
  unfold Part000.render.
  apply late_try; [|intros e; repeat emits_step].
  unfold Part000.render_try.
  apply late_front; [unfold Part000.makeGoogleClients; repeat emits_step|intros _].
  apply late_front; [apply part_loadConfig_noteless|intros config].
  unfold Part000.with_config.
  apply late_front; [repeat emits_step|intros template].
  destruct (negb (truthy template)); [apply late_quiet; repeat emits_step|].
  apply late_front; [repeat emits_step|intros folderId].
  apply late_after; [apply part_renderDoc_uploads|intros out].
  unfold Part000.sellCreateNote. repeat once_step.
Qed.

End RenderNotes.

(** ** The properties above at sample inputs *)

Lemma normalizeDriveId_idempotent_witness :
  Part000.normalizeDriveId (VStr "https://drive.google.com/file/d/1AbC_d-9/view") =
    Ok "1AbC_d-9" /\
  Part000.normalizeDriveId (VStr "1AbC_d-9") = Ok "1AbC_d-9".
Proof.
  split; [reflexivity|].
  apply (normalizeDriveId_idempotent (VStr "https://drive.google.com/file/d/1AbC_d-9/view")).
  reflexivity.
Defined.

Lemma normalizeDriveId_folder_url_witness :
  Part000.normalizeDriveId
    (VStr (" https://drive.google.com/drive" +++ "/folders/" +++ "1AbC_d-9" +++ "?usp=sharing "))
  = Ok "1AbC_d-9".
Proof.
  apply normalizeDriveId_folder_url.
  - reflexivity.
  - discriminate.
  - repeat constructor.
  - reflexivity.
Defined.

Lemma parseBoolean_within_toBool_witness :
  @Part000.toBool (VStr " YES ") = Ok true.
Proof. apply parseBoolean_within_toBool. reflexivity. Defined.

Lemma server_sheet_cell_witness :
  let header := map SStr ["template_key"; "engine"] in
  let data := [map SStr ["A"]; map SStr ["B"; "gdocs"]] in
  List.length (ServerJs.mapRowsToObjects (header :: data)) = 2%nat /\
  exists obj,
    nth_error (ServerJs.mapRowsToObjects (header :: data)) 0 = Some obj /\
    own_prop obj "engine" = Some (VStr EmptyString).
Proof.
  intros header data.
  apply (server_sheet_cell header data 0 1 (map SStr ["A"]) (SStr "engine")).
  - reflexivity.
  - reflexivity.
  - simpl. discriminate.
  - simpl. intros [].
Defined.

Lemma part_sheet_cell_witness :
  let header := map SStr [" template_key "; "engine"] in
  let data := [map SStr ["A"]; map SStr [" "; ""]; map SStr ["B"; "gdocs"]] in
  List.length (Part000.rowsToObjects (Some (header :: data))) = 2%nat /\
  exists obj,
    nth_error (Part000.rowsToObjects (Some (header :: data))) 1 = Some obj /\
    own_prop obj "template_key" = Some (VStr "B").
Proof.
  intros header data.
  apply (part_sheet_cell header data 1 0 (map SStr ["B"; "gdocs"]) (SStr " template_key ")).
  - reflexivity.
  - reflexivity.
  - vm_compute. discriminate.
  - vm_compute. intros [H|[]]. discriminate.
Defined.

Lemma part_resolves_last_witness :
  exists t,
    @Part000.resolve sample_runtime sample_twice_part
      (VObj [("template_key", VStr "DOBLE")]) = Ok t /\
    @get_prop sample_runtime t "doc_template_id" = VStr "DOC_B".
Proof.
  exists (nth 1 (Part000.templates sample_twice_part) VNull).
  split; [|reflexivity].
  apply (@part_resolves_last sample_runtime (Some sample_twice) None sample_twice_part
           [nth 0 (Part000.templates sample_twice_part) VNull]
           (nth 1 (Part000.templates sample_twice_part) VNull) [] "DOBLE").
  - reflexivity.
  - reflexivity.
  - reflexivity.
  - constructor.
  - discriminate.
  - reflexivity.
Defined.

Lemma server_resolves_first_witness :
  @get_prop sample_runtime
    (@ServerJs.resolveTemplate sample_runtime sample_twice_server
       (VObj [("template_key", VStr "DOBLE")])) "doc_template_id" = VStr "DOC_A".
Proof.
  rewrite (@server_resolves_first sample_runtime sample_twice_server []
             (nth 0 (ServerJs.templates sample_twice_server) VNull)
             [nth 1 (ServerJs.templates sample_twice_server) VNull] "DOBLE").
  - reflexivity.
  - reflexivity.
  - reflexivity.
  - constructor.
  - discriminate.
  - reflexivity.
Defined.

Lemma present_in_both_witness :
  let payload := VObj [("object", VObj [("run", VStr "12345678-5")])] in
  @Part000.getByPath sample_runtime payload (VStr "object.run") = Ok (VStr "12345678-5").
Proof.
  intros payload.
  apply (@present_in_both sample_runtime payload "object.run").
  - discriminate.
  - reflexivity.
  - reflexivity.
Defined.

Lemma server_bad_cell_witness :
  exists e, @ServerJs.normalizeTemplates sample_runtime sample_bad_cell = Throw e.
Proof.
  apply (@server_bad_cell_fails sample_runtime sample_bad_cell).
  apply Exists_cons_hd. split; [reflexivity|split; [reflexivity|]].
  intros items [text [Ht Hp]]. vm_compute in Ht. injection Ht as <-.
  vm_compute in Hp. discriminate.
Defined.

Lemma sample_runtime_convertible : inherited_convertible sample_runtime.
Proof.
  intros v k x H. destruct v; simpl in H; try discriminate.
  unfold object_prototype, assoc in H. simpl in H.
  repeat match type of H with
         | (if ?c then _ else _) = _ =>
             destruct c; [injection H as <-; eexists; reflexivity|]
         end.
  discriminate.
Qed.

Lemma part_config_builds_witness :
  exists config,
    @Part000.build_config sample_runtime (Some sample_bad_cell) (Some sample_packages) =
      Ok config.
Proof.
  apply (@part_config_always_builds sample_runtime).
  exact sample_runtime_convertible.
Defined.

Lemma server_null_sell_witness :
  let body := VObj [("template_key", VStr "SIN_CAMPOS"); ("sell", VNull)] in
  exists resp,
    snd (@ServerJs.render sample_runtime (sample_world no_faults None) body server_start) =
      Ok resp /\
    (status resp = 400 \/ status resp = 500)%Z.
Proof.
  intros body. eexists. split; [vm_compute; reflexivity|].
  eapply (@server_null_sell_fails sample_runtime (sample_world no_faults None)
            body server_start).
  - reflexivity.
  - vm_compute. reflexivity.
Defined.

Lemma part_files_placed_witness :
  let body :=
    VObj [("template_key", VStr "SIN_CAMPOS");
          ("deal", VObj [("folder_id",
                          VStr "https://drive.google.com/drive/folders/CARPETA_9?usp=sharing")])] in
  emits_at (uploaded_under (VArr [VStr "CARPETA_9"]))
           (@Part000.render sample_runtime (sample_world no_faults None) body) part_start.
Proof.
  intros body.
  apply (@part_files_placed sample_runtime (sample_world no_faults None) body part_start
           "CARPETA_9").
  reflexivity.
Defined.

Lemma ensure_rejects_missing_witness :
  let world := sample_world no_faults None in
  let authorized : state unit Folders.drive_log :=
    fst (@Part000.makeGoogleClients world unit Folders.drive_log folder_start) in
  @Folders.ensure sample_runtime world (sample_drive false) unit
    (VObj [("deal_id", VNum 77)]) folder_start =
    (authorized, Ok (mkResponse 400 (error_body "drive_root_folder_id is required"))) /\
  @Folders.ensure sample_runtime world (sample_drive false) unit
    (VObj [("drive_root_folder_id", VStr "RAIZ_1"); ("deal_id", VNum 0)]) folder_start =
    (authorized, Ok (mkResponse 400 (error_body "deal_id is required"))).
Proof.
  intros world authorized. split.
  - destruct (@ensure_rejects_missing sample_runtime world (sample_drive false) unit
                (VObj [("deal_id", VNum 77)]) folder_start) as [H _];
      [reflexivity|].
    apply H. reflexivity.
  - destruct (@ensure_rejects_missing sample_runtime world (sample_drive false) unit
                (VObj [("drive_root_folder_id", VStr "RAIZ_1"); ("deal_id", VNum 0)])
                folder_start) as [_ [H _]];
      [reflexivity|].
    apply (H "RAIZ_1"); [reflexivity|discriminate|reflexivity].
Defined.
